(** * History exporter (history-export/src/exporter.ts)

    A shallow embedding of the [HistoryExporter] class: the cursor-following
    loops over the paged Slack Web API, the two-tier name caches and their
    JSON snapshots, thread expansion and the three renderers.

    Conventions.
    - A JavaScript string is a [string]; its characters are read as code
      units below 256.
    - An optional property ([x?: string]) is an [option]; JavaScript
      truthiness of such a value is [truthy]: present and non-empty.
    - A [Map<string, string>] and a [Record<string, string>] are finite maps
      [gmap string string] (own properties only).
    - The remote API is a scripted collaborator: each endpoint holds the
      finite list of replies it will still give, one per call.
    - The parts of the JavaScript runtime the class relies on (JSON, Date,
      parseFloat, path.join, localeCompare, os.EOL) are gathered in
      [JsRuntime] and taken as a parameter.
    - The clock stands still, the console and the directories of the file
      system are left out, and writing a file always succeeds. *)

From stdpp Require Import gmap strings list fin_maps pretty.
From Stdlib Require Import Ascii ZArith Permutation.

Local Open Scope Z_scope.

(** ** String primitives *)

Module Js.

Definition LF : ascii := ascii_of_nat 10.
Definition CR : ascii := ascii_of_nat 13.
Definition QUOTE : ascii := ascii_of_nat 34.
Definition COMMA : ascii := ascii_of_nat 44.
Definition SPACE : ascii := ascii_of_nat 32.

(** White space and line terminators of [String.prototype.trim], among the
    code units below 256: TAB, LF, VT, FF, CR, SP and NBSP. *)
Definition isWhiteSpace (c : ascii) : bool :=
  let n := nat_of_ascii c in
  ((9 <=? n) && (n <=? 13) || (n =? 32) || (n =? 160))%nat.

Fixpoint trimStart (s : string) : string :=
  match s with
  | EmptyString => EmptyString
  | String c r => if isWhiteSpace c then trimStart r else s
  end.

Fixpoint trimEnd (s : string) : string :=
  match s with
  | EmptyString => EmptyString
  | String c r =>
      match trimEnd r with
      | EmptyString => if isWhiteSpace c then EmptyString else String c EmptyString
      | r' => String c r'
      end
  end.

(** [s.trim()] *)
Definition trim (s : string) : string := trimEnd (trimStart s).

(** Truthiness of a string: non-empty. *)
Definition nonEmpty (s : string) : bool := negb (String.eqb s "").

(** Truthiness of [x?: string]. *)
Definition truthy (o : option string) : bool :=
  match o with Some s => nonEmpty s | None => false end.

(** [a || b] where [b] is a string. *)
Definition orElse (a : option string) (b : string) : string :=
  match a with
  | Some s => if nonEmpty s then s else b
  | None => b
  end.

(** [a || undefined] *)
Definition orUndefined (a : option string) : option string :=
  if truthy a then a else None.

(** [a ?? b] *)
Definition nullish (a : option string) (b : string) : string :=
  match a with Some s => s | None => b end.

(** [s.startsWith(p)] *)
Fixpoint startsWith (p s : string) : bool :=
  match p, s with
  | EmptyString, _ => true
  | String a p', String b s' => if Ascii.eqb a b then startsWith p' s' else false
  | String _ _, EmptyString => false
  end.

(** [s.includes(c)] for a single code unit. *)
Fixpoint includes (c : ascii) (s : string) : bool :=
  match s with
  | EmptyString => false
  | String a r => if Ascii.eqb a c then true else includes c r
  end.

(** [parts.join(sep)] *)
Fixpoint join (sep : string) (parts : list string) : string :=
  match parts with
  | [] => ""
  | [p] => p
  | p :: rest => p +:+ sep +:+ join sep rest
  end.

(** [s.split] on the line feed: never empty, the pieces between line
    feeds. *)
Fixpoint splitLines (s : string) : list string :=
  match s with
  | EmptyString => [""]
  | String c r =>
      if Ascii.eqb c LF then "" :: splitLines r
      else match splitLines r with
           | [] => [String c ""]
           | l :: ls => String c l :: ls
           end
  end.

(** [String(n)] for a number that is an integer or NaN ([None]). *)
Definition numToString (n : option Z) : string :=
  match n with Some z => pretty z | None => "NaN" end.

(** [s.padStart(2, '0')] *)
Definition padStart2 (s : string) : string :=
  match s with
  | EmptyString => "00"
  | String c EmptyString => String "0"%char s
  | _ => s
  end.

(** Stable insertion sort: [Array.prototype.sort] with a comparator,
    given here by [lt a b], the test [compare(a, b) < 0]. *)
Section Sort.
Context {A : Type} (lt : A → A → bool).

Fixpoint insertSorted (x : A) (l : list A) : list A :=
  match l with
  | [] => [x]
  | y :: l' => if lt y x then y :: insertSorted x l'
               else if lt x y then x :: l
               else y :: insertSorted x l'
  end.

Definition sortBy (l : list A) : list A :=
  foldl (λ acc x, insertSorted x acc) [] l.
End Sort.

End Js.

(** ** Data taken from the remote API *)

(** [SlackMessage], the properties the exporter reads. *)
Record SlackMessage := {
  ts : option string;
  user : option string;
  bot_id : option string;
  username : option string;
  text : option string;
  thread_ts : option string;
  reply_count : option Z;
}.

Record Profile := {
  display_name : option string;
  profile_real_name : option string;
}.

(** [SlackUser] (a member of [users.list], the user of [users.info]). *)
Record SlackUser := {
  user_id : option string;
  user_profile : option Profile;
  real_name : option string;
}.

Record Channel := {
  channel_id : option string;
  channel_name : option string;
  name_normalized : option string;
}.

Record ChannelInfo := { id : string; name : string }.

Record MessageWithReplies := {
  message : SlackMessage;
  replies : list SlackMessage;
}.

Record ChannelCacheFile := {
  channels_updatedAt : string;
  channels : gmap string string; (* name -> id *)
}.

Record UserCacheFile := {
  users_updatedAt : string;
  users : gmap string string; (* id -> displayName *)
}.

(** A [WebAPICallResult]: the envelope, the payload of the endpoint and
    [response_metadata?.next_cursor]. *)
Record Response (P : Type) := {
  ok : bool;
  error : option string;
  payload : option P;
  next_cursor : option string;
}.
Arguments ok {P}.
Arguments error {P}.
Arguments payload {P}.
Arguments next_cursor {P}.

(** A thrown value: an [Error] with its message and, for the errors of the
    Web client, a [code]. *)
Record JsError := { code : option string; msg : string }.

Definition Error (m : string) : JsError := {| code := None; msg := m |}.

(** [ErrorCode.RateLimitedError] *)
Definition RateLimitedError : string := "slack_webapi_rate_limited_error".

Definition isRateLimitError (e : JsError) : bool :=
  bool_decide (code e = Some RateLimitedError).

(** What a call to the remote API comes to: it resolves or it rejects. *)
Inductive Reply (R : Type) :=
  | Resolves (r : R)
  | Rejects (e : JsError).
Arguments Resolves {R}.
Arguments Rejects {R}.

(** ** Pure helpers of the class *)

(** [extractDisplayName] *)
Definition extractDisplayName (u : SlackUser) : string :=
  Js.orElse (Js.trim <$> (user_profile u ≫= display_name))
    (Js.orElse (Js.trim <$> (user_profile u ≫= profile_real_name))
       (Js.orElse (real_name u)
          (Js.orElse (user_id u) "unknown"))).

(** [formatMessageText] *)
Definition formatMessageText (t : string) : string := Js.trim t.

(** [text.replace(/\r\n|\r|\n/g, ' ')] *)
Fixpoint replaceLineBreaks (s : string) : string :=
  match s with
  | EmptyString => EmptyString
  | String c r =>
      if Ascii.eqb c Js.CR then
        String Js.SPACE
          match r with
          | String c2 r2 =>
              if Ascii.eqb c2 Js.LF then replaceLineBreaks r2
              else replaceLineBreaks r
          | EmptyString => EmptyString
          end
      else if Ascii.eqb c Js.LF then String Js.SPACE (replaceLineBreaks r)
      else String c (replaceLineBreaks r)
  end.

(** [sanitizeText] *)
Definition sanitizeText (t : string) : string :=
  Js.trim (replaceLineBreaks t).

(** [value.replace] of every double quote by two of them. *)
Fixpoint doubleQuotes (s : string) : string :=
  match s with
  | EmptyString => EmptyString
  | String c r =>
      if Ascii.eqb c Js.QUOTE then String Js.QUOTE (String Js.QUOTE (doubleQuotes r))
      else String c (doubleQuotes r)
  end.

(** The test of [value] against the class of double quote, comma and
    line feed. *)
Definition needsQuotes (value : string) : bool :=
  Js.includes Js.QUOTE value || Js.includes Js.COMMA value || Js.includes Js.LF value.

(** [escapeCsv] *)
Definition escapeCsv (value : string) : string :=
  let escaped := doubleQuotes value in
  if needsQuotes value
  then String Js.QUOTE escaped +:+ String Js.QUOTE ""
  else escaped.

(** ** The JavaScript runtime *)

(** A [Date] is its time value, in milliseconds since the epoch; [None] is
    the invalid date, whose time value is NaN. *)
Definition Date : Type := option Z.

(** What the class takes from the runtime and the standard library. *)
Record JsRuntime := {
  (** [path.join(dir, file)] *)
  path_join : string → string → string;
  (** [JSON.stringify(cache, null, 2)] and [JSON.parse(data)] at the two
      snapshot types; [None] is a [SyntaxError]. *)
  stringify_channels : ChannelCacheFile → string;
  parse_channels : string → option ChannelCacheFile;
  stringify_users : UserCacheFile → string;
  parse_users : string → option UserCacheFile;
  (** [date.toISOString()] of a valid date. *)
  toISOString : Z → string;
  (** The time value of [new Date(parseFloat(ts) * 1000)]. *)
  timeValueOfSeconds : string → Date;
  (** The local-time fields of a valid date. *)
  getFullYear : Z → Z;
  getMonth : Z → Z;
  getDate : Z → Z;
  getHours : Z → Z;
  getMinutes : Z → Z;
  (** [parseFloat(a) - parseFloat(b) < 0] *)
  parseFloat_lt : string → string → bool;
  (** [a.localeCompare(b) < 0] *)
  localeCompare_lt : string → string → bool;
  (** [os.EOL] *)
  EOL : string;
}.

(** [(date.getTime() / 1000).toString()] for a valid date: the decimal
    numeral of the seconds, with the milliseconds as fraction digits and
    no trailing zero. The quotient is the double nearest to [t / 1000] and
    the shortest numeral that reads back to it is this one for every time
    value a date can hold (at most 8.64e15 in magnitude). *)
Definition fractionDigits (r : Z) : string :=
  if r =? 0 then ""
  else if r mod 100 =? 0 then "." +:+ pretty (r / 100)
  else if r mod 10 =? 0 then
    "." +:+ (if r <? 100 then "0" else "") +:+ pretty (r / 10)
  else "." +:+ (if r <? 10 then "00" else if r <? 100 then "0" else "")
           +:+ pretty r.

Definition secondsToString (t : Z) : string :=
  let a := Z.abs t in
  (if t <? 0 then "-" else "") +:+ pretty (a / 1000) +:+ fractionDigits (a mod 1000).

(** ** The world: remote scripts, files, clock and the exporter's fields *)

(** The arguments of [conversations.history]. *)
Record HistoryRequest := {
  channel : string;
  cursor : option string;
  limit : Z;
  oldest : option string;
  latest : option string;
}.

Definition ConversationsListResponse := Response (list Channel).
Definition ConversationsHistoryResponse := Response (list SlackMessage).
Definition ConversationsRepliesResponse := Response (list SlackMessage).
Definition ConversationsInfoResponse := Response Channel.
Definition UsersListResponse := Response (list SlackUser).
Definition UsersInfoResponse := Response SlackUser.

(** The history endpoint answers as a function of the request, so that a
    remote that honours [oldest] and [latest] can be described. *)
Definition HistoryHandler : Type :=
  HistoryRequest → Reply ConversationsHistoryResponse.

Record Remote := {
  conversations_list : list (Reply ConversationsListResponse);
  conversations_history : list HistoryHandler;
  conversations_replies : list (Reply ConversationsRepliesResponse);
  conversations_info : list (Reply ConversationsInfoResponse);
  users_list : list (Reply UsersListResponse);
  users_info : list (Reply UsersInfoResponse);
}.

(** What the exporter does to the outside, in order. *)
Inductive Event :=
  | CallConversationsList (cursor : option string)
  | CallConversationsHistory (req : HistoryRequest)
  | CallConversationsReplies (channel ts : string) (cursor : option string)
  | CallConversationsInfo (channel : string)
  | CallUsersList (cursor : option string)
  | CallUsersInfo (user : string)
  | Sleep (ms : Z)
  | WriteFile (path : string).

Record World := {
  remote : Remote;
  files : gmap string string;
  clock : Z;
  events : list Event;
  (* fields of the HistoryExporter instance *)
  userCache : gmap string string;
  channelNameToIdCache : gmap string string;
  channelIdToNameCache : gmap string string;
  cacheDir : string;
}.

Definition set_remote (f : Remote → Remote) (w : World) : World :=
  {| remote := f (remote w); files := files w; clock := clock w;
     events := events w; userCache := userCache w;
     channelNameToIdCache := channelNameToIdCache w;
     channelIdToNameCache := channelIdToNameCache w; cacheDir := cacheDir w |}.

Definition set_files (f : gmap string string → gmap string string) (w : World) : World :=
  {| remote := remote w; files := f (files w); clock := clock w;
     events := events w; userCache := userCache w;
     channelNameToIdCache := channelNameToIdCache w;
     channelIdToNameCache := channelIdToNameCache w; cacheDir := cacheDir w |}.

Definition set_events (f : list Event → list Event) (w : World) : World :=
  {| remote := remote w; files := files w; clock := clock w;
     events := f (events w); userCache := userCache w;
     channelNameToIdCache := channelNameToIdCache w;
     channelIdToNameCache := channelIdToNameCache w; cacheDir := cacheDir w |}.

Definition set_userCache (f : gmap string string → gmap string string) (w : World) : World :=
  {| remote := remote w; files := files w; clock := clock w;
     events := events w; userCache := f (userCache w);
     channelNameToIdCache := channelNameToIdCache w;
     channelIdToNameCache := channelIdToNameCache w; cacheDir := cacheDir w |}.

Definition set_channelNameToIdCache (f : gmap string string → gmap string string) (w : World) : World :=
  {| remote := remote w; files := files w; clock := clock w;
     events := events w; userCache := userCache w;
     channelNameToIdCache := f (channelNameToIdCache w);
     channelIdToNameCache := channelIdToNameCache w; cacheDir := cacheDir w |}.

Definition set_channelIdToNameCache (f : gmap string string → gmap string string) (w : World) : World :=
  {| remote := remote w; files := files w; clock := clock w;
     events := events w; userCache := userCache w;
     channelNameToIdCache := channelNameToIdCache w;
     channelIdToNameCache := f (channelIdToNameCache w); cacheDir := cacheDir w |}.

Definition with_conversations_list l (r : Remote) : Remote :=
  {| conversations_list := l; conversations_history := conversations_history r;
     conversations_replies := conversations_replies r;
     conversations_info := conversations_info r;
     users_list := users_list r; users_info := users_info r |}.

Definition with_conversations_history l (r : Remote) : Remote :=
  {| conversations_list := conversations_list r; conversations_history := l;
     conversations_replies := conversations_replies r;
     conversations_info := conversations_info r;
     users_list := users_list r; users_info := users_info r |}.

Definition with_conversations_replies l (r : Remote) : Remote :=
  {| conversations_list := conversations_list r;
     conversations_history := conversations_history r;
     conversations_replies := l;
     conversations_info := conversations_info r;
     users_list := users_list r; users_info := users_info r |}.

Definition with_conversations_info l (r : Remote) : Remote :=
  {| conversations_list := conversations_list r;
     conversations_history := conversations_history r;
     conversations_replies := conversations_replies r;
     conversations_info := l;
     users_list := users_list r; users_info := users_info r |}.

Definition with_users_list l (r : Remote) : Remote :=
  {| conversations_list := conversations_list r;
     conversations_history := conversations_history r;
     conversations_replies := conversations_replies r;
     conversations_info := conversations_info r;
     users_list := l; users_info := users_info r |}.

Definition with_users_info l (r : Remote) : Remote :=
  {| conversations_list := conversations_list r;
     conversations_history := conversations_history r;
     conversations_replies := conversations_replies r;
     conversations_info := conversations_info r;
     users_list := users_list r; users_info := l |}.

(** ** Computations of the class: state, exceptions, awaited replies *)

(** An [async] method run to its end returns, throws, or is left awaiting a
    reply the script of the remote does not hold ([Pending]). *)
Inductive Outcome (A : Type) :=
  | Returned (a : A)
  | Thrown (e : JsError)
  | Pending.
Arguments Returned {A}.
Arguments Thrown {A}.
Arguments Pending {A}.

Definition M (A : Type) : Type := World → Outcome A * World.

#[global] Instance M_ret : MRet M := λ A a w, (Returned a, w).

#[global] Instance M_bind : MBind M := λ A B f m w,
  match m w with
  | (Returned a, w') => f a w'
  | (Thrown e, w') => (Thrown e, w')
  | (Pending, w') => (Pending, w')
  end.

Definition throw {A} (e : JsError) : M A := λ w, (Thrown e, w).

(** [try { body } catch (error) { handler }] *)
Definition tryCatch {A} (body : M A) (handler : JsError → M A) : M A := λ w,
  match body w with
  | (Thrown e, w') => handler e w'
  | r => r
  end.

Definition gets {A} (f : World → A) : M A := λ w, (Returned (f w), w).

Definition modify (f : World → World) : M unit := λ w, (Returned (), f w).

Definition log (e : Event) : M unit := modify (set_events (λ l, l ++ [e])).

(** One awaited call: the event is recorded and the next reply of the
    endpoint's script is taken. *)
Definition await {H R : Type} (ev : Event) (script : Remote → list H)
    (rest : list H → Remote → Remote) (answer : H → Reply R) : M R :=
  log ev;;
  pending ← gets (λ w, script (remote w));
  match pending with
  | [] => λ w, (Pending, w)
  | h :: tl =>
      modify (set_remote (rest tl));;
      match answer h with
      | Resolves r => mret r
      | Rejects e => throw e
      end
  end.

(** [do { body } while (...)]: the body says whether the loop goes on. The
    bound is the number of iterations the scripts of the remote allow. *)
Inductive Step (S A : Type) :=
  | Continue (s : S)
  | Break (a : A).
Arguments Continue {S A}.
Arguments Break {S A}.

Fixpoint doWhile {S A : Type} (fuel : nat) (body : S → M (Step S A)) (s : S) : M A :=
  match fuel with
  | O => λ w, (Pending, w)
  | Datatypes.S n =>
      st ← body s;
      match st with
      | Continue s' => doWhile n body s'
      | Break a => mret a
      end
  end.

(** A loop that takes one reply per iteration from a script of [n] replies
    is left pending by the script before [n + 1] iterations are over. *)
Definition pagesLeft {H : Type} (script : Remote → list H) : M nat :=
  gets (λ w, Datatypes.S (length (script (remote w)))).

(** [for (const x of l) { body }] over the mutable locals [s]. *)
Fixpoint forEach {A S : Type} (l : list A) (body : A → S → M S) (s : S) : M S :=
  match l with
  | [] => mret s
  | x :: l' => s' ← body x s; forEach l' body s'
  end.

(** [delay(ms)] *)
Definition delay (ms : Z) : M unit := log (Sleep ms).

(** [readFile(path, 'utf8')]; a missing file rejects. *)
Definition readFile (path : string) : M string := λ w,
  match files w !! path with
  | Some data => (Returned data, w)
  | None => (Thrown {| code := Some "ENOENT"; msg := "no such file or directory" |}, w)
  end.

(** [writeFile(path, data, 'utf8')]: the file is replaced as a whole. *)
Definition writeFile (path data : string) : M unit :=
  log (WriteFile path);;
  modify (set_files (λ fs, <[path := data]> fs)).

(** [mkdir(dir, { recursive: true })]; directories are not part of the
    model. *)
Definition mkdir (dir : string) : M unit := mret ().

(** ** The class *)

Section HistoryExporter.
Context (rt : JsRuntime).

Definition channelCacheFilePath : M string :=
  gets (λ w, path_join rt (cacheDir w) "channels.json").

Definition userCacheFilePath : M string :=
  gets (λ w, path_join rt (cacheDir w) "users.json").

Definition nowISOString : M string :=
  gets (λ w, toISOString rt (clock w)).

Definition loadChannelCacheFromFile : M (option ChannelCacheFile) :=
  tryCatch
    (path ← channelCacheFilePath;
     data ← readFile path;
     match parse_channels rt data with
     | Some cache => mret (Some cache)
     | None => throw (Error "SyntaxError")
     end)
    (λ _, mret None).

Definition saveChannelCacheToFile (chans : gmap string string) : M unit :=
  dir ← gets cacheDir;
  mkdir dir;;
  updatedAt ← nowISOString;
  let cache := {| channels_updatedAt := updatedAt; channels := chans |} in
  path ← channelCacheFilePath;
  writeFile path (stringify_channels rt cache).

Definition loadUserCacheFromFile : M (option UserCacheFile) :=
  tryCatch
    (path ← userCacheFilePath;
     data ← readFile path;
     match parse_users rt data with
     | Some cache => mret (Some cache)
     | None => throw (Error "SyntaxError")
     end)
    (λ _, mret None).

Definition saveUserCacheToFile (us : gmap string string) : M unit :=
  dir ← gets cacheDir;
  mkdir dir;;
  updatedAt ← nowISOString;
  let cache := {| users_updatedAt := updatedAt; users := us |} in
  path ← userCacheFilePath;
  writeFile path (stringify_users rt cache).

(** [client.conversations.list({ cursor, limit: 200, types })] *)
Definition conversationsList (cursor : option string) : M ConversationsListResponse :=
  await (CallConversationsList cursor) conversations_list with_conversations_list (λ r, r).

Definition conversationsHistory (req : HistoryRequest) : M ConversationsHistoryResponse :=
  await (CallConversationsHistory req) conversations_history
    with_conversations_history (λ h, h req).

Definition conversationsReplies (channelId threadTs : string) (cursor : option string)
    : M ConversationsRepliesResponse :=
  await (CallConversationsReplies channelId threadTs cursor) conversations_replies
    with_conversations_replies (λ r, r).

Definition conversationsInfo (channelId : string) : M ConversationsInfoResponse :=
  await (CallConversationsInfo channelId) conversations_info with_conversations_info (λ r, r).

Definition usersList (cursor : option string) : M UsersListResponse :=
  await (CallUsersList cursor) users_list with_users_list (λ r, r).

Definition usersInfo (userId : string) : M UsersInfoResponse :=
  await (CallUsersInfo userId) users_info with_users_info (λ r, r).

(** [Object.entries(cachedData.channels).map(([name, id]) => ({ name, id }))] *)
Definition channelInfos (chans : gmap string string) : list ChannelInfo :=
  (λ '(n, i), {| id := i; name := n |}) <$> map_to_list chans.

Definition sortChannels (l : list ChannelInfo) : list ChannelInfo :=
  Js.sortBy (λ a b, localeCompare_lt rt (name a) (name b)) l.

(** The channels of a page that have both an id and a name. *)
Definition namedChannels (page : option (list Channel)) : list ChannelInfo :=
  omap (λ ch,
    if Js.truthy (channel_id ch) && Js.truthy (channel_name ch)
    then Some {| id := Js.nullish (channel_id ch) ""; name := Js.nullish (channel_name ch) "" |}
    else None) (default [] page).

(** One turn of the loop of [listChannels], over its locals [cursor] and
    [channels]. *)
Definition listChannelsPage
    : option string * list ChannelInfo → M (Step (option string * list ChannelInfo) (list ChannelInfo)) :=
  λ '(cursor, chans),
    response ← conversationsList cursor;
    if negb (ok response) then
      throw (Error ("Failed to list channels: " +:+ Js.nullish (error response) "unknown_error"))
    else
      let chans := chans ++ namedChannels (payload response) in
      let cursor := Js.orUndefined (next_cursor response) in
      mret (if Js.truthy cursor then Continue (cursor, chans) else Break chans).

Definition listChannels (refreshCache : bool) : M (list ChannelInfo) :=
  cachedData ← (if negb refreshCache then loadChannelCacheFromFile else mret None);
  match cachedData with
  | Some cached => mret (sortChannels (channelInfos (channels cached)))
  | None =>
      fuel ← pagesLeft conversations_list;
      chans ← doWhile fuel listChannelsPage (None, []);
      let cacheData := foldl (λ acc ch, <[name ch := id ch]> acc) ∅ chans in
      saveChannelCacheToFile cacheData;;
      mret (sortChannels chans)
  end.

(** [channelIdOrName.replace(/^#/, '')] *)
Definition stripHash (s : string) : string :=
  match s with
  | String c r => if Ascii.eqb c "#"%char then r else s
  | EmptyString => s
  end.

(** The two in-memory maps filled from the entries of a snapshot. *)
Definition cacheChannel (n i : string) (w : World) : World :=
  set_channelIdToNameCache (λ m, <[i := n]> m)
    (set_channelNameToIdCache (λ m, <[n := i]> m) w).

Definition cacheChannels (entries : list (string * string)) : M unit :=
  modify (λ w, foldl (λ w '(n, i), cacheChannel n i w) w entries).

(** One turn of the loop of [resolveChannelId], over its locals [cursor]
    and [allChannels]. *)
Definition resolveChannelIdPage
    : option string * gmap string string → M (Step (option string * gmap string string) (gmap string string)) :=
  λ '(cursor, allChannels),
    response ← conversationsList cursor;
    if negb (ok response) then
      throw (Error ("Failed to list channels: " +:+ Js.nullish (error response) "unknown_error"))
    else
      let found := namedChannels (payload response) in
      let allChannels := foldl (λ acc ch, <[name ch := id ch]> acc) allChannels found in
      cacheChannels ((λ ch, (name ch, id ch)) <$> found);;
      let cursor := Js.orUndefined (next_cursor response) in
      mret (if Js.truthy cursor then Continue (cursor, allChannels) else Break allChannels).

(** The fallback of [resolveChannelId]: the paged fetch of the whole
    channel list, then the snapshot. *)
Definition resolveChannelIdFromApi (channelIdOrName normalizedName : string) : M string :=
  fuel ← pagesLeft conversations_list;
  allChannels ← doWhile fuel resolveChannelIdPage (None, ∅);
  saveChannelCacheToFile allChannels;;
  let channelId := allChannels !! normalizedName in
  if Js.truthy channelId then mret (Js.nullish channelId "")
  else throw (Error ("Channel not found: " +:+ channelIdOrName)).

Definition resolveChannelId (channelIdOrName : string) : M string :=
  if Js.startsWith "C" channelIdOrName || Js.startsWith "G" channelIdOrName
  then mret channelIdOrName
  else
    let normalizedName := stripHash channelIdOrName in
    cached ← gets (λ w, channelNameToIdCache w !! normalizedName);
    if Js.truthy cached then mret (Js.nullish cached "")
    else
      cachedData ← loadChannelCacheFromFile;
      match cachedData with
      | Some c =>
          let channelId := channels c !! normalizedName in
          if Js.truthy channelId
          then cacheChannels (map_to_list (channels c));;
               mret (Js.nullish channelId "")
          else resolveChannelIdFromApi channelIdOrName normalizedName
      | None => resolveChannelIdFromApi channelIdOrName normalizedName
      end.

(** The comparator of [fetchHistory]'s sort, as the test [< 0]. *)
Definition tsBefore (a b : SlackMessage) : bool :=
  parseFloat_lt rt (Js.nullish (ts a) "0") (Js.nullish (ts b) "0").

(** One turn of the loop of [fetchHistory], over its locals [cursor] and
    [messages]. *)
Definition fetchHistoryPage (channelId : string) (oldest latest : option string)
    : option string * list SlackMessage → M (Step (option string * list SlackMessage) (list SlackMessage)) :=
  λ '(cursor, messages),
    response ← conversationsHistory
      {| channel := channelId; cursor := cursor; limit := 200;
         oldest := oldest; latest := latest |};
    if negb (ok response) then
      throw (Error ("Failed to fetch history: " +:+ Js.nullish (error response) "unknown_error"))
    else
      let messages := messages ++ default [] (payload response) in
      let cursor := Js.orUndefined (next_cursor response) in
      mret (if Js.truthy cursor then Continue (cursor, messages) else Break messages).

(** The paging loop of [fetchHistory]: what [messages] holds when the
    loop is left. *)
Definition fetchHistoryPages (channelId : string) (oldest latest : option string)
    : M (list SlackMessage) :=
  fuel ← pagesLeft conversations_history;
  doWhile fuel (fetchHistoryPage channelId oldest latest) (None, []).

Definition fetchHistory (channelId : string) (startDate endDate : option Z)
    : M (list SlackMessage) :=
  let oldest := secondsToString <$> startDate in
  let latest := secondsToString <$> endDate in
  messages ← fetchHistoryPages channelId oldest latest;
  mret (Js.sortBy tsBefore messages).

(** One turn of the loop of [fetchThreadReplies]. *)
Definition fetchThreadRepliesPage (channelId threadTs : string)
    : option string * list SlackMessage → M (Step (option string * list SlackMessage) (list SlackMessage)) :=
  λ '(cursor, replies),
    response ← conversationsReplies channelId threadTs cursor;
    if negb (ok response) then
      throw (Error ("Failed to fetch thread replies: " +:+ Js.nullish (error response) "unknown_error"))
    else
      let replies := replies ++ default [] (payload response) in
      let cursor := Js.orUndefined (next_cursor response) in
      mret (if Js.truthy cursor then Continue (cursor, replies) else Break replies).

Definition fetchThreadReplies (channelId threadTs : string) : M (list SlackMessage) :=
  fuel ← pagesLeft conversations_replies;
  replies ← doWhile fuel (fetchThreadRepliesPage channelId threadTs) (None, []);
  mret (filter (λ m, ts m ≠ Some threadTs) replies).

(** [m.thread_ts && m.reply_count && m.reply_count > 0] *)
Definition anchorsThread (m : SlackMessage) : bool :=
  Js.truthy (thread_ts m) &&
  match reply_count m with
  | Some n => negb (n =? 0) && (0 <? n)
  | None => false
  end.

(** The body of the loop of [expandThreads], over its locals [threadIndex]
    and [result]; [toFetch] is [threadsToFetch.length]. *)
Definition expandThread (channelId : string) (toFetch : nat) (message : SlackMessage)
    : nat * list MessageWithReplies → M (nat * list MessageWithReplies) :=
  λ '(threadIndex, result),
    if anchorsThread message then
      let threadIndex := Datatypes.S threadIndex in
      threadReplies ← fetchThreadReplies channelId (Js.nullish (thread_ts message) "");
      (if (threadIndex <? toFetch)%nat then delay 100 else mret ());;
      mret (threadIndex, result ++ [{| message := message; replies := threadReplies |}])
    else
      mret (threadIndex, result ++ [{| message := message; replies := [] |}]).

Definition expandThreads (channelId : string) (messages : list SlackMessage)
    : M (list MessageWithReplies) :=
  let threadsToFetch := filter (λ m, anchorsThread m = true) messages in
  '(_, result) ← forEach messages
    (expandThread channelId (length threadsToFetch)) (O, []);
  mret result.

Definition getChannelName (channelId : string) : M string :=
  cached ← gets (λ w, channelIdToNameCache w !! channelId);
  if Js.truthy cached then mret (Js.nullish cached "")
  else
    cachedData ← loadChannelCacheFromFile;
    match cachedData with
    | Some c => cacheChannels (map_to_list (channels c))
    | None => mret ()
    end;;
    cachedName ← gets (λ w, channelIdToNameCache w !! channelId);
    if bool_decide (is_Some cachedData) && Js.truthy cachedName
    then mret (Js.nullish cachedName "")
    else
      response ← conversationsInfo channelId;
      match payload response with
      | Some ch =>
          if negb (ok response) then
            throw (Error ("Unable to resolve channel " +:+ channelId +:+ ": "
                            +:+ Js.nullish (error response) "unknown_error"))
          else
            let name :=
              Js.orElse (name_normalized ch)
                (Js.orElse (channel_name ch)
                   (Js.orElse (channel_id ch) channelId)) in
            modify (set_channelIdToNameCache (λ m, <[channelId := name]> m));;
            mret name
      | None =>
          throw (Error ("Unable to resolve channel " +:+ channelId +:+ ": "
                          +:+ Js.nullish (error response) "unknown_error"))
      end.

(** [this.userCache.set(id, name)] *)
Definition cacheUser (i n : string) : M unit :=
  modify (set_userCache (λ m, <[i := n]> m)).

(** One turn of the loop of [prefetchUsers]; it breaks with [false] where
    the method returns from inside the loop. The local [userCount] only
    feeds the console. *)
Definition prefetchUsersPage : option string → M (Step (option string) bool) :=
  λ cursor,
    response ← usersList cursor;
    if negb (ok response) then mret (Break false)
    else
      forEach (default [] (payload response)) (λ member _,
        if Js.truthy (user_id member)
        then cacheUser (Js.nullish (user_id member) "") (extractDisplayName member)
        else mret ()) ();;
      let cursor := Js.orUndefined (next_cursor response) in
      mret (if Js.truthy cursor then Continue cursor else Break true).

Definition prefetchUsers (forceRefresh : bool) : M unit :=
  cachedData ← (if negb forceRefresh then loadUserCacheFromFile else mret None);
  match cachedData with
  | Some cached =>
      forEach (map_to_list (users cached)) (λ '(i, n) _, cacheUser i n) ()
  | None =>
      fuel ← pagesLeft users_list;
      fetched ← doWhile fuel prefetchUsersPage None;
      if fetched : bool then
        usersData ← gets userCache;
        saveUserCacheToFile usersData
      else mret ()
  end.

Definition prefetchUsersToCache (refreshCache : bool) : M nat :=
  prefetchUsers refreshCache;;
  gets (λ w, size (userCache w)).

(** The name [getUserName] takes from the user of a [users.info] reply. *)
Definition displayNameOf (u : SlackUser) (userId : string) : string :=
  Js.orElse (Js.trim <$> (user_profile u ≫= display_name))
    (Js.orElse (Js.trim <$> (user_profile u ≫= profile_real_name))
       (Js.orElse (real_name u) userId)).

Definition getUserName (userId : string) : M string :=
  cached ← gets (λ w, userCache w !! userId);
  if Js.truthy cached then mret (Js.nullish cached "")
  else
    tryCatch
      (response ← usersInfo userId;
       match payload response with
       | Some u =>
           if negb (ok response) then cacheUser userId userId;; mret userId
           else
             let displayName := displayNameOf u userId in
             cacheUser userId displayName;;
             mret displayName
       | None => cacheUser userId userId;; mret userId
       end)
      (λ error,
         (* a rate limit is only told to the console *)
         cacheUser userId userId;;
         mret userId).

Definition resolveUserName (m : SlackMessage) : M string :=
  if Js.truthy (user m) then getUserName (Js.nullish (user m) "")
  else if Js.truthy (bot_id m)
  then mret (Js.orElse (username m) ("bot:" +:+ Js.nullish (bot_id m) ""))
  else mret "unknown".

Definition parseTimestamp (t : option string) : M Date :=
  if negb (Js.truthy t) then gets (λ w, Some (clock w))
  else mret (timeValueOfSeconds rt (Js.nullish t "")).

(** [date.toISOString()]; the invalid date throws a [RangeError]. *)
Definition dateToISOString (d : Date) : M string :=
  match d with
  | Some t => mret (toISOString rt t)
  | None => throw (Error "Invalid time value")
  end.

Definition formatDate (d : Date) : string :=
  let year := Js.numToString (getFullYear rt <$> d) in
  let month := Js.padStart2 (Js.numToString ((λ t, getMonth rt t + 1) <$> d)) in
  let day := Js.padStart2 (Js.numToString (getDate rt <$> d)) in
  year +:+ "-" +:+ month +:+ "-" +:+ day.

Definition formatTime (d : Date) : string :=
  let hours := Js.padStart2 (Js.numToString (getHours rt <$> d)) in
  let minutes := Js.padStart2 (Js.numToString (getMinutes rt <$> d)) in
  hours +:+ ":" +:+ minutes.

Definition csvHeader : string := "timestamp,channel,user,text,thread_ts,reply_count".

(** The array of fields of the row of a root message. *)
Definition csvMessageFields (channelName : string) (m : SlackMessage) : M (list string) :=
  timestamp ← parseTimestamp (ts m);
  userName ← resolveUserName m;
  let txt := sanitizeText (Js.nullish (text m) "") in
  iso ← dateToISOString timestamp;
  mret [ escapeCsv iso;
         escapeCsv channelName;
         escapeCsv userName;
         escapeCsv txt;
         escapeCsv (Js.nullish (thread_ts m) "");
         escapeCsv (Js.numToString (Some (default 0 (reply_count m)))) ].

(** The array of fields of the row of a reply. *)
Definition csvReplyFields (channelName : string) (reply : SlackMessage) : M (list string) :=
  replyTimestamp ← parseTimestamp (ts reply);
  replyUserName ← resolveUserName reply;
  let replyText := sanitizeText (Js.nullish (text reply) "") in
  iso ← dateToISOString replyTimestamp;
  mret [ escapeCsv iso;
         escapeCsv channelName;
         escapeCsv replyUserName;
         escapeCsv replyText;
         escapeCsv (Js.nullish (thread_ts reply) "");
         escapeCsv "0" ].

(** The body of the inner loop of [formatAsCsv], over [rows]. *)
Definition csvReplyRow (channelName : string) (reply : SlackMessage) (rows : list string)
    : M (list string) :=
  replyFields ← csvReplyFields channelName reply;
  mret (rows ++ [Js.join "," replyFields]).

(** The body of the outer loop of [formatAsCsv], over [rows]. *)
Definition csvMessageRows (channelName : string) (mr : MessageWithReplies) (rows : list string)
    : M (list string) :=
  fields ← csvMessageFields channelName (message mr);
  let rows := rows ++ [Js.join "," fields] in
  forEach (replies mr) (csvReplyRow channelName) rows.

Definition formatAsCsv (channelName : string) (messages : list MessageWithReplies)
    : M string :=
  rows ← forEach messages (csvMessageRows channelName) [csvHeader];
  mret (Js.join (EOL rt) rows).

Definition formatAsMarkdown (channelName : string) (messages : list MessageWithReplies)
    : M string :=
  '(_, lines) ← forEach messages (λ mr '(currentDate, lines),
    timestamp ← parseTimestamp (ts (message mr));
    let dateStr := formatDate timestamp in
    let timeStr := formatTime timestamp in
    let '(currentDate, lines) :=
      if bool_decide (dateStr ≠ currentDate)
      then (dateStr, lines ++ ["## " +:+ dateStr; ""])
      else (currentDate, lines) in
    userName ← resolveUserName (message mr);
    let txt := formatMessageText (Js.nullish (text (message mr)) "") in
    let lines := lines ++ ["### " +:+ timeStr +:+ " @" +:+ userName; txt; ""] in
    lines ← forEach (replies mr) (λ reply lines,
      replyTimestamp ← parseTimestamp (ts reply);
      let replyTimeStr := formatTime replyTimestamp in
      replyUserName ← resolveUserName reply;
      let replyText := formatMessageText (Js.nullish (text reply) "") in
      mret (lines ++ ["> **" +:+ replyTimeStr +:+ " @" +:+ replyUserName +:+ "**"]
                  ++ ((λ line, "> " +:+ line) <$> Js.splitLines replyText)
                  ++ [""])) lines;
    mret (currentDate, lines))
    ("", ["# #" +:+ channelName; ""]);
  mret (Js.join (String Js.LF "") lines).

Definition quoted (s : string) : string :=
  String Js.QUOTE s +:+ String Js.QUOTE "".

Definition formatAsYaml (channelName : string) (messages : list MessageWithReplies)
    : M string :=
  exportedAt ← nowISOString;
  let lines := ["channel: " +:+ channelName; "exported_at: " +:+ exportedAt; "messages:"] in
  lines ← forEach messages (λ mr lines,
    timestamp ← parseTimestamp (ts (message mr));
    let dateStr := formatDate timestamp in
    let timeStr := formatTime timestamp in
    userName ← resolveUserName (message mr);
    let txt := Js.nullish (text (message mr)) "" in
    let lines := lines ++
      [ "  - ts: " +:+ quoted (Js.nullish (ts (message mr)) "");
        "    date: " +:+ quoted dateStr;
        "    time: " +:+ quoted timeStr;
        "    user: " +:+ userName;
        "    text: |" ]
      ++ ((λ textLine, "      " +:+ textLine) <$> Js.splitLines txt) in
    if (0 <? length (replies mr))%nat then
      forEach (replies mr) (λ reply lines,
        replyTimestamp ← parseTimestamp (ts reply);
        let replyTimeStr := formatTime replyTimestamp in
        replyUserName ← resolveUserName reply;
        let replyText := Js.nullish (text reply) "" in
        mret (lines ++
          [ "      - ts: " +:+ quoted (Js.nullish (ts reply) "");
            "        time: " +:+ quoted replyTimeStr;
            "        user: " +:+ replyUserName;
            "        text: |" ]
          ++ ((λ replyTextLine, "          " +:+ replyTextLine) <$> Js.splitLines replyText)))
        (lines ++ ["    replies:"])
    else mret (lines ++ ["    replies: []"]))
    lines;
  mret (Js.join (String Js.LF "") lines).

End HistoryExporter.

(** ** A runtime to run the class with

    The examples below run the class against [modelRuntime]: JSON restricted
    to the shape of the two snapshots, decimal numerals read exactly, UTC as
    the local time zone, code-unit order for [localeCompare] and a line feed
    as [os.EOL]. *)

Module ModelRuntime.

Definition isDigit (c : ascii) : bool :=
  let n := nat_of_ascii c in ((48 <=? n) && (n <=? 57))%nat.

Definition digitValue (c : ascii) : Z := Z.of_nat (nat_of_ascii c) - 48.

(** The digits at the head of [s]: their value after [acc], how many
    there are, and what follows them. *)
Fixpoint readDigits (s : string) (acc : Z) (count : nat) : Z * nat * string :=
  match s with
  | String c r =>
      if isDigit c then readDigits r (acc * 10 + digitValue c) (S count)
      else (acc, count, s)
  | EmptyString => (acc, count, s)
  end.

(** A decimal numeral [-?digits(.digits)?] at the head of [s], as a
    mantissa and the number of its fraction digits; [None] stands for
    NaN. *)
Definition readDecimal (s : string) : option (Z * nat) :=
  let '(sign, body) :=
    match s with
    | String c r => if Ascii.eqb c "-"%char then (-1, r) else (1, s)
    | EmptyString => (1, s)
    end in
  let '(whole, n, rest) := readDigits body 0 O in
  match rest with
  | String c r =>
      if Ascii.eqb c "."%char then
        let '(all, k, _) := readDigits r whole O in
        if ((n + k)%nat =? 0)%nat then None else Some (sign * all, k)
      else if (n =? 0)%nat then None else Some (sign * whole, O)
  | EmptyString => if (n =? 0)%nat then None else Some (sign * whole, O)
  end.

Definition numeric_lt (a b : string) : bool :=
  match readDecimal a, readDecimal b with
  | Some (ma, ka), Some (mb, kb) => ma * 10 ^ Z.of_nat kb <? mb * 10 ^ Z.of_nat ka
  | _, _ => false
  end.

Definition timeValue (s : string) : Date :=
  match readDecimal s with
  | Some (m, k) => Some (Z.quot (m * 1000) (10 ^ Z.of_nat k))
  | None => None
  end.

(** The civil date of a day number (days since 1970-01-01). *)
Definition civil (days : Z) : Z * Z * Z :=
  let z := days + 719468 in
  let era := z / 146097 in
  let doe := z - era * 146097 in
  let yoe := (doe - doe / 1460 + doe / 36524 - doe / 146096) / 365 in
  let doy := doe - (365 * yoe + yoe / 4 - yoe / 100) in
  let mp := (5 * doy + 2) / 153 in
  let d := doy - (153 * mp + 2) / 5 + 1 in
  let m := if mp <? 10 then mp + 3 else mp - 9 in
  let y := yoe + era * 400 + (if m <=? 2 then 1 else 0) in
  (y, m, d).

Definition msPerDay : Z := 86400000.

Definition year (t : Z) : Z := (civil (t / msPerDay)).1.1.
Definition month0 (t : Z) : Z := (civil (t / msPerDay)).1.2 - 1.
Definition day (t : Z) : Z := (civil (t / msPerDay)).2.
Definition hours (t : Z) : Z := (t mod msPerDay) / 3600000.
Definition minutes (t : Z) : Z := (t mod 3600000) / 60000.
Definition seconds (t : Z) : Z := (t mod 60000) / 1000.
Definition millis (t : Z) : Z := t mod 1000.

Definition pad (width : nat) (z : Z) : string :=
  let s := pretty z in
  String.concat "" (replicate (width - String.length s) "0") +:+ s.

(** Years 0 to 9999. *)
Definition isoString (t : Z) : string :=
  pad 4 (year t) +:+ "-" +:+ pad 2 (month0 t + 1) +:+ "-" +:+ pad 2 (day t)
    +:+ "T" +:+ pad 2 (hours t) +:+ ":" +:+ pad 2 (minutes t) +:+ ":"
    +:+ pad 2 (seconds t) +:+ "." +:+ pad 3 (millis t) +:+ "Z".

(** *** JSON, for the snapshots *)

Definition BACKSLASH : ascii := ascii_of_nat 92.

Fixpoint escapeString (s : string) : string :=
  match s with
  | EmptyString => EmptyString
  | String c r =>
      if Ascii.eqb c Js.QUOTE || Ascii.eqb c BACKSLASH
      then String BACKSLASH (String c (escapeString r))
      else if Ascii.eqb c Js.LF then String BACKSLASH (String "n" (escapeString r))
      else String c (escapeString r)
  end.

Definition literal (s : string) : string :=
  String Js.QUOTE (escapeString s) +:+ String Js.QUOTE "".

Definition newline : string := String Js.LF "".

Definition entryLine (kv : string * string) : string :=
  "    " +:+ literal kv.1 +:+ ": " +:+ literal kv.2.

(** [JSON.stringify({ updatedAt, [field]: entries }, null, 2)] *)
Definition stringifySnapshot (field updatedAt : string) (entries : gmap string string) : string :=
  "{" +:+ newline +:+
  "  " +:+ literal "updatedAt" +:+ ": " +:+ literal updatedAt +:+ "," +:+ newline +:+
  "  " +:+ literal field +:+ ": " +:+
  match map_to_list entries with
  | [] => "{}"
  | l => "{" +:+ newline +:+ Js.join ("," +:+ newline) (entryLine <$> l)
           +:+ newline +:+ "  }"
  end +:+ newline +:+ "}".

Inductive Token :=
  | LBrace | RBrace | Colon | Comma
  | Str (s : string)
  | Bad.

Inductive Mode :=
  | Outside
  | Inside (rev_chars : list ascii)
  | Escaped (rev_chars : list ascii).

Definition stringOfRev (l : list ascii) : string :=
  fold_left (λ acc c, String c acc) l EmptyString.

(** One pass over the characters; the tokens come out in reverse. *)
Fixpoint tokenize (s : string) (mode : Mode) (rev_tokens : list Token) : list Token :=
  match s with
  | EmptyString =>
      match mode with
      | Outside => rev rev_tokens
      | _ => [Bad]
      end
  | String c r =>
      match mode with
      | Outside =>
          if Ascii.eqb c Js.QUOTE then tokenize r (Inside []) rev_tokens
          else if Js.isWhiteSpace c then tokenize r Outside rev_tokens
          else if Ascii.eqb c "{"%char then tokenize r Outside (LBrace :: rev_tokens)
          else if Ascii.eqb c "}"%char then tokenize r Outside (RBrace :: rev_tokens)
          else if Ascii.eqb c ":"%char then tokenize r Outside (Colon :: rev_tokens)
          else if Ascii.eqb c ","%char then tokenize r Outside (Comma :: rev_tokens)
          else [Bad]
      | Inside acc =>
          if Ascii.eqb c Js.QUOTE then tokenize r Outside (Str (stringOfRev acc) :: rev_tokens)
          else if Ascii.eqb c BACKSLASH then tokenize r (Escaped acc) rev_tokens
          else tokenize r (Inside (c :: acc)) rev_tokens
      | Escaped acc =>
          if Ascii.eqb c "n"%char then tokenize r (Inside (Js.LF :: acc)) rev_tokens
          else tokenize r (Inside (c :: acc)) rev_tokens
      end
  end.

Fixpoint parseEntries (toks : list Token) (acc : gmap string string)
    : option (gmap string string) :=
  match toks with
  | Str k :: Colon :: Str v :: rest =>
      match rest with
      | Comma :: rest' => parseEntries rest' (<[k := v]> acc)
      | [RBrace; RBrace] => Some (<[k := v]> acc)
      | _ => None
      end
  | _ => None
  end.

(** [JSON.parse(data)], accepted when it has the shape of a snapshot. *)
Definition parseSnapshot (field data : string) : option (string * gmap string string) :=
  match tokenize data Outside [] with
  | LBrace :: Str u :: Colon :: Str updatedAt :: Comma :: Str f :: Colon :: LBrace :: rest =>
      if bool_decide (u = "updatedAt") && bool_decide (f = field) then
        match rest with
        | [RBrace; RBrace] => Some (updatedAt, ∅)
        | _ => (λ m, (updatedAt, m)) <$> parseEntries rest ∅
        end
      else None
  | _ => None
  end.

Fixpoint string_lt (a b : string) : bool :=
  match a, b with
  | _, EmptyString => false
  | EmptyString, String _ _ => true
  | String x a', String y b' =>
      let nx := nat_of_ascii x in
      let ny := nat_of_ascii y in
      if (nx <? ny)%nat then true
      else if (ny <? nx)%nat then false
      else string_lt a' b'
  end.

End ModelRuntime.

Definition modelRuntime : JsRuntime := {|
  path_join := λ dir file, dir +:+ "/" +:+ file;
  stringify_channels := λ c,
    ModelRuntime.stringifySnapshot "channels" (channels_updatedAt c) (channels c);
  parse_channels := λ data,
    (λ '(u, m), {| channels_updatedAt := u; channels := m |})
      <$> ModelRuntime.parseSnapshot "channels" data;
  stringify_users := λ c,
    ModelRuntime.stringifySnapshot "users" (users_updatedAt c) (users c);
  parse_users := λ data,
    (λ '(u, m), {| users_updatedAt := u; users := m |})
      <$> ModelRuntime.parseSnapshot "users" data;
  toISOString := ModelRuntime.isoString;
  timeValueOfSeconds := ModelRuntime.timeValue;
  getFullYear := ModelRuntime.year;
  getMonth := ModelRuntime.month0;
  getDate := ModelRuntime.day;
  getHours := ModelRuntime.hours;
  getMinutes := ModelRuntime.minutes;
  parseFloat_lt := ModelRuntime.numeric_lt;
  localeCompare_lt := ModelRuntime.string_lt;
  EOL := String Js.LF "";
|}.

(** A world with nothing in it: no scripted reply, no file, empty caches. *)
Definition noRemote : Remote := {|
  conversations_list := []; conversations_history := [];
  conversations_replies := []; conversations_info := [];
  users_list := []; users_info := [];
|}.

Definition emptyWorld : World := {|
  remote := noRemote; files := ∅; clock := 1700000000000; events := [];
  userCache := ∅; channelNameToIdCache := ∅; channelIdToNameCache := ∅;
  cacheDir := ".cache";
|}.

(** ** The specification's wording, for comparison *)

Module Spec.

(** Name selection as the specification words it: the trimmed
    display-name, else the trimmed real-name, else the raw identifier. *)
Definition resolveUser (displayName realName : option string) (userId : string) : string :=
  Js.orElse (Js.trim <$> displayName) (Js.orElse (Js.trim <$> realName) userId).

(** A field of the delimited format as the specification words it: line
    breaks collapsed to spaces first, then quotes doubled, the whole
    wrapped in quotes when it holds a comma, a quote or a line break. *)
Definition renderField (value : string) : string :=
  escapeCsv (replaceLineBreaks value).

End Spec.

(** The date [parseTimestamp] gives for the [ts] of a message. *)
Definition dateOfTs (rt : JsRuntime) (w : World) (t : option string) : Date :=
  if Js.truthy t then timeValueOfSeconds rt (Js.nullish t "") else Some (clock w).

(** A reply of [users.info] after which [getUserName] has no name: the call
    rejects (a rate limit included), the envelope is not ok, or the user is
    missing. *)
Definition lookupFails (o : Reply UsersInfoResponse) : Prop :=
  match o with
  | Rejects _ => True
  | Resolves r => ok r = false ∨ payload r = None
  end.

Definition dq : string := String Js.QUOTE "".
Definition nl : string := String Js.LF "".

Definition plainMessage : SlackMessage := {|
  ts := None; user := None; bot_id := None; username := None;
  text := None; thread_ts := None; reply_count := None;
|}.

(** ** Worlds and records for the examples *)

Module Examples.

Definition withUsersInfo (script : list (Reply UsersInfoResponse)) (w : World) : World :=
  set_remote (with_users_info script) w.

Definition okResponse {P : Type} (p : P) (next : option string) : Response P :=
  {| ok := true; error := None; payload := Some p; next_cursor := next |}.

Definition failedResponse {P : Type} (reason : string) : Response P :=
  {| ok := false; error := Some reason; payload := None; next_cursor := None |}.

(** A user whose profile names are blank or missing and who has a
    [real_name] of their own. *)
Definition alice : SlackUser := {|
  user_id := Some "U1";
  user_profile := Some {| display_name := Some "  "; profile_real_name := None |};
  real_name := Some "Alice";
|}.

Definition aliceWorld : World := withUsersInfo [Resolves (okResponse alice None)] emptyWorld.

Definition rateLimited : JsError :=
  {| code := Some RateLimitedError; msg := "A rate-limit has been reached" |}.

Definition rateLimitedWorld : World := withUsersInfo [Rejects rateLimited] emptyWorld.

(** A bot message whose username holds a line feed and whose text starts
    with a space. *)
Definition botMessage : SlackMessage := {|
  ts := Some "1700000000.000100"; user := None; bot_id := Some "B1";
  username := Some ("x" +:+ nl +:+ "y");
  text := Some " a"; thread_ts := None; reply_count := None;
|}.


End Examples.

Module ThreadExample.

Definition root : SlackMessage := {|
  ts := Some "1700000000.000100"; user := Some "U1"; bot_id := None; username := None;
  text := Some "root"; thread_ts := Some "1700000000.000100"; reply_count := Some 2;
|}.

Definition reply (t body : string) (anchor : option string) : SlackMessage := {|
  ts := Some t; user := Some "U2"; bot_id := None; username := None;
  text := Some body; thread_ts := anchor; reply_count := None;
|}.

Definition first : SlackMessage := reply "1700000001.000200" "first" (Some "1700000000.000100").
Definition second : SlackMessage := reply "1700000002.000300" "second" (Some "1700000000.000100").

(** The remote delivers the anchor again, as the first reply, over two
    pages. *)
Definition world : World :=
  set_remote (with_conversations_replies
    [ Resolves (Examples.okResponse [root; first] (Some "next"));
      Resolves (Examples.okResponse [second] (Some "")) ]) emptyWorld.

End ThreadExample.

(** What the aggregate built for a message has to satisfy. *)
Definition expanded (m : SlackMessage) (mr : MessageWithReplies) : Prop :=
  message mr = m ∧
  (anchorsThread m = false → replies mr = []) ∧
  Forall (λ r, ts r ≠ thread_ts m) (replies mr).

(** ** Scripts of pages *)

(** A history handler that gives the same page whatever the request. *)
Definition canned (p : ConversationsHistoryResponse) : HistoryHandler :=
  λ _, Resolves p.

(** The items of a page: [response.messages], nothing when absent. *)
Definition pageItems {P : Type} (p : Response (list P)) : list P :=
  default [] (payload p).

(** The requests of [fetchHistory] for a list of cursors. *)
Definition historyRequests (channelId : string) (oldest latest : option string)
    (cursors : list (option string)) : list Event :=
  (λ c, CallConversationsHistory
          {| channel := channelId; cursor := c; limit := 200;
             oldest := oldest; latest := latest |}) <$> cursors.

(** The world after history calls: the events are recorded and the script
    is down to [rest]. *)
Definition afterHistory (evs : list Event) (rest : list HistoryHandler) (w : World) : World :=
  set_remote (with_conversations_history rest) (set_events (λ l, l ++ evs) w).

Module WindowExample.

Definition at_ (t : string) : SlackMessage := {|
  ts := Some t; user := Some "U1"; bot_id := None; username := None;
  text := Some "hi"; thread_ts := None; reply_count := None;
|}.

(** Inside the window, by the decimal reading of the timestamps; an absent
    bound leaves that side open. *)
Definition within (oldest latest : option string) (m : SlackMessage) : bool :=
  let t := Js.nullish (ts m) "0" in
  match oldest with Some o => negb (ModelRuntime.numeric_lt t o) | None => true end &&
  match latest with Some l => negb (ModelRuntime.numeric_lt l t) | None => true end.

(** A remote that holds the messages of a channel and honours the window. *)
Definition serve (store : list SlackMessage) : HistoryHandler :=
  λ req, Resolves (Examples.okResponse
                     (filter (λ m, within (oldest req) (latest req) m = true) store) None).

(** The channel, newest message first as the remote delivers it. *)
Definition store : list SlackMessage := [at_ "300.0"; at_ "200.0"; at_ "100.0"].

Definition world : World :=
  set_remote (with_conversations_history [serve store]) emptyWorld.

(** A remote that delivers two pages, newest first. *)
Definition pagedWorld : World :=
  set_remote (with_conversations_history
    [ canned (Examples.okResponse [at_ "300.0"; at_ "200.0"] (Some "p2"));
      canned (Examples.okResponse [at_ "100.0"] None) ]) emptyWorld.

End WindowExample.

(** ** What the snapshot files hold *)

(** The channel snapshot as [loadChannelCacheFromFile] reads it. *)
Definition cachedChannels (rt : JsRuntime) (w : World) : option ChannelCacheFile :=
  files w !! path_join rt (cacheDir w) "channels.json" ≫= parse_channels rt.

(** The user snapshot as [loadUserCacheFromFile] reads it. *)
Definition cachedUsers (rt : JsRuntime) (w : World) : option UserCacheFile :=
  files w !! path_join rt (cacheDir w) "users.json" ≫= parse_users rt.

(** A script of the channel list that starts with a complete fetch: ok
    pages, each but the last with a cursor, then [rest]. *)
Definition completeFetch {P : Type} (script : list (Reply (Response P)))
    (pages : list (Response P)) (last : Response P) (rest : list (Reply (Response P))) : Prop :=
  script = (Resolves <$> pages ++ [last]) ++ rest ∧
  Forall (λ p, ok p = true ∧ Js.truthy (next_cursor p) = true) pages ∧
  ok last = true ∧ Js.truthy (next_cursor last) = false.

(** A script in which the fetch meets a page that is not ok. *)
Definition brokenFetch {P : Type} (script : list (Reply (Response P)))
    (pages : list (Response P)) (bad : Response P) (rest : list (Reply (Response P))) : Prop :=
  script = (Resolves <$> pages) ++ Resolves bad :: rest ∧
  Forall (λ p, ok p = true ∧ Js.truthy (next_cursor p) = true) pages ∧
  ok bad = false.

Module ChannelExample.

Definition general : Channel :=
  {| channel_id := Some "C123"; channel_name := Some "general"; name_normalized := None |}.

Definition random : Channel :=
  {| channel_id := Some "C456"; channel_name := Some "random"; name_normalized := None |}.

(** An earlier snapshot on disk that does not know the channel asked for. *)
Definition staleSnapshot : string :=
  stringify_channels modelRuntime
    {| channels_updatedAt := "2023-01-01T00:00:00.000Z"; channels := {[ "old" := "C000" ]} |}.

(** The second page of the list fails. *)
Definition brokenWorld : World :=
  set_files (λ _, {[ ".cache/channels.json" := staleSnapshot ]})
    (set_remote (with_conversations_list
       [ Resolves (Examples.okResponse [general] (Some "p2"));
         Resolves (Examples.failedResponse "ratelimited") ]) emptyWorld).

(** Both pages are delivered. *)
Definition completeWorld : World :=
  set_files (λ _, {[ ".cache/channels.json" := staleSnapshot ]})
    (set_remote (with_conversations_list
       [ Resolves (Examples.okResponse [general] (Some "p2"));
         Resolves (Examples.okResponse [random] None) ]) emptyWorld).

End ChannelExample.

(** What one turn of a loop over the channel list does: it leaves the files
    alone and takes the next reply of the script; an ok page makes it go on
    or stop by the cursor, a page that is not ok makes it throw. *)
Definition listTurn {S A : Type} (step : S → M (Step S A)) : Prop :=
  ∀ (st : S) (w : World),
    let r := step st w in
    files r.2 = files w ∧
    match conversations_list (remote w) with
    | [] => r.1 = Pending
    | Rejects e :: tl => r.1 = Thrown e
    | Resolves p :: tl =>
        conversations_list (remote r.2) = tl ∧
        if ok p then
          ∃ st', r.1 = Returned st' ∧
                 match st' with
                 | Continue _ => Js.truthy (next_cursor p) = true
                 | Break _ => Js.truthy (next_cursor p) = false
                 end
        else r.1 = Thrown (Error ("Failed to list channels: "
                                    +:+ Js.nullish (error p) "unknown_error"))
    end.

(** ** Rows of the delimited format *)

(** The fields of the row of a reply: the thread anchor column is the
    reply's own [thread_ts], the reply count column the digit 0. *)
Definition replyRow (channelName : string) (reply : SlackMessage) (fields : list string) : Prop :=
  ∃ iso userName,
    fields = escapeCsv <$>
      [ iso; channelName; userName; sanitizeText (Js.nullish (text reply) "");
        Js.nullish (thread_ts reply) ""; "0" ].

(** The fields of the row of a root message and of the rows of its
    replies. *)
Definition messageRows (channelName : string) (mr : MessageWithReplies)
    (rows : list string * list (list string)) : Prop :=
  (∃ iso userName,
     rows.1 = escapeCsv <$>
       [ iso; channelName; userName; sanitizeText (Js.nullish (text (message mr)) "");
         Js.nullish (thread_ts (message mr)) "";
         Js.numToString (Some (default 0 (reply_count (message mr)))) ]) ∧
  Forall2 (replyRow channelName) (replies mr) rows.2.

(** The lines of the rows of a message: its own, then those of its
    replies. *)
Definition rowLines (rows : list string * list (list string)) : list string :=
  Js.join "," rows.1 :: (Js.join "," <$> rows.2).

Module CsvExample.

(** A reply that does not carry the thread anchor of its root. *)
Definition stray : SlackMessage :=
  ThreadExample.reply "1700000001.000200" "first" None.

Definition thread : MessageWithReplies :=
  {| message := ThreadExample.root; replies := [stray; ThreadExample.second] |}.

Definition world : World :=
  set_userCache (λ _, {[ "U1" := "alice"; "U2" := "bob" ]}) emptyWorld.

End CsvExample.

Module SnapshotExample.

Definition people : gmap string string :=
  {[ "U1" := "alice"; "U2" := "bob, the " +:+ dq +:+ "builder" +:+ dq ]}.

Definition rooms : gmap string string :=
  {[ "general" := "C123"; "random" := "C456" ]}.

End SnapshotExample.



(** * Frames and failures

    What a computation keeps of the world, whatever its outcome, and which
    errors it can throw. *)

(** Every run of [m] takes a world to one related to it by [R]. *)
Definition Preserves {A : Type} (R : World → World → Prop) (m : M A) : Prop :=
  ∀ w, R w (m w).2.

(** Every error [m] throws satisfies [P]. *)
Definition ThrowsOnly {A : Type} (P : JsError → Prop) (m : M A) : Prop :=
  ∀ w e, (m w).1 = Thrown e → P e.

(** The files, the cache directory and the clock are as they were. *)
Definition sameFiles (w w' : World) : Prop :=
  files w' = files w ∧ cacheDir w' = cacheDir w ∧ clock w' = clock w.

(** The names held for users stay: a non-empty name in the user cache is
    still there. *)
Definition keepsNames (w w' : World) : Prop :=
  ∀ i n, userCache w !! i = Some n → Js.nonEmpty n = true →
         userCache w' !! i = Some n.

(** The events are extended, and only by events in [P]. *)
Definition addsEvents (P : Event → Prop) (w w' : World) : Prop :=
  ∃ evs, events w' = events w ++ evs ∧ Forall P evs.

Definition isUsersInfoCall (e : Event) : Prop :=
  match e with CallUsersInfo _ => True | _ => False end.

(** What formatting leaves as it is: the files, the channel maps and every
    script but that of [users.info]; the only events it adds are calls of
    [users.info], and the names held for users stay. *)
Definition formattingFrame (w w' : World) : Prop :=
  sameFiles w w' ∧
  channelNameToIdCache w' = channelNameToIdCache w ∧
  channelIdToNameCache w' = channelIdToNameCache w ∧
  conversations_list (remote w') = conversations_list (remote w) ∧
  conversations_history (remote w') = conversations_history (remote w) ∧
  conversations_replies (remote w') = conversations_replies (remote w) ∧
  conversations_info (remote w') = conversations_info (remote w) ∧
  users_list (remote w') = users_list (remote w) ∧
  addsEvents isUsersInfoCall w w' ∧
  keepsNames w w'.

(** The only error the delimited format throws. *)
Definition invalidTime (e : JsError) : Prop := e = Error "Invalid time value".

Module FormatExample.

(** A message whose timestamp is no number. *)
Definition broken : MessageWithReplies :=
  {| message := {| ts := Some "yesterday"; user := None; bot_id := Some "B7";
                   username := None; text := Some "hi"; thread_ts := None;
                   reply_count := None |};
     replies := [] |}.

End FormatExample.

(** * Fetching: failures, order and delays *)

(** The error a paging loop throws on a reply: the rejection of the call,
    or the failure made of the reason of a page that is not ok. *)
Definition pageFailure {P : Type} (what : string) (r : Reply (Response P)) : option JsError :=
  match r with
  | Rejects e => Some e
  | Resolves p =>
      if ok p then None
      else Some (Error ("Failed to " +:+ what +:+ ": " +:+ Js.nullish (error p) "unknown_error"))
  end.

(** The world after calls of the replies endpoint. *)
Definition afterReplies (evs : list Event)
    (rest : list (Reply ConversationsRepliesResponse)) (w : World) : World :=
  set_remote (with_conversations_replies rest) (set_events (λ l, l ++ evs) w).

(** The requests of [fetchThreadReplies] for a list of cursors. *)
Definition repliesRequests (channelId threadTs : string)
    (cursors : list (option string)) : list Event :=
  CallConversationsReplies channelId threadTs <$> cursors.

(** No later element is strictly before an earlier one. *)
Definition ascending {A : Type} (lt : A → A → bool) (l : list A) : Prop :=
  ∀ (i j : nat) (a b : A),
    (i < j)%nat → l !! i = Some a → l !! j = Some b → lt b a = false.

(** The comparator behaves as an order on the elements of [l]: it is
    asymmetric, and being not before is transitive. *)
Definition consistentOn {A : Type} (lt : A → A → bool) (l : list A) : Prop :=
  Forall (λ a, Forall (λ b,
    (lt a b = true → lt b a = false) ∧
    Forall (λ c, lt a b = false → lt b c = false → lt a c = false) l) l) l.



Module FetchExample.

(** The history endpoint fails on its second page. *)
Definition brokenHistory : World :=
  set_remote (with_conversations_history
    [ canned (Examples.okResponse [WindowExample.at_ "300.0"] (Some "p2"));
      canned (Examples.failedResponse "ratelimited") ]) emptyWorld.


End FetchExample.

(** * The user list *)

(** The user cache after the members of pages have been set in it, one
    by one: a member without an id is passed over, a later member with the
    same id replaces an earlier one. *)
Definition withMembers (members : list SlackUser) (cache : gmap string string)
    : gmap string string :=
  foldl (λ acc member,
    if Js.truthy (user_id member)
    then <[Js.nullish (user_id member) "" := extractDisplayName member]> acc
    else acc) cache members.

(** The world after calls of [users.list] that delivered [members]. *)
Definition afterUsers (evs : list Event) (members : list SlackUser)
    (rest : list (Reply UsersListResponse)) (w : World) : World :=
  set_userCache (withMembers members)
    (set_remote (with_users_list rest) (set_events (λ l, l ++ evs) w)).

Definition usersRequests (cursors : list (option string)) : list Event :=
  CallUsersList <$> cursors.

Module UsersExample.

Definition bob : SlackUser := {|
  user_id := Some "U2";
  user_profile := Some {| display_name := Some " bob "; profile_real_name := Some "Robert" |};
  real_name := None;
|}.

Definition nameless : SlackUser := {|
  user_id := None; user_profile := None; real_name := Some "Ghost";
|}.

(** The second page of the user list is not ok. *)
Definition brokenWorld : World :=
  set_remote (with_users_list
    [ Resolves (Examples.okResponse [Examples.alice; nameless] (Some "p2"));
      Resolves (Examples.failedResponse "ratelimited") ]) emptyWorld.

(** Both pages are delivered; U9 was resolved to itself before. *)
Definition completeWorld : World :=
  set_userCache (λ _, {[ "U9" := "U9" ]})
    (set_remote (with_users_list
       [ Resolves (Examples.okResponse [Examples.alice; nameless] (Some "p2"));
         Resolves (Examples.okResponse [bob] None) ]) emptyWorld).

End UsersExample.

(** ** The date window *)

(** The handlers answer the requests of a fetch of the history with
    [pages], one after the other: the first request carries [cursor],
    each later one the cursor of the page before, and all of them the two
    bounds. *)
Fixpoint answers (channelId : string) (oldest latest cursor : option string)
    (handlers : list HistoryHandler) (pages : list ConversationsHistoryResponse) : Prop :=
  match handlers, pages with
  | [], [] => True
  | h :: hs, p :: ps =>
      h {| channel := channelId; cursor := cursor; limit := 200;
           oldest := oldest; latest := latest |} = Resolves p ∧
      answers channelId oldest latest (next_cursor p) hs ps
  | _, _ => False
  end.

Module RepliesExample.

(** A thread whose root lies inside the window from 150 to 250 and whose
    reply lies outside it. *)
Definition root : SlackMessage := {|
  ts := Some "200.0"; user := Some "U1"; bot_id := None; username := None;
  text := Some "root"; thread_ts := Some "200.0"; reply_count := Some 1;
|}.

Definition late : SlackMessage := {|
  ts := Some "300.0"; user := Some "U2"; bot_id := None; username := None;
  text := Some "late"; thread_ts := Some "200.0"; reply_count := None;
|}.

(** The history endpoint honours the window of the request; the replies
    endpoint is asked for the thread and delivers it. *)
Definition world : World :=
  set_userCache (λ _, {[ "U1" := "alice"; "U2" := "bob" ]})
    (set_remote (λ r,
       with_conversations_replies [Resolves (Examples.okResponse [root; late] None)]
         (with_conversations_history
            [WindowExample.serve [WindowExample.at_ "300.0"; root; WindowExample.at_ "100.0"]]
            r)) emptyWorld).

End RepliesExample.

(** ** Lines of the delimited format *)

(** The messages that get a row, in the order of the rows, each with the
    value of its reply count column: a message, then its replies. *)
Definition csvEntries (messages : list MessageWithReplies) : list (SlackMessage * string) :=
  mr ← messages;
  (message mr, Js.numToString (Some (default 0 (reply_count (message mr)))))
    :: ((λ reply, (reply, "0")) <$> replies mr).

(** The line of a message, given the time value of its date and the name
    its author resolved to: six fields, each escaped, of which only the
    text is made a single line first. *)
Definition csvLine (rt : JsRuntime) (channelName : string) (t : Z) (userName : string)
    (entry : SlackMessage * string) : string :=
  Js.join "," (escapeCsv <$>
    [ toISOString rt t; channelName; userName;
      sanitizeText (Js.nullish (text entry.1) "");
      Js.nullish (thread_ts entry.1) ""; entry.2 ]).

Fixpoint csvLines (rt : JsRuntime) (channelName : string)
    (entries : list (SlackMessage * string)) (times : list Z) (names : list string)
    : list string :=
  match entries, times, names with
  | entry :: entries, t :: times, n :: names =>
      csvLine rt channelName t n entry :: csvLines rt channelName entries times names
  | _, _, _ => []
  end.

(** The authors of messages, resolved one after the other. *)
Fixpoint resolveUserNames (messages : list SlackMessage) : M (list string) :=
  match messages with
  | [] => mret []
  | m :: ms =>
      n ← resolveUserName m;
      ns ← resolveUserNames ms;
      mret (n :: ns)
  end.

(** The dates of the entries are valid, with these time values. *)
Definition timesOf (rt : JsRuntime) (w : World) (entries : list (SlackMessage * string))
    (times : list Z) : Prop :=
  Forall2 (λ entry t, dateOfTs rt w (ts entry.1) = Some t) entries times.

(** * Properties *)

Example secondsToString_examples :
  secondsToString 150000 = "150" ∧ secondsToString 1500 = "1.5" ∧
  secondsToString 1700000000123 = "1700000000.123" ∧ secondsToString (-1) = "-0.001".
Proof. repeat split; vm_compute; reflexivity. Qed.

Example trim_example : Js.trim "  a b  " = "a b".
Proof. reflexivity. Qed.

(** ** Unfolding computations *)

Lemma bind_run {A B} (m : M A) (f : A → M B) (w : World) :
  (m ≫= f) w =
  match m w with
  | (Returned a, w') => f a w'
  | (Thrown e, w') => (Thrown e, w')
  | (Pending, w') => (Pending, w')
  end.
Proof. reflexivity. Qed.

Lemma ret_run {A} (a : A) (w : World) : (mret a : M A) w = (Returned a, w).
Proof. reflexivity. Qed.

Lemma gets_run {A} (f : World → A) (w : World) : gets f w = (Returned (f w), w).
Proof. reflexivity. Qed.

Lemma modify_run (f : World → World) (w : World) : modify f w = (Returned (), f w).
Proof. reflexivity. Qed.

Lemma forEach_nil {A S} (body : A → S → M S) (s : S) (w : World) :
  forEach [] body s w = (Returned s, w).
Proof. reflexivity. Qed.

Lemma forEach_cons {A S} (x : A) (l : list A) (body : A → S → M S) (s : S) :
  forEach (x :: l) body s = (body x s ≫= λ s', forEach l body s').
Proof. reflexivity. Qed.

Lemma doWhile_S {S A} (n : nat) (body : S → M (Step S A)) (s : S) :
  doWhile (Datatypes.S n) body s =
  (body s ≫= λ st, match st with
                   | Continue s' => doWhile n body s'
                   | Break a => mret a
                   end).
Proof. reflexivity. Qed.

Ltac munfold :=
  unfold mbind, M_bind, mret, M_ret, gets, modify, log, throw, tryCatch.


(** ** The bound of the loops

    A loop whose turns each take a reply from a script is stopped by the
    script, never by its bound: any bound above the length of the script
    gives the same run. *)

Section LoopBound.
Context {St A : Type} (step : St → M (Step St A)) (left : World → nat).
Hypothesis Htakes : ∀ st w st' w',
  step st w = (Returned (Continue st'), w') → (left w' < left w)%nat.

Lemma doWhile_bound_irrelevant (n : nat) :
  ∀ (fuel1 fuel2 : nat) (st : St) (w : World),
    (left w ≤ n)%nat → (left w < fuel1)%nat → (left w < fuel2)%nat →
    doWhile fuel1 step st w = doWhile fuel2 step st w.
Proof.
  induction n as [|n IH]; intros fuel1 fuel2 st w Hn H1 H2;
    (destruct fuel1 as [|fuel1]; [lia|]); (destruct fuel2 as [|fuel2]; [lia|]);
    rewrite !doWhile_S, !bind_run;
    destruct (step st w) as [[[st'|a]|e|] w1] eqn:Hrun; try reflexivity;
    apply Htakes in Hrun.
  - lia.
  - apply IH; lia.
Qed.

End LoopBound.

Lemma fetchHistoryPage_takes (channelId : string) (oldest latest : option string)
    (st : option string * list SlackMessage) (w : World)
    (st' : option string * list SlackMessage) (w' : World) :
  fetchHistoryPage channelId oldest latest st w = (Returned (Continue st'), w') →
  (length (conversations_history (remote w')) < length (conversations_history (remote w)))%nat.
Proof.
  destruct st as [cursor acc].
  unfold fetchHistoryPage, conversationsHistory, await. munfold. simpl.
  destruct (conversations_history (remote w)) as [|h tl]; simpl; [discriminate|].
  destruct (h _) as [p|e]; simpl; [|discriminate].
  destruct (ok p); simpl; [|discriminate].
  intros [= _ <-]. simpl. lia.
Qed.

(** [fetchHistory]'s loop under any sufficient bound. *)
Lemma fetchHistoryPages_any_bound (channelId : string) (oldest latest : option string)
    (fuel : nat) (w : World) :
  (length (conversations_history (remote w)) < fuel)%nat →
  fetchHistoryPages channelId oldest latest w
    = doWhile fuel (fetchHistoryPage channelId oldest latest) (None, []) w.
Proof.
  intros Hfuel. unfold fetchHistoryPages, pagesLeft. rewrite bind_run, gets_run.
  cbv beta iota.
  apply (doWhile_bound_irrelevant _ (λ w, length (conversations_history (remote w)))
           (fetchHistoryPage_takes channelId oldest latest)
           (length (conversations_history (remote w)))); lia.
Qed.

(** ** User names *)

Lemma cacheUser_run (i n : string) (w : World) :
  cacheUser i n w = (Returned (), set_userCache (λ m, <[i := n]> m) w).
Proof. reflexivity. Qed.

Lemma getUserName_never_throws (userId : string) (w : World) (e : JsError) :
  (getUserName userId w).1 ≠ Thrown e.
Proof.
  unfold getUserName, usersInfo, await, cacheUser. munfold. simpl.
  destruct (Js.truthy (userCache w !! userId)); simpl; [done|].
  destruct (users_info (remote w)) as [|[r|e'] tl]; simpl; [done| |done].
  destruct (payload r); simpl; [|done].
  destruct (ok r); simpl; done.
Qed.

Lemma getUserName_cached (userId n : string) (w : World) :
  userCache w !! userId = Some n → Js.nonEmpty n = true →
  getUserName userId w = (Returned n, w).
Proof.
  intros Hc Hn. unfold getUserName. munfold. simpl.
  rewrite Hc. simpl. rewrite Hn. reflexivity.
Qed.

Lemma truthy_Some (o : option string) :
  Js.truthy o = true → o = Some (Js.nullish o "").
Proof. destruct o; simpl; [reflexivity | discriminate]. Qed.

Lemma orElse_truthy (a : option string) (b : string) :
  Js.truthy a = true → Some (Js.orElse a b) = a.
Proof.
  destruct a as [s|]; simpl; [|discriminate].
  intros ->. reflexivity.
Qed.

Lemma orElse_falsy (a : option string) (b : string) :
  Js.truthy a = false → Js.orElse a b = b.
Proof.
  destruct a as [s|]; simpl; [|reflexivity].
  intros ->. reflexivity.
Qed.

(** C3, as the code has it. On a cache miss answered by an ok reply with a
    user, [getUserName] returns the first non-empty of: the trimmed profile
    display-name, the trimmed profile real-name, the user's own [real_name]
    (not trimmed), the identifier asked for. [extractDisplayName] follows
    the same chain and ends with the user's [id], then the word unknown. *)
Theorem getUserName_fallback_chain
    (userId : string) (u : SlackUser) (resp : UsersInfoResponse)
    (rest : list (Reply UsersInfoResponse)) (w : World) :
  Js.truthy (userCache w !! userId) = false →
  users_info (remote w) = Resolves resp :: rest →
  ok resp = true →
  payload resp = Some u →
  let displayName := Js.trim <$> (user_profile u ≫= display_name) in
  let realName := Js.trim <$> (user_profile u ≫= profile_real_name) in
  let n := displayNameOf u userId in
  let n' := extractDisplayName u in
  (getUserName userId w).1 = Returned n ∧
  (Js.truthy displayName = true → Some n = displayName ∧ Some n' = displayName) ∧
  (Js.truthy displayName = false → Js.truthy realName = true →
     Some n = realName ∧ Some n' = realName) ∧
  (Js.truthy displayName = false → Js.truthy realName = false →
     Js.truthy (real_name u) = true → Some n = real_name u ∧ Some n' = real_name u) ∧
  (Js.truthy displayName = false → Js.truthy realName = false →
     Js.truthy (real_name u) = false →
     n = userId ∧
     (Js.truthy (user_id u) = true → Some n' = user_id u) ∧
     (Js.truthy (user_id u) = false → n' = "unknown")).
Proof.
  intros Hmiss Hscript Hok Hu displayName realName n n'.
  split.
  { unfold getUserName, usersInfo, await, cacheUser. munfold. simpl.
    rewrite Hmiss, Hscript. simpl. rewrite Hu, Hok. reflexivity. }
  subst n n'. unfold displayNameOf, extractDisplayName.
  fold displayName realName.
  split; [intros H; split; apply orElse_truthy, H|].
  split.
  { intros H1 H2. rewrite !(orElse_falsy displayName) by exact H1.
    split; apply orElse_truthy, H2. }
  split.
  { intros H1 H2 H3.
    rewrite !(orElse_falsy displayName), !(orElse_falsy realName) by assumption.
    split; apply orElse_truthy, H3. }
  intros H1 H2 H3.
  rewrite !(orElse_falsy displayName), !(orElse_falsy realName),
    !(orElse_falsy (real_name u)) by assumption.
  split; [reflexivity|].
  split; intros H4; [apply orElse_truthy, H4 | apply orElse_falsy, H4].
Qed.

Lemma getUserName_fallback_chain_witness :
  (getUserName "U1" Examples.aliceWorld).1 = Returned "Alice" ∧
  Some (extractDisplayName Examples.alice) = Some "Alice".
Proof.
  pose proof (getUserName_fallback_chain "U1" Examples.alice
                (Examples.okResponse Examples.alice None) [] Examples.aliceWorld
                eq_refl eq_refl eq_refl eq_refl) as H.
  cbv zeta in H. destruct H as (Hrun & _ & _ & H3 & _).
  split; [exact Hrun|].
  destruct (H3 eq_refl eq_refl eq_refl) as [_ Hn'].
  exact Hn'.
Defined.

(** C3, as the specification words it, fails: with blank profile names the
    three-tier chain gives the identifier, the code the user's own
    [real_name]. *)
Lemma getUserName_not_three_tier :
  (getUserName "U1" Examples.aliceWorld).1 = Returned "Alice" ∧
  extractDisplayName Examples.alice = "Alice" ∧
  Spec.resolveUser (Some "  ") None "U1" = "U1" ∧
  (getUserName "U1" Examples.aliceWorld).1
    ≠ Returned (Spec.resolveUser (Some "  ") None "U1").
Proof. repeat split; vm_compute; congruence. Qed.

(** C4. [getUserName] never throws. When the lookup of an identifier that is
    not cached fails (the call rejects, a rate limit included, the envelope
    is not ok, or the user is missing), the identifier is returned and
    cached as its own name after one remote call, and the next resolution of
    it returns from the cache and leaves the world as it is. *)
Theorem getUserName_failure_cached
    (userId : string) (o : Reply UsersInfoResponse)
    (rest : list (Reply UsersInfoResponse)) (w : World) :
  Js.nonEmpty userId = true →
  Js.truthy (userCache w !! userId) = false →
  users_info (remote w) = o :: rest →
  lookupFails o →
  let w1 := (getUserName userId w).2 in
  (∀ e, (getUserName userId w).1 ≠ Thrown e) ∧
  (getUserName userId w).1 = Returned userId ∧
  userCache w1 = <[userId := userId]> (userCache w) ∧
  events w1 = events w ++ [CallUsersInfo userId] ∧
  getUserName userId w1 = (Returned userId, w1).
Proof.
  intros Hid Hmiss Hscript Hfail w1.
  split; [intros e; apply getUserName_never_throws|].
  assert (getUserName userId w =
            (Returned userId,
             set_userCache (λ m, <[userId := userId]> m)
               (set_remote (with_users_info rest)
                  (set_events (λ l, l ++ [CallUsersInfo userId]) w)))) as Hrun.
  { unfold getUserName, usersInfo, await, cacheUser. munfold. simpl.
    rewrite Hmiss, Hscript. simpl.
    destruct o as [r|e]; simpl; [|reflexivity].
    destruct Hfail as [Hok|Hp].
    - rewrite Hok. destruct (payload r); reflexivity.
    - rewrite Hp. reflexivity. }
  subst w1. rewrite Hrun. simpl.
  repeat split.
  apply getUserName_cached; [|exact Hid].
  simpl. apply lookup_insert_eq.
Qed.

Lemma getUserName_failure_cached_witness :
  isRateLimitError Examples.rateLimited = true ∧
  (getUserName "U9" Examples.rateLimitedWorld).1 = Returned "U9" ∧
  getUserName "U9" (getUserName "U9" Examples.rateLimitedWorld).2
    = (Returned "U9", (getUserName "U9" Examples.rateLimitedWorld).2).
Proof.
  pose proof (getUserName_failure_cached "U9" (Rejects Examples.rateLimited) []
                Examples.rateLimitedWorld eq_refl eq_refl eq_refl I) as H.
  cbv zeta in H. destruct H as (_ & H1 & _ & _ & H2).
  split; [reflexivity|]. split; [exact H1 | exact H2].
Defined.

(** ** Authors without a user id *)


Lemma parseTimestamp_run (rt : JsRuntime) (t : option string) (w : World) :
  parseTimestamp rt t w = (Returned (dateOfTs rt w t), w).
Proof. unfold parseTimestamp, dateOfTs. destruct (Js.truthy t); reflexivity. Qed.





(** ** Fields of the delimited format *)

Lemma doubleQuotes_without_quote (v : string) :
  Js.includes Js.QUOTE v = false → doubleQuotes v = v.
Proof.
  induction v as [|c r IH]; simpl; [reflexivity|].
  destruct (Ascii.eqb c Js.QUOTE); [discriminate|].
  intros H. rewrite IH by exact H. reflexivity.
Qed.

Lemma escapeCsv_cases (v : string) :
  escapeCsv v = if needsQuotes v then dq +:+ doubleQuotes v +:+ dq else v.
Proof.
  unfold escapeCsv. destruct (needsQuotes v) eqn:Hq; [reflexivity|].
  apply doubleQuotes_without_quote.
  unfold needsQuotes in Hq.
  destruct (Js.includes Js.QUOTE v); [discriminate | reflexivity].
Qed.

Lemma needsQuotes_iff (v : string) :
  needsQuotes v = true ↔
  Js.includes Js.QUOTE v = true ∨ Js.includes Js.COMMA v = true ∨ Js.includes Js.LF v = true.
Proof.
  unfold needsQuotes.
  destruct (Js.includes Js.QUOTE v), (Js.includes Js.COMMA v), (Js.includes Js.LF v);
    simpl; intuition discriminate.
Qed.

Lemma includes_trimStart (c : ascii) (s : string) :
  Js.includes c s = false → Js.includes c (Js.trimStart s) = false.
Proof.
  induction s as [|a r IH]; simpl; [done|].
  destruct (Js.isWhiteSpace a).
  - destruct (Ascii.eqb a c); [discriminate | exact IH].
  - simpl. done.
Qed.

Lemma includes_trimEnd (c : ascii) (s : string) :
  Js.includes c s = false → Js.includes c (Js.trimEnd s) = false.
Proof.
  induction s as [|a r IH]; simpl; [done|].
  destruct (Ascii.eqb a c) eqn:Hac; [discriminate|].
  intros Hr. specialize (IH Hr).
  destruct (Js.trimEnd r) as [|b r'].
  - destruct (Js.isWhiteSpace a); simpl; [done|]. rewrite Hac. done.
  - simpl. rewrite Hac. exact IH.
Qed.

Lemma includes_cons (c a : ascii) (r : string) :
  Js.includes c (String a r) = if Ascii.eqb a c then true else Js.includes c r.
Proof. reflexivity. Qed.

Lemma replaceLineBreaks_cons (a : ascii) (r : string) :
  replaceLineBreaks (String a r) =
  if Ascii.eqb a Js.CR then
    String Js.SPACE
      match r with
      | String c2 r2 =>
          if Ascii.eqb c2 Js.LF then replaceLineBreaks r2 else replaceLineBreaks r
      | EmptyString => EmptyString
      end
  else if Ascii.eqb a Js.LF then String Js.SPACE (replaceLineBreaks r)
  else String a (replaceLineBreaks r).
Proof. reflexivity. Qed.

Lemma replaceLineBreaks_no_break (c : ascii) (s : string) :
  c = Js.LF ∨ c = Js.CR → Js.includes c (replaceLineBreaks s) = false.
Proof.
  intros Hc.
  assert (Ascii.eqb Js.SPACE c = false) as Hsp by (destruct Hc; subst; reflexivity).
  assert (∀ n s, (String.length s ≤ n)%nat → Js.includes c (replaceLineBreaks s) = false) as H.
  { clear s. induction n as [|n IH]; intros s Hlen.
    - destruct s; [reflexivity | simpl in Hlen; lia].
    - destruct s as [|a r]; [reflexivity|].
      change (String.length (String a r)) with (S (String.length r)) in Hlen.
      rewrite replaceLineBreaks_cons.
      destruct (Ascii.eqb a Js.CR) eqn:Hcr.
      + rewrite includes_cons, Hsp. destruct r as [|b r2]; [reflexivity|].
        change (String.length (String b r2)) with (S (String.length r2)) in Hlen.
        destruct (Ascii.eqb b Js.LF); apply IH;
          [|change (String.length (String b r2)) with (S (String.length r2))]; lia.
      + destruct (Ascii.eqb a Js.LF) eqn:Hlf.
        * rewrite includes_cons, Hsp. apply IH. lia.
        * rewrite includes_cons. replace (Ascii.eqb a c) with false.
          -- apply IH. lia.
          -- destruct Hc; subst; congruence. }
  apply (H (String.length s)). lia.
Qed.

Lemma sanitizeText_single_line (t : string) :
  Js.includes Js.LF (sanitizeText t) = false ∧
  Js.includes Js.CR (sanitizeText t) = false.
Proof.
  unfold sanitizeText, Js.trim.
  split; apply includes_trimEnd, includes_trimStart, replaceLineBreaks_no_break; auto.
Qed.

Lemma csvMessageFields_values (rt : JsRuntime) (channelName : string)
    (m : SlackMessage) (w w' : World) (fields : list string) :
  csvMessageFields rt channelName m w = (Returned fields, w') →
  ∃ iso userName,
    fields = escapeCsv <$>
      [ iso; channelName; userName; sanitizeText (Js.nullish (text m) "");
        Js.nullish (thread_ts m) "";
        Js.numToString (Some (default 0 (reply_count m))) ].
Proof.
  unfold csvMessageFields. rewrite bind_run, parseTimestamp_run, bind_run.
  destruct (resolveUserName m w) as [[n|e|] w1]; [|discriminate..].
  unfold dateToISOString. destruct (dateOfTs rt w (ts m)) as [t|]; [|discriminate].
  rewrite bind_run, !ret_run. intros [= <- <-]. eauto.
Qed.

Lemma csvReplyFields_values (rt : JsRuntime) (channelName : string)
    (m : SlackMessage) (w w' : World) (fields : list string) :
  csvReplyFields rt channelName m w = (Returned fields, w') →
  ∃ iso userName,
    fields = escapeCsv <$>
      [ iso; channelName; userName; sanitizeText (Js.nullish (text m) "");
        Js.nullish (thread_ts m) ""; "0" ].
Proof.
  unfold csvReplyFields. rewrite bind_run, parseTimestamp_run, bind_run.
  destruct (resolveUserName m w) as [[n|e|] w1]; [|discriminate..].
  unfold dateToISOString. destruct (dateOfTs rt w (ts m)) as [t|]; [|discriminate].
  rewrite bind_run, !ret_run. intros [= <- <-]. eauto.
Qed.


(** ** Thread expansion *)

Lemma fetchThreadReplies_without_anchor (channelId threadTs : string)
    (w w' : World) (rs : list SlackMessage) :
  fetchThreadReplies channelId threadTs w = (Returned rs, w') →
  Forall (λ r, ts r ≠ Some threadTs) rs.
Proof.
  unfold fetchThreadReplies, pagesLeft. rewrite bind_run. unfold gets at 1.
  rewrite bind_run.
  match goal with
  | |- context [doWhile ?n ?b ?s ?x] => destruct (doWhile n b s x) as [[all|e|] w1]
  end; [|discriminate..].
  rewrite ret_run. intros [= <- _].
  apply Forall_forall. intros r Hr.
  apply list_elem_of_filter in Hr. apply Hr.
Qed.

Lemma anchorsThread_false (m : SlackMessage) :
  reply_count m = None ∨ reply_count m = Some 0 ∨ Js.truthy (thread_ts m) = false →
  anchorsThread m = false.
Proof.
  unfold anchorsThread. intros [H|[H|H]]; rewrite H;
    [apply andb_false_r | apply andb_false_r | reflexivity].
Qed.

Lemma expandThread_expanded (channelId : string) (toFetch : nat) (m : SlackMessage)
    (i i' : nat) (acc res : list MessageWithReplies) (w w' : World) :
  expandThread channelId toFetch m (i, acc) w = (Returned (i', res), w') →
  ∃ mr, res = acc ++ [mr] ∧ expanded m mr.
Proof.
  unfold expandThread. destruct (anchorsThread m) eqn:Ha.
  - rewrite bind_run.
    destruct (fetchThreadReplies _ _ w) as [[rs|e|] w1] eqn:Hf; [|discriminate..].
    apply fetchThreadReplies_without_anchor in Hf.
    rewrite bind_run.
    destruct ((if (S i <? toFetch)%nat then delay 100 else mret ()) w1)
      as [[[]|e|] w2]; [|discriminate..].
    rewrite ret_run. intros [= <- <- <-].
    eexists. split; [reflexivity|].
    split; [reflexivity|]. split; [intros ?; congruence|]. simpl.
    unfold anchorsThread in Ha. apply andb_prop in Ha as [Ht _].
    rewrite (truthy_Some _ Ht). exact Hf.
  - rewrite ret_run. intros [= <- <- <-].
    eexists. split; [reflexivity|].
    split; [reflexivity|]. split; [reflexivity|]. constructor.
Qed.

Lemma forEach_expandThread (channelId : string) (toFetch : nat)
    (messages : list SlackMessage) :
  ∀ (i i' : nat) (acc res : list MessageWithReplies) (w w' : World),
    forEach messages (expandThread channelId toFetch) (i, acc) w = (Returned (i', res), w') →
    ∃ new, res = acc ++ new ∧ Forall2 expanded messages new.
Proof.
  induction messages as [|m ms IH]; intros i i' acc res w w'.
  - rewrite forEach_nil. intros [= <- <- <-].
    exists []. split; [by rewrite app_nil_r | constructor].
  - rewrite forEach_cons, bind_run.
    destruct (expandThread channelId toFetch m (i, acc) w) as [[[i1 acc1]|e|] w1] eqn:Hm;
      [|discriminate..].
    apply expandThread_expanded in Hm as (mr & -> & Hmr).
    intros Hrest. apply IH in Hrest as (new & -> & Hnew).
    exists (mr :: new). split; [by rewrite <- app_assoc | by constructor].
Qed.

(** C2. In what [expandThreads] returns, the aggregates follow the messages
    one for one; a message whose reply count is absent or zero, or that has
    no thread anchor, has no replies; and no reply of a message has the
    thread anchor of the message as its [ts]. *)
Theorem expandThreads_replies (channelId : string) (messages : list SlackMessage)
    (w w' : World) (result : list MessageWithReplies) :
  expandThreads channelId messages w = (Returned result, w') →
  Forall2 (λ m mr,
    message mr = m ∧
    (reply_count m = None ∨ reply_count m = Some 0 ∨ Js.truthy (thread_ts m) = false →
       replies mr = []) ∧
    Forall (λ r, ts r ≠ thread_ts m) (replies mr)) messages result.
Proof.
  unfold expandThreads. rewrite bind_run.
  destruct (forEach messages _ _ w) as [[[i res]|e|] w1] eqn:Hloop; [|discriminate..].
  rewrite ret_run. intros [= <- <-].
  apply forEach_expandThread in Hloop as (new & -> & Hnew). simpl.
  eapply Forall2_impl; [exact Hnew|].
  intros m mr (Hm & Hnone & Hts). split; [exact Hm|]. split; [|exact Hts].
  intros H. apply Hnone, anchorsThread_false, H.
Qed.

Lemma expandThreads_replies_witness :
  expandThreads "C1" [plainMessage; ThreadExample.root] ThreadExample.world
    = (Returned [ {| message := plainMessage; replies := [] |};
                  {| message := ThreadExample.root;
                     replies := [ThreadExample.first; ThreadExample.second] |} ],
       (expandThreads "C1" [plainMessage; ThreadExample.root] ThreadExample.world).2) ∧
  Forall2 (λ m mr,
    message mr = m ∧
    (reply_count m = None ∨ reply_count m = Some 0 ∨ Js.truthy (thread_ts m) = false →
       replies mr = []) ∧
    Forall (λ r, ts r ≠ thread_ts m) (replies mr))
    [plainMessage; ThreadExample.root]
    [ {| message := plainMessage; replies := [] |};
      {| message := ThreadExample.root;
         replies := [ThreadExample.first; ThreadExample.second] |} ].
Proof.
  assert (expandThreads "C1" [plainMessage; ThreadExample.root] ThreadExample.world
    = (Returned [ {| message := plainMessage; replies := [] |};
                  {| message := ThreadExample.root;
                     replies := [ThreadExample.first; ThreadExample.second] |} ],
       (expandThreads "C1" [plainMessage; ThreadExample.root] ThreadExample.world).2)) as Hrun
    by (vm_compute; reflexivity).
  split; [exact Hrun|].
  exact (expandThreads_replies _ _ _ _ _ Hrun).
Defined.

(** Messages that anchor no thread are expanded with no remote call. *)
Lemma expandThreads_without_threads (channelId : string) (messages : list SlackMessage)
    (w : World) :
  Forall (λ m, anchorsThread m = false) messages →
  expandThreads channelId messages w
    = (Returned ((λ m, {| message := m; replies := [] |}) <$> messages), w).
Proof.
  intros Hall. unfold expandThreads. rewrite bind_run.
  set (n := length _). clearbody n.
  assert (∀ i acc,
    forEach messages (expandThread channelId n) (i, acc) w
      = (Returned (i, acc ++ ((λ m, {| message := m; replies := [] |}) <$> messages)), w)) as H.
  { induction Hall as [|m ms Hm _ IH]; intros i acc.
    - rewrite forEach_nil. simpl. rewrite app_nil_r. reflexivity.
    - rewrite forEach_cons, bind_run. unfold expandThread at 1. rewrite Hm, ret_run.
      rewrite IH, fmap_cons, <- app_assoc. reflexivity. }
  rewrite H. reflexivity.
Qed.

(** ** The paging loop of the message history *)

Lemma afterHistory_twice (e1 e2 : list Event) (r1 r2 : list HistoryHandler) (w : World) :
  afterHistory e2 r2 (afterHistory e1 r1 w) = afterHistory (e1 ++ e2) r2 w.
Proof.
  unfold afterHistory, set_remote, set_events, with_conversations_history. simpl.
  rewrite <- app_assoc. reflexivity.
Qed.

Lemma truthy_orUndefined (c : option string) :
  Js.truthy (Js.orUndefined c) = Js.truthy c.
Proof. unfold Js.orUndefined. destruct (Js.truthy c) eqn:H; [exact H | reflexivity]. Qed.

Lemma orUndefined_truthy (c : option string) :
  Js.truthy c = true → Js.orUndefined c = c.
Proof. unfold Js.orUndefined. intros ->. reflexivity. Qed.

(** One turn of the loop on an ok page. *)
Lemma fetchHistoryPage_ok (channelId : string) (oldest latest cursor : option string)
    (acc : list SlackMessage) (h : HistoryHandler) (rest : list HistoryHandler)
    (p : ConversationsHistoryResponse) (w : World) :
  let req := {| channel := channelId; cursor := cursor; limit := 200;
                oldest := oldest; latest := latest |} in
  conversations_history (remote w) = h :: rest →
  h req = Resolves p →
  ok p = true →
  fetchHistoryPage channelId oldest latest (cursor, acc) w =
    (Returned (if Js.truthy (next_cursor p)
               then Continue (Js.orUndefined (next_cursor p), acc ++ pageItems p)
               else Break (acc ++ pageItems p)),
     afterHistory [CallConversationsHistory req] rest w).
Proof.
  intros req Hscript Hreply Hok.
  unfold fetchHistoryPage, conversationsHistory, await. munfold. simpl.
  rewrite Hscript. simpl. fold req. rewrite Hreply. simpl. rewrite Hok. simpl.
  rewrite truthy_orUndefined. reflexivity.
Qed.

Lemma fetchHistory_loop_pages (channelId : string) (oldest latest : option string)
    (pages : list ConversationsHistoryResponse) :
  ∀ (cursor : option string) (acc : list SlackMessage) (fuel : nat)
    (last : ConversationsHistoryResponse) (rest : list HistoryHandler) (w : World),
    conversations_history (remote w) = (canned <$> pages ++ [last]) ++ rest →
    Forall (λ p, ok p = true) (pages ++ [last]) →
    Forall (λ p, Js.truthy (next_cursor p) = true) pages →
    Js.truthy (next_cursor last) = false →
    (length pages < fuel)%nat →
    doWhile fuel (fetchHistoryPage channelId oldest latest) (cursor, acc) w =
      (Returned (acc ++ concat (pageItems <$> pages ++ [last])),
       afterHistory
         (historyRequests channelId oldest latest (cursor :: (next_cursor <$> pages)))
         rest w).
Proof.
  induction pages as [|p ps IH]; intros cursor acc fuel last rest w Hscript Hok Hmore Hlast Hfuel;
    (destruct fuel as [|fuel]; [simpl in Hfuel; lia|]); rewrite doWhile_S, bind_run.
  - simpl in Hscript. apply Forall_inv in Hok.
    rewrite (fetchHistoryPage_ok _ _ _ _ _ _ _ _ _ Hscript eq_refl Hok).
    rewrite Hlast, ret_run. simpl. rewrite app_nil_r. reflexivity.
  - simpl in Hscript. apply Forall_cons_1 in Hok as [Hp Hok].
    apply Forall_cons_1 in Hmore as [Hc Hmore].
    rewrite (fetchHistoryPage_ok _ _ _ _ _ _ _ _ _ Hscript eq_refl Hp).
    rewrite Hc, orUndefined_truthy by exact Hc.
    rewrite (IH _ _ fuel last rest); [| reflexivity | assumption.. | simpl in Hfuel; lia].
    rewrite afterHistory_twice. simpl. rewrite <- app_assoc. reflexivity.
Qed.

(** The loop of [fetchHistory] over a complete fetch. *)
Lemma fetchHistoryPages_complete (channelId : string) (oldest latest : option string)
    (pages : list ConversationsHistoryResponse) (last : ConversationsHistoryResponse)
    (rest : list HistoryHandler) (w : World) :
  conversations_history (remote w) = (canned <$> pages ++ [last]) ++ rest →
  Forall (λ p, ok p = true) (pages ++ [last]) →
  Forall (λ p, Js.truthy (next_cursor p) = true) pages →
  Js.truthy (next_cursor last) = false →
  fetchHistoryPages channelId oldest latest w =
    (Returned (concat (pageItems <$> pages ++ [last])),
     afterHistory
       (historyRequests channelId oldest latest (None :: (next_cursor <$> pages)))
       rest w).
Proof.
  intros Hscript Hok Hmore Hlast.
  unfold fetchHistoryPages, pagesLeft. rewrite bind_run. unfold gets at 1.
  rewrite (fetchHistory_loop_pages _ _ _ pages None [] _ last rest w Hscript Hok Hmore Hlast).
  - reflexivity.
  - rewrite Hscript, !length_app, length_fmap, length_app. simpl. lia.
Qed.

(** What [fetchHistory] returns is that concatenation, sorted. *)
Lemma fetchHistory_sorts_pages (rt : JsRuntime) (channelId : string)
    (startDate endDate : option Z) (w w' : World) (messages : list SlackMessage) :
  fetchHistoryPages channelId (secondsToString <$> startDate) (secondsToString <$> endDate) w
    = (Returned messages, w') →
  fetchHistory rt channelId startDate endDate w
    = (Returned (Js.sortBy (tsBefore rt) messages), w').
Proof. intros H. unfold fetchHistory. rewrite bind_run, H. reflexivity. Qed.

Example fetchHistory_sorted_example :
  (fetchHistory modelRuntime "C1" None None WindowExample.pagedWorld).1 =
    Returned [WindowExample.at_ "100.0"; WindowExample.at_ "200.0"; WindowExample.at_ "300.0"].
Proof. vm_compute. reflexivity. Qed.

(** ** The sort rearranges *)

Lemma insertSorted_Permutation {A} (lt : A → A → bool) (x : A) (l : list A) :
  Js.insertSorted lt x l ≡ₚ x :: l.
Proof.
  induction l as [|y l IH]; simpl; [reflexivity|].
  destruct (lt y x); [rewrite IH; apply perm_swap|].
  destruct (lt x y); [reflexivity|].
  rewrite IH. apply perm_swap.
Qed.

Lemma sortBy_Permutation {A} (lt : A → A → bool) (l : list A) :
  Js.sortBy lt l ≡ₚ l.
Proof.
  unfold Js.sortBy.
  assert (∀ acc, foldl (λ acc x, Js.insertSorted lt x acc) acc l ≡ₚ acc ++ l) as H.
  { induction l as [|x l IH]; intros acc; simpl.
    - rewrite app_nil_r. reflexivity.
    - rewrite IH, insertSorted_Permutation. apply Permutation_middle. }
  apply (H []).
Qed.


(** ** The channel index *)

Lemma loadChannelCacheFromFile_run (rt : JsRuntime) (w : World) :
  loadChannelCacheFromFile rt w = (Returned (cachedChannels rt w), w).
Proof.
  unfold loadChannelCacheFromFile, cachedChannels, channelCacheFilePath, readFile.
  munfold. simpl.
  destruct (files w !! path_join rt (cacheDir w) "channels.json") as [data|]; simpl;
    [|reflexivity].
  destruct (parse_channels rt data); reflexivity.
Qed.

Lemma saveChannelCacheToFile_run (rt : JsRuntime) (chans : gmap string string) (w : World) :
  saveChannelCacheToFile rt chans w =
    (Returned (),
     set_files (λ fs, <[path_join rt (cacheDir w) "channels.json" :=
                          stringify_channels rt
                            {| channels_updatedAt := toISOString rt (clock w);
                               channels := chans |}]> fs)
       (set_events (λ l, l ++ [WriteFile (path_join rt (cacheDir w) "channels.json")]) w)).
Proof. reflexivity. Qed.

Lemma cacheChannels_fields (entries : list (string * string)) (w : World) :
  let w' := foldl (λ w '(n, i), cacheChannel n i w) w entries in
  remote w' = remote w ∧ files w' = files w ∧ events w' = events w ∧
  userCache w' = userCache w ∧ cacheDir w' = cacheDir w ∧ clock w' = clock w.
Proof.
  revert w. induction entries as [|[n i] l IH]; intros w; simpl; [done|].
  destruct (IH (cacheChannel n i w)) as (-> & -> & -> & -> & -> & ->). done.
Qed.

Lemma conversationsList_run (cursor : option string) (w : World) :
  conversationsList cursor w =
  let logged := set_events (λ l, l ++ [CallConversationsList cursor]) w in
  match conversations_list (remote w) with
  | [] => (Pending, logged)
  | Resolves r :: tl => (Returned r, set_remote (with_conversations_list tl) logged)
  | Rejects e :: tl => (Thrown e, set_remote (with_conversations_list tl) logged)
  end.
Proof.
  unfold conversationsList, await. munfold. simpl.
  destruct (conversations_list (remote w)) as [|[r|e] tl]; reflexivity.
Qed.

Lemma resolveChannelIdPage_turn : listTurn resolveChannelIdPage.
Proof.
  intros [cursor all] w. cbv zeta.
  unfold resolveChannelIdPage. rewrite bind_run, conversationsList_run. cbv zeta.
  destruct (conversations_list (remote w)) as [|[p|e] tl] eqn:Hs; simpl; [done| |done].
  destruct (ok p) eqn:Hok; simpl; [|done].
  unfold cacheChannels. munfold. simpl. rewrite truthy_orUndefined.
  match goal with
  | |- context [foldl ?f ?x ?l] => destruct (cacheChannels_fields l x) as (Hr & Hf & _)
  end.
  destruct (Js.truthy (next_cursor p)) eqn:Hc; simpl; rewrite Hf, Hr; simpl;
    (split; [done|]); (split; [done|]); eexists; done.
Qed.

Lemma listChannelsPage_turn : listTurn listChannelsPage.
Proof.
  intros [cursor chans] w. cbv zeta.
  unfold listChannelsPage. rewrite bind_run, conversationsList_run. cbv zeta.
  destruct (conversations_list (remote w)) as [|[p|e] tl] eqn:Hs; simpl; [done| |done].
  destruct (ok p) eqn:Hok; simpl; [|done].
  rewrite truthy_orUndefined.
  destruct (Js.truthy (next_cursor p)) eqn:Hc; simpl;
    (split; [done|]); (split; [done|]); eexists; done.
Qed.

Section ListLoop.
Context {S A : Type} (step : S → M (Step S A)) (Hturn : listTurn step).

Lemma listLoop_files (fuel : nat) :
  ∀ (st : S) (w : World), files (doWhile fuel step st w).2 = files w.
Proof.
  induction fuel as [|fuel IH]; intros st w; [reflexivity|].
  rewrite doWhile_S, bind_run.
  destruct (Hturn st w) as [Hf _].
  destruct (step st w) as [[[st'|a]|e|] w1]; simpl in *;
    [rewrite IH| | |]; exact Hf.
Qed.

Lemma listLoop_complete (fuel : nat) :
  ∀ (st : S) (w w' : World) (res : A),
    doWhile fuel step st w = (Returned res, w') →
    ∃ pages last, completeFetch (conversations_list (remote w)) pages last
                    (conversations_list (remote w')).
Proof.
  induction fuel as [|fuel IH]; intros st w w' res; [discriminate|].
  rewrite doWhile_S, bind_run.
  destruct (Hturn st w) as [_ Hstep].
  destruct (conversations_list (remote w)) as [|[p|e] tl] eqn:Hs;
    destruct (step st w) as [o w1]; simpl in Hstep; subst; try discriminate.
  destruct Hstep as [Htl Hstep].
  destruct (ok p) eqn:Hok; [|subst; discriminate].
  destruct Hstep as ([st'|a] & -> & Hc).
  - intros Hrest. apply IH in Hrest as (pages & last & Hs' & Hpages & Hlast).
    exists (p :: pages), last. split; [|split; [constructor; done|done]].
    rewrite Htl in Hs'. rewrite Hs'. reflexivity.
  - rewrite ret_run. intros [= <- <-].
    exists [], p. split; [by rewrite Htl|]. split; [constructor|done].
Qed.

Lemma listLoop_broken (pages : list ConversationsListResponse) :
  ∀ (bad : ConversationsListResponse) (rest : list (Reply ConversationsListResponse))
    (fuel : nat) (st : S) (w : World),
    brokenFetch (conversations_list (remote w)) pages bad rest →
    (length pages < fuel)%nat →
    (doWhile fuel step st w).1 =
      Thrown (Error ("Failed to list channels: " +:+ Js.nullish (error bad) "unknown_error")).
Proof.
  induction pages as [|p ps IH]; intros bad rest fuel st w (Hs & Hpages & Hbad) Hfuel;
    (destruct fuel as [|fuel]; [simpl in Hfuel; lia|]); rewrite doWhile_S, bind_run;
    destruct (Hturn st w) as [_ Hstep]; simpl in Hs; rewrite Hs in Hstep;
    destruct (step st w) as [o w1]; simpl in Hstep; destruct Hstep as [Htl Hstep].
  - rewrite Hbad in Hstep. subst o. reflexivity.
  - apply Forall_cons_1 in Hpages as [[Hok Hc] Hpages]. rewrite Hok in Hstep.
    destruct Hstep as ([st'|a] & -> & Hc'); [|congruence].
    apply (IH bad rest); [|simpl in Hfuel; lia].
    split; [exact Htl|]. split; assumption.
Qed.

End ListLoop.

Lemma brokenFetch_fuel {P} (script : list (Reply (Response P))) pages bad rest :
  brokenFetch script pages bad rest → (length pages < S (length script))%nat.
Proof. intros (-> & _). rewrite length_app, length_fmap. lia. Qed.

(** The fallback of [resolveChannelId], by what its loop comes to. *)
Lemma resolveChannelIdFromApi_run (rt : JsRuntime) (orig norm : string) (w : World) :
  let loop := doWhile (S (length (conversations_list (remote w))))
                resolveChannelIdPage (None, ∅) w in
  resolveChannelIdFromApi rt orig norm w =
  match loop.1 with
  | Returned all =>
      (if Js.truthy (all !! norm) then Returned (Js.nullish (all !! norm) "")
       else Thrown (Error ("Channel not found: " +:+ orig)),
       (saveChannelCacheToFile rt all loop.2).2)
  | Thrown e => (Thrown e, loop.2)
  | Pending => (Pending, loop.2)
  end.
Proof.
  cbv zeta. unfold resolveChannelIdFromApi, pagesLeft. rewrite bind_run.
  unfold gets at 1. rewrite bind_run.
  destruct (doWhile _ resolveChannelIdPage (None, ∅) w) as [[all|e|] w1]; simpl; try reflexivity.
  rewrite bind_run, saveChannelCacheToFile_run. simpl.
  destruct (Js.truthy (all !! norm)); reflexivity.
Qed.

Lemma resolveChannelIdFromApi_broken (rt : JsRuntime) (orig norm : string) (w : World)
    pages bad rest :
  brokenFetch (conversations_list (remote w)) pages bad rest →
  (resolveChannelIdFromApi rt orig norm w).1 =
    Thrown (Error ("Failed to list channels: " +:+ Js.nullish (error bad) "unknown_error")) ∧
  files (resolveChannelIdFromApi rt orig norm w).2 = files w.
Proof.
  intros Hb. rewrite resolveChannelIdFromApi_run. cbv zeta.
  assert (length pages < S (length (conversations_list (remote w))))%nat as Hfuel
    by (eapply brokenFetch_fuel; exact Hb).
  pose proof (listLoop_broken _ resolveChannelIdPage_turn pages bad rest _ (None, ∅) w Hb
                Hfuel) as Hloop.
  pose proof (listLoop_files _ resolveChannelIdPage_turn
                (S (length (conversations_list (remote w)))) (None, ∅) w) as Hfiles.
  rewrite Hloop. simpl. split; [reflexivity | exact Hfiles].
Qed.

Lemma resolveChannelIdFromApi_written (rt : JsRuntime) (orig norm : string) (w : World) :
  files (resolveChannelIdFromApi rt orig norm w).2 ≠ files w →
  ∃ pages last,
    completeFetch (conversations_list (remote w)) pages last
      (conversations_list (remote (resolveChannelIdFromApi rt orig norm w).2)).
Proof.
  rewrite resolveChannelIdFromApi_run. cbv zeta.
  pose proof (listLoop_files _ resolveChannelIdPage_turn
                (S (length (conversations_list (remote w)))) (None, ∅) w) as Hfiles.
  destruct (doWhile _ resolveChannelIdPage (None, ∅) w) as [[all|e|] w1] eqn:Hloop;
    cbn [fst snd] in Hfiles |- *; [|congruence..].
  intros _. apply (listLoop_complete _ resolveChannelIdPage_turn) in Hloop.
  exact Hloop.
Qed.

(** [resolveChannelId] either goes to its fallback or returns with the
    files and the remote as they were. *)
Lemma resolveChannelId_cases (rt : JsRuntime) (name : string) (w : World) :
  let r := resolveChannelId rt name w in
  (Js.startsWith "C" name || Js.startsWith "G" name = false ∧
   Js.truthy (channelNameToIdCache w !! stripHash name) = false ∧
   Js.truthy (cachedChannels rt w ≫= λ c, channels c !! stripHash name) = false ∧
   r = resolveChannelIdFromApi rt name (stripHash name) w) ∨
  ((Js.startsWith "C" name || Js.startsWith "G" name = true ∨
    Js.truthy (channelNameToIdCache w !! stripHash name) = true ∨
    Js.truthy (cachedChannels rt w ≫= λ c, channels c !! stripHash name) = true) ∧
   files r.2 = files w ∧ remote r.2 = remote w ∧ ∃ i, r.1 = Returned i).
Proof.
  cbv zeta. unfold resolveChannelId.
  destruct (Js.startsWith "C" name || Js.startsWith "G" name) eqn:Hid.
  { right. split; [auto|]. repeat (split; [reflexivity|]). eexists. reflexivity. }
  rewrite bind_run, gets_run. cbv beta iota.
  destruct (Js.truthy (channelNameToIdCache w !! stripHash name)) eqn:Hmem.
  { right. split; [auto|]. repeat (split; [reflexivity|]). eexists. reflexivity. }
  rewrite bind_run, loadChannelCacheFromFile_run. cbv beta iota.
  destruct (cachedChannels rt w) as [c|] eqn:Hfile; cbn [mbind option_bind].
  - destruct (Js.truthy (channels c !! stripHash name)) eqn:Hhit.
    + right. split; [auto|].
      destruct (cacheChannels_fields (map_to_list (channels c)) w) as (Hr & Hf & _).
      split; [exact Hf|]. split; [exact Hr|]. eexists. reflexivity.
    + left. done.
  - left. done.
Qed.

Lemma listChannels_run (rt : JsRuntime) (refresh : bool) (w : World) :
  let loop := doWhile (S (length (conversations_list (remote w))))
                listChannelsPage (None, []) w in
  listChannels rt refresh w =
  match (if negb refresh then cachedChannels rt w else None) with
  | Some cached => (Returned (sortChannels rt (channelInfos (channels cached))), w)
  | None =>
      match loop.1 with
      | Returned chans =>
          (Returned (sortChannels rt chans),
           (saveChannelCacheToFile rt
              (foldl (λ acc ch, <[name ch := id ch]> acc) ∅ chans) loop.2).2)
      | Thrown e => (Thrown e, loop.2)
      | Pending => (Pending, loop.2)
      end
  end.
Proof.
  cbv zeta. unfold listChannels. rewrite bind_run.
  assert ((if negb refresh then loadChannelCacheFromFile rt else mret None) w
          = (Returned (if negb refresh then cachedChannels rt w else None), w)) as ->.
  { destruct refresh; simpl; [reflexivity | apply loadChannelCacheFromFile_run]. }
  destruct (if negb refresh then cachedChannels rt w else None) as [c|]; [reflexivity|].
  unfold pagesLeft. rewrite bind_run. unfold gets at 1. rewrite bind_run.
  destruct (doWhile _ listChannelsPage (None, []) w) as [[chans|e|] w1]; simpl; try reflexivity.
Qed.

(** C9. When the paged fetch of the channel list meets a page that is not
    ok, [resolveChannelId] and [listChannels] throw the failure of that page
    and the files are as they were, so an earlier snapshot stays. The files
    only change after a complete fetch: ok pages up to one with no
    cursor. *)
Theorem channel_index_all_or_nothing (rt : JsRuntime) :
  (∀ name pages bad rest w,
     brokenFetch (conversations_list (remote w)) pages bad rest →
     files (resolveChannelId rt name w).2 = files w ∧
     (Js.startsWith "C" name || Js.startsWith "G" name = false →
      Js.truthy (channelNameToIdCache w !! stripHash name) = false →
      Js.truthy (cachedChannels rt w ≫= λ c, channels c !! stripHash name) = false →
      (resolveChannelId rt name w).1 =
        Thrown (Error ("Failed to list channels: "
                         +:+ Js.nullish (error bad) "unknown_error")))) ∧
  (∀ refresh pages bad rest w,
     brokenFetch (conversations_list (remote w)) pages bad rest →
     files (listChannels rt refresh w).2 = files w ∧
     (refresh = true ∨ cachedChannels rt w = None →
      (listChannels rt refresh w).1 =
        Thrown (Error ("Failed to list channels: "
                         +:+ Js.nullish (error bad) "unknown_error")))) ∧
  (∀ name w,
     files (resolveChannelId rt name w).2 ≠ files w →
     ∃ pages last,
       completeFetch (conversations_list (remote w)) pages last
         (conversations_list (remote (resolveChannelId rt name w).2))) ∧
  (∀ refresh w,
     files (listChannels rt refresh w).2 ≠ files w →
     ∃ pages last,
       completeFetch (conversations_list (remote w)) pages last
         (conversations_list (remote (listChannels rt refresh w).2))).
Proof.
  split; [|split; [|split]].
  - intros name pages bad rest w Hb.
    destruct (resolveChannelIdFromApi_broken rt name (stripHash name) w _ _ _ Hb) as [Ho Hf].
    destruct (resolveChannelId_cases rt name w) as [(_ & _ & _ & ->)|(Hwhy & Hfiles & _)].
    + split; [exact Hf | intros _ _ _; exact Ho].
    + split; [exact Hfiles|]. intros H1 H2 H3. destruct Hwhy as [H|[H|H]]; congruence.
  - intros refresh pages bad rest w Hb.
    rewrite listChannels_run. cbv zeta.
    assert (length pages < S (length (conversations_list (remote w))))%nat as Hfuel
      by (eapply brokenFetch_fuel; exact Hb).
    pose proof (listLoop_broken _ listChannelsPage_turn pages bad rest _ (None, []) w Hb
                  Hfuel) as Hloop.
    pose proof (listLoop_files _ listChannelsPage_turn
                  (S (length (conversations_list (remote w)))) (None, []) w) as Hfiles.
    destruct (if negb refresh then cachedChannels rt w else None) as [c|] eqn:Hc.
    + split; [reflexivity|]. intros [->| Hnone]; [discriminate|].
      destruct refresh; simpl in Hc; congruence.
    + rewrite Hloop. simpl. split; [exact Hfiles | reflexivity].
  - intros name w.
    destruct (resolveChannelId_cases rt name w) as [(_ & _ & _ & ->)|(_ & Hfiles & _)].
    + apply resolveChannelIdFromApi_written.
    + intros H. contradiction.
  - intros refresh w. rewrite listChannels_run. cbv zeta.
    pose proof (listLoop_files _ listChannelsPage_turn
                  (S (length (conversations_list (remote w)))) (None, []) w) as Hfiles.
    destruct (if negb refresh then cachedChannels rt w else None) as [c|]; [done|].
    destruct (doWhile _ listChannelsPage (None, []) w) as [[chans|e|] w1] eqn:Hloop;
      cbn [fst snd] in Hfiles |- *; [|congruence..].
    intros _. apply (listLoop_complete _ listChannelsPage_turn) in Hloop. exact Hloop.
Qed.

Lemma channel_index_all_or_nothing_witness :
  (resolveChannelId modelRuntime "#general" ChannelExample.brokenWorld).1
    = Thrown (Error "Failed to list channels: ratelimited") ∧
  files (resolveChannelId modelRuntime "#general" ChannelExample.brokenWorld).2
    = {[ ".cache/channels.json" := ChannelExample.staleSnapshot ]}.
Proof.
  destruct (channel_index_all_or_nothing modelRuntime) as (H & _).
  destruct (H "#general"
              [Examples.okResponse [ChannelExample.general] (Some "p2")]
              (Examples.failedResponse "ratelimited") [] ChannelExample.brokenWorld)
    as [Hf Ho].
  { split; [reflexivity|]. split; [repeat constructor | reflexivity]. }
  split; [apply Ho; vm_compute; reflexivity | exact Hf].
Defined.

(** After a complete fetch the snapshot is replaced by the whole index. *)
Example resolveChannelId_complete_example :
  (resolveChannelId modelRuntime "#general" ChannelExample.completeWorld).1
    = Returned "C123" ∧
  cachedChannels modelRuntime
    (resolveChannelId modelRuntime "#general" ChannelExample.completeWorld).2
    = Some {| channels_updatedAt := "2023-11-14T22:13:20.000Z";
              channels := {[ "general" := "C123"; "random" := "C456" ]} |}.
Proof. split; vm_compute; reflexivity. Qed.

(** ** Reply rows of the delimited format *)

Lemma forEach_csvReplyRow (rt : JsRuntime) (channelName : string) (rs : list SlackMessage) :
  ∀ (rows rows' : list string) (w w' : World),
    forEach rs (csvReplyRow rt channelName) rows w = (Returned rows', w') →
    ∃ fs, rows' = rows ++ (Js.join "," <$> fs) ∧ Forall2 (replyRow channelName) rs fs.
Proof.
  induction rs as [|r rs IH]; intros rows rows' w w'.
  - rewrite forEach_nil. intros [= <- <-].
    exists []. split; [by rewrite app_nil_r | constructor].
  - rewrite forEach_cons, bind_run. unfold csvReplyRow at 1. rewrite bind_run.
    destruct (csvReplyFields rt channelName r w) as [[f|e|] w1] eqn:Hf; [|discriminate..].
    apply csvReplyFields_values in Hf. rewrite ret_run.
    intros Hrest. apply IH in Hrest as (fs & -> & Hfs).
    exists (f :: fs). split; [by rewrite <- app_assoc | by constructor].
Qed.

Lemma forEach_csvMessageRows (rt : JsRuntime) (channelName : string)
    (messages : list MessageWithReplies) :
  ∀ (rows rows' : list string) (w w' : World),
    forEach messages (csvMessageRows rt channelName) rows w = (Returned rows', w') →
    ∃ rs, rows' = rows ++ concat (rowLines <$> rs) ∧
          Forall2 (messageRows channelName) messages rs.
Proof.
  induction messages as [|mr ms IH]; intros rows rows' w w'.
  - rewrite forEach_nil. intros [= <- <-].
    exists []. split; [by rewrite app_nil_r | constructor].
  - rewrite forEach_cons, bind_run. unfold csvMessageRows at 1. rewrite bind_run.
    destruct (csvMessageFields rt channelName (message mr) w) as [[f|e|] w1] eqn:Hf;
      [|discriminate..].
    apply csvMessageFields_values in Hf.
    destruct (forEach (replies mr) _ _ w1) as [[rows1|e|] w2] eqn:Hr; [|discriminate..].
    apply forEach_csvReplyRow in Hr as (fs & -> & Hfs).
    intros Hrest. apply IH in Hrest as (rs & -> & Hrs).
    exists ((f, fs) :: rs). split.
    + rewrite fmap_cons. simpl. unfold rowLines at 2. simpl.
      rewrite <- !app_assoc. reflexivity.
    + constructor; [split; assumption | assumption].
Qed.

(** C5, as the code has it. What [formatAsCsv] returns is the header and,
    for each message in turn, its row and the rows of its replies. The root
    row carries the reply count of the message. In each reply row the reply
    count column is the digit 0 and the thread anchor column is the reply's
    own [thread_ts], escaped, empty when the reply has none: it equals the
    column of the root when the reply carries the thread anchor of its
    root. *)
Theorem formatAsCsv_reply_rows (rt : JsRuntime) (channelName : string)
    (messages : list MessageWithReplies) (w w' : World) (out : string) :
  formatAsCsv rt channelName messages w = (Returned out, w') →
  ∃ rows : list (list string * list (list string)),
    out = Js.join (EOL rt) (csvHeader :: concat (rowLines <$> rows)) ∧
    Forall2 (λ mr '(root, rs),
      length root = 6%nat ∧
      root !! 4%nat = Some (escapeCsv (Js.nullish (thread_ts (message mr)) "")) ∧
      root !! 5%nat
        = Some (escapeCsv (Js.numToString (Some (default 0 (reply_count (message mr)))))) ∧
      Forall2 (λ reply fields,
        length fields = 6%nat ∧
        fields !! 5%nat = Some "0" ∧
        fields !! 4%nat = Some (escapeCsv (Js.nullish (thread_ts reply) "")) ∧
        (thread_ts reply = thread_ts (message mr) → fields !! 4%nat = root !! 4%nat))
        (replies mr) rs) messages rows.
Proof.
  unfold formatAsCsv. rewrite bind_run.
  destruct (forEach messages _ _ w) as [[rows|e|] w1] eqn:Hloop; [|discriminate..].
  rewrite ret_run. intros [= <- <-].
  apply forEach_csvMessageRows in Hloop as (rs & -> & Hrs).
  exists rs. split; [reflexivity|].
  eapply Forall2_impl; [exact Hrs|].
  intros mr [root fs] [(iso & userName & Hroot) Hfs]. simpl in Hroot, Hfs. subst root.
  split; [reflexivity|]. split; [reflexivity|]. split; [reflexivity|].
  eapply Forall2_impl; [exact Hfs|].
  intros reply fields (iso' & userName' & ->).
  split; [reflexivity|]. split; [reflexivity|]. split; [reflexivity|].
  intros Heq. simpl. rewrite Heq. reflexivity.
Qed.

Lemma formatAsCsv_reply_rows_witness :
  (formatAsCsv modelRuntime "general"
     [{| message := ThreadExample.root;
         replies := [ThreadExample.first; ThreadExample.second] |}] CsvExample.world).1
  = Returned (Js.join nl
      [ csvHeader;
        "2023-11-14T22:13:20.000Z,general,alice,root,1700000000.000100,2";
        "2023-11-14T22:13:21.000Z,general,bob,first,1700000000.000100,0";
        "2023-11-14T22:13:22.000Z,general,bob,second,1700000000.000100,0" ]) ∧
  ∃ rows : list (list string * list (list string)),
    Js.join nl
      [ csvHeader;
        "2023-11-14T22:13:20.000Z,general,alice,root,1700000000.000100,2";
        "2023-11-14T22:13:21.000Z,general,bob,first,1700000000.000100,0";
        "2023-11-14T22:13:22.000Z,general,bob,second,1700000000.000100,0" ]
      = Js.join nl (csvHeader :: concat (rowLines <$> rows)).
Proof.
  assert (formatAsCsv modelRuntime "general"
     [{| message := ThreadExample.root;
         replies := [ThreadExample.first; ThreadExample.second] |}] CsvExample.world
    = (Returned (Js.join nl
      [ csvHeader;
        "2023-11-14T22:13:20.000Z,general,alice,root,1700000000.000100,2";
        "2023-11-14T22:13:21.000Z,general,bob,first,1700000000.000100,0";
        "2023-11-14T22:13:22.000Z,general,bob,second,1700000000.000100,0" ]),
       CsvExample.world)) as Hrun by (vm_compute; reflexivity).
  split; [rewrite Hrun; reflexivity|].
  destruct (formatAsCsv_reply_rows modelRuntime "general" _ _ _ _ Hrun) as (rows & Hout & _).
  exists rows. exact Hout.
Defined.

(** C5, as the specification words it, fails: a reply that carries no
    [thread_ts] has an empty thread anchor column under a root whose thread
    anchor is 1700000000.000100. *)
Lemma formatAsCsv_reply_anchor_not_inherited :
  (formatAsCsv modelRuntime "general" [CsvExample.thread] CsvExample.world).1
  = Returned (Js.join nl
      [ csvHeader;
        "2023-11-14T22:13:20.000Z,general,alice,root,1700000000.000100,2";
        "2023-11-14T22:13:21.000Z,general,bob,first,,0";
        "2023-11-14T22:13:22.000Z,general,bob,second,1700000000.000100,0" ]) ∧
  thread_ts (message CsvExample.thread) = Some "1700000000.000100" ∧
  (csvReplyFields modelRuntime "general" CsvExample.stray CsvExample.world).1
  = Returned ["2023-11-14T22:13:21.000Z"; "general"; "bob"; "first"; ""; "0"] ∧
  (csvReplyFields modelRuntime "general" CsvExample.stray CsvExample.world).1
  ≠ Returned ["2023-11-14T22:13:21.000Z"; "general"; "bob"; "first";
              escapeCsv "1700000000.000100"; "0"].
Proof. repeat split; vm_compute; congruence. Qed.

(** ** Snapshots written and read back *)

Lemma loadUserCacheFromFile_run (rt : JsRuntime) (w : World) :
  loadUserCacheFromFile rt w = (Returned (cachedUsers rt w), w).
Proof.
  unfold loadUserCacheFromFile, cachedUsers, userCacheFilePath, readFile.
  munfold. simpl.
  destruct (files w !! path_join rt (cacheDir w) "users.json") as [data|]; simpl;
    [|reflexivity].
  destruct (parse_users rt data); reflexivity.
Qed.

Lemma saveUserCacheToFile_run (rt : JsRuntime) (us : gmap string string) (w : World) :
  saveUserCacheToFile rt us w =
    (Returned (),
     set_files (λ fs, <[path_join rt (cacheDir w) "users.json" :=
                          stringify_users rt
                            {| users_updatedAt := toISOString rt (clock w);
                               users := us |}]> fs)
       (set_events (λ l, l ++ [WriteFile (path_join rt (cacheDir w) "users.json")]) w)).
Proof. reflexivity. Qed.

(** Setting the entries of a map one by one rebuilds the map over what was
    there. *)
Lemma foldl_insert_entries (l : list (string * string)) :
  NoDup l.*1 →
  ∀ base : gmap string string,
    foldl (λ m '(k, v), <[k := v]> m) base l = list_to_map l ∪ base.
Proof.
  induction l as [|[k v] l IH]; intros Hnd base; simpl.
  - by rewrite (left_id_L ∅ (∪)).
  - apply NoDup_cons in Hnd as [Hk Hnd].
    rewrite IH by exact Hnd.
    rewrite <- insert_union_l.
    rewrite insert_union_r by (apply not_elem_of_list_to_map_1, Hk).
    reflexivity.
Qed.

Lemma foldl_insert_map_to_list (m base : gmap string string) :
  foldl (λ acc '(k, v), <[k := v]> acc) base (map_to_list m) = m ∪ base.
Proof.
  rewrite foldl_insert_entries by apply NoDup_fst_map_to_list.
  by rewrite list_to_map_to_list.
Qed.

Lemma forEach_cacheUser (l : list (string * string)) (w : World) :
  forEach l (λ '(i, n) _, cacheUser i n) () w =
    (Returned (),
     set_userCache (λ m, foldl (λ acc '(k, v), <[k := v]> acc) m l) w).
Proof.
  revert w. induction l as [|[i n] l IH]; intros w.
  - rewrite forEach_nil. destruct w; reflexivity.
  - rewrite forEach_cons, bind_run, cacheUser_run, IH. reflexivity.
Qed.

Lemma cacheChannels_names (entries : list (string * string)) (w : World) :
  channelNameToIdCache (foldl (λ w '(n, i), cacheChannel n i w) w entries)
    = foldl (λ acc '(k, v), <[k := v]> acc) (channelNameToIdCache w) entries.
Proof.
  revert w. induction entries as [|[n i] l IH]; intros w; simpl; [done|].
  rewrite IH. reflexivity.
Qed.

(** C8. A user snapshot written by [saveUserCacheToFile] and read back by
    [prefetchUsers] into an empty cache gives the mapping that was written,
    with no remote call; so does a channel snapshot written by
    [saveChannelCacheToFile] and read back by [resolveChannelId] for a name
    it holds. The runtime is only asked that [JSON.parse] reads back the
    mapping of what [JSON.stringify] wrote. *)
Theorem snapshot_round_trip (rt : JsRuntime) (us chans : gmap string string)
    (name cid : string) (w : World) :
  userCache w = ∅ →
  channelNameToIdCache w = ∅ →
  users <$> parse_users rt (stringify_users rt
    {| users_updatedAt := toISOString rt (clock w); users := us |}) = Some us →
  channels <$> parse_channels rt (stringify_channels rt
    {| channels_updatedAt := toISOString rt (clock w); channels := chans |}) = Some chans →
  Js.startsWith "C" name || Js.startsWith "G" name = false →
  chans !! stripHash name = Some cid →
  Js.nonEmpty cid = true →
  (let w1 := (saveUserCacheToFile rt us w).2 in
   let r := prefetchUsers rt false w1 in
   r.1 = Returned () ∧ userCache r.2 = us ∧
   events r.2 = events w1 ∧ remote r.2 = remote w1) ∧
  (let w1 := (saveChannelCacheToFile rt chans w).2 in
   let r := resolveChannelId rt name w1 in
   r.1 = Returned cid ∧ channelNameToIdCache r.2 = chans ∧
   events r.2 = events w1 ∧ remote r.2 = remote w1).
Proof.
  intros Hu Hc Hjson_u Hjson_c Hid Hname Hcid. split.
  - cbv zeta. rewrite saveUserCacheToFile_run. cbn [snd].
    set (w1 := set_files _ _).
    assert (users <$> cachedUsers rt w1 = Some us) as Hcached.
    { unfold cachedUsers, w1. simpl. rewrite lookup_insert_eq. exact Hjson_u. }
    unfold prefetchUsers. rewrite bind_run. cbn [negb].
    rewrite loadUserCacheFromFile_run.
    destruct (cachedUsers rt w1) as [c|]; [|discriminate].
    injection Hcached as Hcached.
    rewrite forEach_cacheUser. cbn [fst snd]. simpl.
    rewrite foldl_insert_map_to_list, Hcached, Hu.
    by rewrite (right_id_L ∅ (∪)).
  - cbv zeta. rewrite saveChannelCacheToFile_run. cbn [snd].
    set (w1 := set_files _ _).
    assert (channels <$> cachedChannels rt w1 = Some chans) as Hcached.
    { unfold cachedChannels, w1. simpl. rewrite lookup_insert_eq. exact Hjson_c. }
    unfold resolveChannelId. rewrite Hid, bind_run, gets_run. cbv beta iota.
    replace (channelNameToIdCache w1) with (∅ : gmap string string)
      by (symmetry; exact Hc).
    rewrite lookup_empty. cbn [Js.truthy].
    rewrite bind_run, loadChannelCacheFromFile_run. cbv beta iota.
    destruct (cachedChannels rt w1) as [c|]; [|discriminate].
    injection Hcached as Hcached. rewrite Hcached, Hname. cbn [Js.truthy]. rewrite Hcid.
    unfold cacheChannels. rewrite bind_run, modify_run. cbv beta iota.
    unfold mret, M_ret. cbn [fst snd].
    destruct (cacheChannels_fields (map_to_list chans) w1) as (Hr & _ & He & _).
    split; [reflexivity|]. split; [|split; assumption].
    rewrite cacheChannels_names, foldl_insert_map_to_list.
    replace (channelNameToIdCache w1) with (∅ : gmap string string)
      by (symmetry; exact Hc).
    by rewrite (right_id_L ∅ (∪)).
Qed.

Lemma snapshot_round_trip_witness :
  userCache (prefetchUsers modelRuntime false
               (saveUserCacheToFile modelRuntime SnapshotExample.people emptyWorld).2).2
    = SnapshotExample.people ∧
  channelNameToIdCache (resolveChannelId modelRuntime "#general"
               (saveChannelCacheToFile modelRuntime SnapshotExample.rooms emptyWorld).2).2
    = SnapshotExample.rooms.
Proof.
  destruct (snapshot_round_trip modelRuntime SnapshotExample.people SnapshotExample.rooms
              "#general" "C123" emptyWorld) as [(_ & Hu & _) (_ & Hc & _)].
  - reflexivity.
  - reflexivity.
  - vm_compute. reflexivity.
  - vm_compute. reflexivity.
  - reflexivity.
  - vm_compute. reflexivity.
  - reflexivity.
  - split; [exact Hu | exact Hc].
Defined.

(** * Frames and failures *)

Section Frames.
Context (R : World → World → Prop) (R_refl : ∀ w, R w w)
  (R_trans : ∀ w1 w2 w3, R w1 w2 → R w2 w3 → R w1 w3).

Lemma preserves_pure {A} (o : Outcome A) : Preserves R (λ w, (o, w)).
Proof. intros w. apply R_refl. Qed.

Lemma preserves_ret {A} (a : A) : Preserves R (mret a : M A).
Proof. intros w. apply R_refl. Qed.

Lemma preserves_throw {A} (e : JsError) : Preserves R (throw e : M A).
Proof. intros w. apply R_refl. Qed.

Lemma preserves_gets {A} (f : World → A) : Preserves R (gets f).
Proof. intros w. apply R_refl. Qed.

Lemma preserves_modify (f : World → World) :
  (∀ w, R w (f w)) → Preserves R (modify f).
Proof. intros H w. apply H. Qed.

Lemma preserves_bind {A B} (m : M A) (f : A → M B) :
  Preserves R m → (∀ a, Preserves R (f a)) → Preserves R (m ≫= f).
Proof.
  intros Hm Hf w. rewrite bind_run. specialize (Hm w).
  destruct (m w) as [[a|e|] w1]; cbn [snd] in *; [|assumption..].
  eapply R_trans; [exact Hm | apply Hf].
Qed.

Lemma preserves_tryCatch {A} (body : M A) (handler : JsError → M A) :
  Preserves R body → (∀ e, Preserves R (handler e)) → Preserves R (tryCatch body handler).
Proof.
  intros Hb Hh w. unfold tryCatch. specialize (Hb w).
  destruct (body w) as [[a|e|] w1]; cbn [snd] in *; [assumption| |assumption].
  eapply R_trans; [exact Hb | apply Hh].
Qed.

Lemma preserves_doWhile {St A} (fuel : nat) (body : St → M (Step St A)) :
  (∀ s, Preserves R (body s)) → ∀ s, Preserves R (doWhile fuel body s).
Proof.
  intros Hb. induction fuel as [|fuel IH]; intros s; [apply preserves_pure|].
  rewrite doWhile_S. apply preserves_bind; [apply Hb|].
  intros [s'|a]; [apply IH | apply preserves_ret].
Qed.

Lemma preserves_forEach {A St} (l : list A) (body : A → St → M St) :
  (∀ x s, Preserves R (body x s)) → ∀ s, Preserves R (forEach l body s).
Proof.
  intros Hb. induction l as [|x l IH]; intros s; [apply preserves_ret|].
  rewrite forEach_cons. apply preserves_bind; [apply Hb | exact IH].
Qed.

End Frames.

Section Failures.
Context (P : JsError → Prop).

Lemma throwsOnly_pure {A} (o : Outcome A) :
  (∀ e, o = Thrown e → P e) → ThrowsOnly P (λ w, (o, w)).
Proof. intros H w e. apply H. Qed.

Lemma throwsOnly_ret {A} (a : A) : ThrowsOnly P (mret a : M A).
Proof. intros w e [=]. Qed.

Lemma throwsOnly_gets {A} (f : World → A) : ThrowsOnly P (gets f).
Proof. intros w e [=]. Qed.

Lemma throwsOnly_modify (f : World → World) : ThrowsOnly P (modify f).
Proof. intros w e [=]. Qed.

Lemma throwsOnly_throw {A} (e : JsError) : P e → ThrowsOnly P (throw e : M A).
Proof. intros H w e' [= <-]. exact H. Qed.

Lemma throwsOnly_bind {A B} (m : M A) (f : A → M B) :
  ThrowsOnly P m → (∀ a, ThrowsOnly P (f a)) → ThrowsOnly P (m ≫= f).
Proof.
  intros Hm Hf w e. rewrite bind_run. specialize (Hm w).
  destruct (m w) as [[a|e'|] w1]; cbn [fst] in *.
  - apply Hf.
  - intros [= <-]. apply Hm. reflexivity.
  - discriminate.
Qed.

Lemma throwsOnly_tryCatch {A} (body : M A) (handler : JsError → M A) :
  (∀ e, ThrowsOnly P (handler e)) → ThrowsOnly P (tryCatch body handler).
Proof.
  intros Hh w e. unfold tryCatch.
  destruct (body w) as [[a|e'|] w1]; cbn [fst]; [discriminate| |discriminate].
  apply Hh.
Qed.

Lemma throwsOnly_doWhile {St A} (fuel : nat) (body : St → M (Step St A)) :
  (∀ s, ThrowsOnly P (body s)) → ∀ s, ThrowsOnly P (doWhile fuel body s).
Proof.
  intros Hb. induction fuel as [|fuel IH]; intros s; [intros w e [=]|].
  rewrite doWhile_S. apply throwsOnly_bind; [apply Hb|].
  intros [s'|a]; [apply IH | apply throwsOnly_ret].
Qed.

Lemma throwsOnly_forEach {A St} (l : list A) (body : A → St → M St) :
  (∀ x s, ThrowsOnly P (body x s)) → ∀ s, ThrowsOnly P (forEach l body s).
Proof.
  intros Hb. induction l as [|x l IH]; intros s; [apply throwsOnly_ret|].
  rewrite forEach_cons. apply throwsOnly_bind; [apply Hb | exact IH].
Qed.

End Failures.

Create HintDb frames.
Create HintDb throws.

(** Walks through the structure of a computation, closing with the hints
    what is already known of a part. *)
Ltac frame_step :=
  first
    [ solve [auto with frames nocore]
    | match goal with
      | |- Preserves _ (mret _) => apply preserves_ret; assumption
      | |- Preserves _ (throw _) => apply preserves_throw; assumption
      | |- Preserves _ (gets _) => apply preserves_gets; assumption
      | |- Preserves _ (modify _) => apply preserves_modify; intros ?
      | |- Preserves _ (_ ≫= _) => apply preserves_bind; [assumption | | intros ?]
      | |- Preserves _ (tryCatch _ _) => apply preserves_tryCatch; [assumption | | intros ?]
      | |- Preserves _ (doWhile _ _ _) => apply preserves_doWhile; [assumption.. | intros ?]
      | |- Preserves _ (forEach _ _ _) => apply preserves_forEach; [assumption.. | intros ? ?]
      | |- Preserves _ (λ w, (_, w)) => apply preserves_pure; assumption
      | |- Preserves _ (if ?b then _ else _) => destruct b
      | |- Preserves _ (match ?x with _ => _ end) => destruct x
      end ].

Ltac throws_step :=
  first
    [ solve [auto with throws nocore]
    | match goal with
      | |- ThrowsOnly _ (mret _) => apply throwsOnly_ret
      | |- ThrowsOnly _ (throw _) => apply throwsOnly_throw
      | |- ThrowsOnly _ (gets _) => apply throwsOnly_gets
      | |- ThrowsOnly _ (modify _) => apply throwsOnly_modify
      | |- ThrowsOnly _ (_ ≫= _) => apply throwsOnly_bind; [| intros ?]
      | |- ThrowsOnly _ (tryCatch _ _) => apply throwsOnly_tryCatch; intros ?
      | |- ThrowsOnly _ (doWhile _ _ _) => apply throwsOnly_doWhile; intros ?
      | |- ThrowsOnly _ (forEach _ _ _) => apply throwsOnly_forEach; intros ? ?
      | |- ThrowsOnly _ (if ?b then _ else _) => destruct b
      | |- ThrowsOnly _ (match ?x with _ => _ end) => destruct x
      end ].

Ltac frame := repeat frame_step.
Ltac throws := repeat throws_step.


(** ** Formatting *)

Lemma addsEvents_refl (P : Event → Prop) (w : World) : addsEvents P w w.
Proof. exists []. split; [by rewrite app_nil_r | constructor]. Qed.

Lemma addsEvents_trans (P : Event → Prop) (w1 w2 w3 : World) :
  addsEvents P w1 w2 → addsEvents P w2 w3 → addsEvents P w1 w3.
Proof.
  intros (e1 & H1 & P1) (e2 & H2 & P2). exists (e1 ++ e2).
  split; [by rewrite H2, H1, app_assoc | by apply Forall_app].
Qed.

Lemma sameFiles_refl (w : World) : sameFiles w w.
Proof. done. Qed.

Lemma sameFiles_trans (w1 w2 w3 : World) :
  sameFiles w1 w2 → sameFiles w2 w3 → sameFiles w1 w3.
Proof. intros (? & ? & ?) (? & ? & ?). repeat split; congruence. Qed.

Lemma formattingFrame_refl (w : World) : formattingFrame w w.
Proof.
  repeat split; try reflexivity; [apply addsEvents_refl | intros i n H _; exact H].
Qed.

Lemma formattingFrame_trans (w1 w2 w3 : World) :
  formattingFrame w1 w2 → formattingFrame w2 w3 → formattingFrame w1 w3.
Proof.
  intros (F1 & A1 & B1 & C1 & D1 & E1 & G1 & H1 & I1 & J1)
         (F2 & A2 & B2 & C2 & D2 & E2 & G2 & H2 & I2 & J2).
  split; [eapply sameFiles_trans; eassumption|].
  repeat (split; [congruence|]).
  split; [eapply addsEvents_trans; eassumption|].
  intros i n Hi Hn. apply J2; [apply J1|]; assumption.
Qed.

Lemma getUserName_formattingFrame (userId : string) :
  Preserves formattingFrame (getUserName userId).
Proof.
  intros w. unfold getUserName, usersInfo, await, cacheUser. munfold. simpl.
  destruct (Js.truthy (userCache w !! userId)) eqn:Hmiss; simpl;
    [apply formattingFrame_refl|].
  assert (∀ x rest,
    formattingFrame w
      (set_userCache (λ m, <[userId := x]> m)
         (set_remote (with_users_info rest)
            (set_events (λ l, l ++ [CallUsersInfo userId]) w)))) as Hset.
  { intros x rest. repeat split; simpl.
    - exists [CallUsersInfo userId]. split; [reflexivity | repeat constructor].
    - intros i n Hi Hn. simpl. destruct (decide (i = userId)) as [->|Hne].
      + rewrite Hi in Hmiss. simpl in Hmiss. congruence.
      + rewrite lookup_insert_ne by congruence. exact Hi. }
  destruct (users_info (remote w)) as [|[r|e] tl]; simpl.
  - repeat split; simpl; [|intros i n Hi _; exact Hi].
    exists [CallUsersInfo userId]. split; [reflexivity | repeat constructor].
  - destruct (payload r); simpl; [destruct (ok r); simpl|]; apply Hset.
  - apply Hset.
Qed.

#[local] Hint Resolve getUserName_formattingFrame : frames.

Lemma resolveUserName_formattingFrame (m : SlackMessage) :
  Preserves formattingFrame (resolveUserName m).
Proof.
  pose proof formattingFrame_refl. pose proof formattingFrame_trans.
  unfold resolveUserName. frame.
Qed.

#[local] Hint Resolve resolveUserName_formattingFrame : frames.

Lemma getUserName_throwsOnly (P : JsError → Prop) (userId : string) :
  ThrowsOnly P (getUserName userId).
Proof. intros w e H. destruct (getUserName_never_throws userId w e H). Qed.

#[local] Hint Resolve getUserName_throwsOnly : throws.

Lemma parseTimestamp_formattingFrame (rt : JsRuntime) (t : option string) :
  Preserves formattingFrame (parseTimestamp rt t).
Proof. intros w. rewrite parseTimestamp_run. apply formattingFrame_refl. Qed.

Lemma parseTimestamp_throwsOnly (P : JsError → Prop) (rt : JsRuntime) (t : option string) :
  ThrowsOnly P (parseTimestamp rt t).
Proof. intros w e. rewrite parseTimestamp_run. discriminate. Qed.

Lemma resolveUserName_throwsOnly (P : JsError → Prop) (m : SlackMessage) :
  ThrowsOnly P (resolveUserName m).
Proof. unfold resolveUserName. throws. Qed.

#[local] Hint Resolve parseTimestamp_formattingFrame : frames.
#[local] Hint Resolve parseTimestamp_throwsOnly resolveUserName_throwsOnly : throws.

Lemma formatAsCsv_formattingFrame (rt : JsRuntime) (channelName : string)
    (messages : list MessageWithReplies) :
  Preserves formattingFrame (formatAsCsv rt channelName messages).
Proof.
  pose proof formattingFrame_refl. pose proof formattingFrame_trans.
  unfold formatAsCsv, csvMessageRows, csvReplyRow, csvMessageFields, csvReplyFields,
    dateToISOString.
  frame.
Qed.

Lemma formatAsMarkdown_formattingFrame (rt : JsRuntime) (channelName : string)
    (messages : list MessageWithReplies) :
  Preserves formattingFrame (formatAsMarkdown rt channelName messages).
Proof.
  pose proof formattingFrame_refl. pose proof formattingFrame_trans.
  unfold formatAsMarkdown. frame.
Qed.

Lemma formatAsYaml_formattingFrame (rt : JsRuntime) (channelName : string)
    (messages : list MessageWithReplies) :
  Preserves formattingFrame (formatAsYaml rt channelName messages).
Proof.
  pose proof formattingFrame_refl. pose proof formattingFrame_trans.
  unfold formatAsYaml, nowISOString. frame.
Qed.

Lemma formatAsCsv_throwsOnly (rt : JsRuntime) (channelName : string)
    (messages : list MessageWithReplies) :
  ThrowsOnly invalidTime (formatAsCsv rt channelName messages).
Proof.
  unfold formatAsCsv, csvMessageRows, csvReplyRow, csvMessageFields, csvReplyFields,
    dateToISOString.
  throws; reflexivity.
Qed.

Lemma formatAsMarkdown_throwsOnly (rt : JsRuntime) (channelName : string)
    (messages : list MessageWithReplies) :
  ThrowsOnly (λ _, False) (formatAsMarkdown rt channelName messages).
Proof. unfold formatAsMarkdown. throws. Qed.

Lemma formatAsYaml_throwsOnly (rt : JsRuntime) (channelName : string)
    (messages : list MessageWithReplies) :
  ThrowsOnly (λ _, False) (formatAsYaml rt channelName messages).
Proof. unfold formatAsYaml, nowISOString. throws. Qed.

(** ** The lines of the delimited format *)

Lemma resolveUserName_clock (m : SlackMessage) (w : World) :
  clock (resolveUserName m w).2 = clock w.
Proof.
  destruct (resolveUserName_formattingFrame m w) as ((_ & _ & Hc) & _). exact Hc.
Qed.

Lemma dateOfTs_clock (rt : JsRuntime) (w w' : World) (t : option string) :
  clock w' = clock w → dateOfTs rt w' t = dateOfTs rt w t.
Proof. unfold dateOfTs. intros ->. reflexivity. Qed.

Lemma timesOf_clock (rt : JsRuntime) (w w' : World)
    (entries : list (SlackMessage * string)) (times : list Z) :
  clock w' = clock w → timesOf rt w' entries times ↔ timesOf rt w entries times.
Proof.
  intros Hc. unfold timesOf.
  split; intros H; eapply Forall2_impl; try exact H; intros entry t <-;
    [symmetry|]; apply dateOfTs_clock; exact Hc.
Qed.

(** The fields of the row of a root message: when they are returned, and
    what they are. *)
Lemma csvMessageFields_returns (rt : JsRuntime) (channelName : string) (m : SlackMessage)
    (w w' : World) (fields : list string) :
  csvMessageFields rt channelName m w = (Returned fields, w') ↔
  ∃ t n, dateOfTs rt w (ts m) = Some t ∧ resolveUserName m w = (Returned n, w') ∧
         fields = escapeCsv <$>
           [ toISOString rt t; channelName; n; sanitizeText (Js.nullish (text m) "");
             Js.nullish (thread_ts m) "";
             Js.numToString (Some (default 0 (reply_count m))) ].
Proof.
  unfold csvMessageFields. rewrite bind_run, parseTimestamp_run, bind_run.
  destruct (resolveUserName m w) as [[n|e|] w1]; cbv beta iota.
  - unfold dateToISOString. destruct (dateOfTs rt w (ts m)) as [t|].
    + rewrite bind_run, !ret_run. split.
      * intros [= <- <-]. exists t, n. done.
      * intros (t' & n' & [= <-] & [= <- <-] & ->). reflexivity.
    + split; [discriminate | intros (? & ? & ? & _); discriminate].
  - split; [discriminate | intros (? & ? & _ & ? & _); discriminate].
  - split; [discriminate | intros (? & ? & _ & ? & _); discriminate].
Qed.

Lemma csvReplyFields_returns (rt : JsRuntime) (channelName : string) (m : SlackMessage)
    (w w' : World) (fields : list string) :
  csvReplyFields rt channelName m w = (Returned fields, w') ↔
  ∃ t n, dateOfTs rt w (ts m) = Some t ∧ resolveUserName m w = (Returned n, w') ∧
         fields = escapeCsv <$>
           [ toISOString rt t; channelName; n; sanitizeText (Js.nullish (text m) "");
             Js.nullish (thread_ts m) ""; "0" ].
Proof.
  unfold csvReplyFields. rewrite bind_run, parseTimestamp_run, bind_run.
  destruct (resolveUserName m w) as [[n|e|] w1]; cbv beta iota.
  - unfold dateToISOString. destruct (dateOfTs rt w (ts m)) as [t|].
    + rewrite bind_run, !ret_run. split.
      * intros [= <- <-]. exists t, n. done.
      * intros (t' & n' & [= <-] & [= <- <-] & ->). reflexivity.
    + split; [discriminate | intros (? & ? & ? & _); discriminate].
  - split; [discriminate | intros (? & ? & _ & ? & _); discriminate].
  - split; [discriminate | intros (? & ? & _ & ? & _); discriminate].
Qed.

Lemma resolveUserNames_cons (m : SlackMessage) (ms : list SlackMessage)
    (w w' : World) (names : list string) :
  resolveUserNames (m :: ms) w = (Returned names, w') ↔
  ∃ n ns w1, resolveUserName m w = (Returned n, w1) ∧
             resolveUserNames ms w1 = (Returned ns, w') ∧ names = n :: ns.
Proof.
  change (resolveUserNames (m :: ms))
    with (n ← resolveUserName m; ns ← resolveUserNames ms; mret (n :: ns)).
  rewrite bind_run.
  destruct (resolveUserName m w) as [[n|e|] w1]; cbv beta iota.
  - rewrite bind_run.
    destruct (resolveUserNames ms w1) as [[ns|e|] w2] eqn:Hns; cbv beta iota.
    + rewrite ret_run. split.
      * intros [= <- <-]. exists n, ns, w1. done.
      * intros (n' & ns' & w1' & [= <- <-] & Hns' & ->).
        rewrite Hns in Hns'. injection Hns' as <- <-. reflexivity.
    + split; [discriminate | intros (? & ? & ? & [= <- <-] & ? & _); congruence].
    + split; [discriminate | intros (? & ? & ? & [= <- <-] & ? & _); congruence].
  - split; [discriminate | intros (? & ? & ? & ? & _); discriminate].
  - split; [discriminate | intros (? & ? & ? & ? & _); discriminate].
Qed.

Lemma resolveUserNames_clock (ms : list SlackMessage) :
  ∀ w, clock (resolveUserNames ms w).2 = clock w.
Proof.
  induction ms as [|m ms IH]; intros w; [reflexivity|].
  change (resolveUserNames (m :: ms))
    with (n ← resolveUserName m; ns ← resolveUserNames ms; mret (n :: ns)).
  rewrite bind_run. pose proof (resolveUserName_clock m w) as Hm.
  destruct (resolveUserName m w) as [[n|e|] w1]; cbv beta iota; cbn [snd] in Hm |- *;
    [|exact Hm..].
  rewrite bind_run. specialize (IH w1).
  destruct (resolveUserNames ms w1) as [[ns|e|] w2]; cbv beta iota; rewrite ?ret_run;
    cbn [snd] in IH |- *; congruence.
Qed.

Lemma resolveUserNames_app (l1 l2 : list SlackMessage) :
  ∀ (w w' : World) (names : list string),
    resolveUserNames (l1 ++ l2) w = (Returned names, w') ↔
    ∃ n1 n2 w1, resolveUserNames l1 w = (Returned n1, w1) ∧
                resolveUserNames l2 w1 = (Returned n2, w') ∧ names = n1 ++ n2.
Proof.
  induction l1 as [|m l1 IH]; intros w w' names.
  - simpl app. split.
    + intros H. exists [], names, w. done.
    + intros (n1 & n2 & w1 & [= <- <-] & H & ->). exact H.
  - change ((m :: l1) ++ l2) with (m :: (l1 ++ l2)). rewrite !resolveUserNames_cons. split.
    + intros (n & ns & w1 & Hm & Hrest & ->).
      apply IH in Hrest as (n1 & n2 & w2 & H1 & H2 & ->).
      exists (n :: n1), n2, w2. split; [|done].
      apply resolveUserNames_cons. exists n, n1, w1. done.
    + intros (n1 & n2 & w2 & H1 & H2 & ->).
      apply resolveUserNames_cons in H1 as (n & ns & w1 & Hm & Hrest & ->).
      exists n, (ns ++ n2), w1. split; [exact Hm|]. split; [|reflexivity].
      apply IH. exists ns, n2, w2. done.
Qed.

Lemma resolveUserNames_length (ms : list SlackMessage) :
  ∀ (w w' : World) (names : list string),
    resolveUserNames ms w = (Returned names, w') → length names = length ms.
Proof.
  induction ms as [|m ms IH]; intros w w' names.
  - intros [= <- <-]. reflexivity.
  - intros (n & ns & w1 & _ & Hrest & ->)%resolveUserNames_cons.
    simpl. f_equal. exact (IH _ _ _ Hrest).
Qed.

Lemma csvLines_app (rt : JsRuntime) (channelName : string)
    (e1 e2 : list (SlackMessage * string)) :
  ∀ (t1 t2 : list Z) (n1 n2 : list string),
    length t1 = length e1 → length n1 = length e1 →
    csvLines rt channelName (e1 ++ e2) (t1 ++ t2) (n1 ++ n2) =
      csvLines rt channelName e1 t1 n1 ++ csvLines rt channelName e2 t2 n2.
Proof.
  induction e1 as [|e e1 IH]; intros [|t t1] t2 [|n n1] n2 Ht Hn; try discriminate.
  - reflexivity.
  - simpl. f_equal. apply IH; [by injection Ht | by injection Hn].
Qed.

(** The inner loop of [formatAsCsv], over the replies of a message. *)
Lemma forEach_csvReplyRow_lines (rt : JsRuntime) (channelName : string)
    (rs : list SlackMessage) :
  ∀ (rows rows' : list string) (w w' : World),
    forEach rs (csvReplyRow rt channelName) rows w = (Returned rows', w') ↔
    ∃ times names,
      timesOf rt w ((λ reply, (reply, "0")) <$> rs) times ∧
      resolveUserNames rs w = (Returned names, w') ∧
      rows' = rows ++ csvLines rt channelName ((λ reply, (reply, "0")) <$> rs) times names.
Proof.
  induction rs as [|r rs IH]; intros rows rows' w w'.
  - rewrite forEach_nil. split.
    + intros [= <- <-]. exists [], []. split; [constructor|]. by rewrite app_nil_r.
    + intros (times & names & _ & [= <- <-] & ->). by rewrite app_nil_r.
  - rewrite forEach_cons, bind_run. unfold csvReplyRow at 1. rewrite bind_run. split.
    + destruct (csvReplyFields rt channelName r w) as [[fields|e|] w1] eqn:Hf;
        [|discriminate..].
      apply csvReplyFields_returns in Hf as (t & n & Ht & Hn & ->).
      rewrite ret_run. intros Hrest.
      apply IH in Hrest as (times & names & Htimes & Hnames & ->).
      exists (t :: times), (n :: names). split; [|split].
      * constructor; [exact Ht|].
        apply (timesOf_clock rt w w1); [|exact Htimes].
        pose proof (resolveUserName_clock r w) as Hc. rewrite Hn in Hc. exact Hc.
      * apply resolveUserNames_cons. exists n, names, w1. done.
      * rewrite <- app_assoc. reflexivity.
    + intros (times & names & Htimes & Hnames & ->).
      apply resolveUserNames_cons in Hnames as (n & ns & w1 & Hn & Hns & ->).
      rewrite fmap_cons in Htimes. apply Forall2_cons_inv_l in Htimes
        as (t & ts' & Ht & Htimes & ->).
      assert (csvReplyFields rt channelName r w
              = (Returned (escapeCsv <$>
                   [ toISOString rt t; channelName; n;
                     sanitizeText (Js.nullish (text r) "");
                     Js.nullish (thread_ts r) ""; "0" ]), w1)) as ->
        by (apply csvReplyFields_returns; exists t, n; done).
      rewrite ret_run. apply IH. exists ts', ns. split; [|split; [exact Hns|]].
      * apply (timesOf_clock rt w w1); [|exact Htimes].
        pose proof (resolveUserName_clock r w) as Hc. rewrite Hn in Hc. exact Hc.
      * rewrite <- app_assoc. reflexivity.
Qed.

Lemma csvEntries_cons (mr : MessageWithReplies) (ms : list MessageWithReplies) :
  csvEntries (mr :: ms) =
    (message mr, Js.numToString (Some (default 0 (reply_count (message mr)))))
      :: ((λ reply, (reply, "0")) <$> replies mr) ++ csvEntries ms.
Proof. reflexivity. Qed.

Lemma fst_replyEntries (rs : list SlackMessage) :
  fst <$> ((λ reply : SlackMessage, (reply, "0")) <$> rs) = rs.
Proof. induction rs as [|r rs IH]; [reflexivity|]. simpl. f_equal. exact IH. Qed.

(** The outer loop of [formatAsCsv]. *)
Lemma forEach_csvMessageRows_lines (rt : JsRuntime) (channelName : string)
    (messages : list MessageWithReplies) :
  ∀ (rows rows' : list string) (w w' : World),
    forEach messages (csvMessageRows rt channelName) rows w = (Returned rows', w') ↔
    ∃ times names,
      timesOf rt w (csvEntries messages) times ∧
      resolveUserNames (fst <$> csvEntries messages) w = (Returned names, w') ∧
      rows' = rows ++ csvLines rt channelName (csvEntries messages) times names.
Proof.
  induction messages as [|mr ms IH]; intros rows rows' w w'.
  - rewrite forEach_nil. split.
    + intros [= <- <-]. exists [], []. split; [constructor|]. by rewrite app_nil_r.
    + intros (times & names & _ & [= <- <-] & ->). by rewrite app_nil_r.
  - rewrite forEach_cons, bind_run. unfold csvMessageRows at 1. rewrite bind_run.
    rewrite csvEntries_cons, fmap_cons, fmap_app, fst_replyEntries. cbn [fst].
    split.
    + destruct (csvMessageFields rt channelName (message mr) w) as [[fields|e|] w1] eqn:Hf;
        [|discriminate..].
      apply csvMessageFields_returns in Hf as (t & n & Ht & Hn & ->).
      destruct (forEach (replies mr) _ _ w1) as [[rows1|e|] w2] eqn:Hr; [|discriminate..].
      apply forEach_csvReplyRow_lines in Hr as (tr & nr & Htr & Hnr & ->).
      intros Hrest. apply IH in Hrest as (tm & nm & Htm & Hnm & ->).
      assert (clock w1 = clock w) as Hc1
        by (pose proof (resolveUserName_clock (message mr) w) as Hc; rewrite Hn in Hc;
            exact Hc).
      assert (clock w2 = clock w1) as Hc2
        by (pose proof (resolveUserNames_clock (replies mr) w1) as Hc; rewrite Hnr in Hc;
            exact Hc).
      exists (t :: tr ++ tm), (n :: nr ++ nm). split; [|split].
      * constructor; [exact Ht|]. apply Forall2_app.
        -- apply (timesOf_clock rt w w1); assumption.
        -- apply (timesOf_clock rt w w2); [congruence | assumption].
      * apply resolveUserNames_cons. exists n, (nr ++ nm), w1.
        split; [exact Hn|]. split; [|reflexivity].
        apply resolveUserNames_app. exists nr, nm, w2. done.
      * change (csvLines rt channelName (?e :: ?es) (t :: ?tt) (n :: ?nn))
          with (csvLine rt channelName t n e :: csvLines rt channelName es tt nn).
        rewrite csvLines_app.
        -- rewrite <- !app_assoc. reflexivity.
        -- symmetry. exact (Forall2_length _ _ _ Htr).
        -- rewrite (resolveUserNames_length _ _ _ _ Hnr), length_fmap. reflexivity.
    + intros (times & names & Htimes & Hnames & ->).
      apply Forall2_cons_inv_l in Htimes as (t & times' & Ht & Htimes & ->).
      apply Forall2_app_inv_l in Htimes as (tr & tm & Htr & Htm & ->).
      apply resolveUserNames_cons in Hnames as (n & ns & w1 & Hn & Hns & ->).
      apply resolveUserNames_app in Hns as (nr & nm & w2 & Hnr & Hnm & ->).
      assert (clock w1 = clock w) as Hc1
        by (pose proof (resolveUserName_clock (message mr) w) as Hc; rewrite Hn in Hc;
            exact Hc).
      assert (clock w2 = clock w1) as Hc2
        by (pose proof (resolveUserNames_clock (replies mr) w1) as Hc; rewrite Hnr in Hc;
            exact Hc).
      assert (csvMessageFields rt channelName (message mr) w
              = (Returned (escapeCsv <$>
                   [ toISOString rt t; channelName; n;
                     sanitizeText (Js.nullish (text (message mr)) "");
                     Js.nullish (thread_ts (message mr)) "";
                     Js.numToString (Some (default 0 (reply_count (message mr)))) ]), w1))
        as -> by (apply csvMessageFields_returns; exists t, n; done).
      assert (forEach (replies mr) (csvReplyRow rt channelName)
                (rows ++ [csvLine rt channelName t n
                            (message mr,
                             Js.numToString (Some (default 0 (reply_count (message mr)))))])
                w1
              = (Returned ((rows ++ [csvLine rt channelName t n
                            (message mr,
                             Js.numToString (Some (default 0 (reply_count (message mr)))))])
                           ++ csvLines rt channelName
                                ((λ reply, (reply, "0")) <$> replies mr) tr nr), w2)) as Hr.
      { apply forEach_csvReplyRow_lines. exists tr, nr. split; [|done].
        apply (timesOf_clock rt w w1); assumption. }
      unfold csvLine at 1 2 in Hr. cbn [fst snd] in Hr.
      cbv beta iota. rewrite Hr.
      apply IH. exists tm, nm. split; [|split; [exact Hnm|]].
      * apply (timesOf_clock rt w w2); [congruence | assumption].
      * change (csvLines rt channelName (?e :: ?es) (t :: ?tt) (n :: ?nn))
          with (csvLine rt channelName t n e :: csvLines rt channelName es tt nn).
        rewrite csvLines_app.
        -- rewrite <- !app_assoc. reflexivity.
        -- symmetry. exact (Forall2_length _ _ _ Htr).
        -- rewrite (resolveUserNames_length _ _ _ _ Hnr), length_fmap. reflexivity.
Qed.

(** C7, as the code has it. What [formatAsCsv] returns is the header and
    one line per message and reply, in turn. Each line is six fields
    joined by commas: the ISO date of the message, the channel name, the
    name its author resolves to, its text, its thread anchor and its reply
    count (the digit 0 for a reply). Every field is escaped: the quotes in
    it are doubled and, exactly when it holds a quote, a comma or a line
    feed, the whole is wrapped in quotes. Only the text is made a single
    line before that: each CR LF, CR or LF becomes one space and the result
    is trimmed; the date, the channel, the author, the thread anchor and
    the count are escaped as they are, line breaks kept. [formatAsCsv]
    returns exactly when every date is valid and every author resolves.
    With Q for the double quote, the text a,QbQ<LF>c renders as
    Qa,QQbQQ cQ. *)
Theorem csv_field_rendering (rt : JsRuntime) (channelName : string)
    (messages : list MessageWithReplies) (w w' : World) (out : string) :
  (∀ v, escapeCsv v = if needsQuotes v then dq +:+ doubleQuotes v +:+ dq else v) ∧
  (∀ v, needsQuotes v = true ↔
        Js.includes Js.QUOTE v = true ∨ Js.includes Js.COMMA v = true
        ∨ Js.includes Js.LF v = true) ∧
  (∀ t, sanitizeText t = Js.trim (replaceLineBreaks t) ∧
        Js.includes Js.LF (sanitizeText t) = false ∧
        Js.includes Js.CR (sanitizeText t) = false) ∧
  (formatAsCsv rt channelName messages w = (Returned out, w') ↔
   ∃ (times : list Z) (names : list string),
     timesOf rt w (csvEntries messages) times ∧
     resolveUserNames (fst <$> csvEntries messages) w = (Returned names, w') ∧
     out = Js.join (EOL rt)
             (csvHeader :: csvLines rt channelName (csvEntries messages) times names)) ∧
  (∀ t userName entry,
     csvLine rt channelName t userName entry =
       Js.join ","
         [ escapeCsv (toISOString rt t); escapeCsv channelName; escapeCsv userName;
           escapeCsv (sanitizeText (Js.nullish (text entry.1) ""));
           escapeCsv (Js.nullish (thread_ts entry.1) ""); escapeCsv entry.2 ]) ∧
  escapeCsv (sanitizeText ("a," +:+ dq +:+ "b" +:+ dq +:+ nl +:+ "c"))
    = dq +:+ "a," +:+ dq +:+ dq +:+ "b" +:+ dq +:+ dq +:+ " c" +:+ dq.
Proof.
  split; [exact escapeCsv_cases|].
  split; [exact needsQuotes_iff|].
  split; [intros t; split; [reflexivity | apply sanitizeText_single_line]|].
  split; [|split; reflexivity].
  unfold formatAsCsv. rewrite bind_run. split.
  - destruct (forEach messages _ _ w) as [[rows|e|] w1] eqn:Hloop; [|discriminate..].
    rewrite ret_run. intros [= <- <-].
    apply forEach_csvMessageRows_lines in Hloop as (times & names & Ht & Hn & ->).
    exists times, names. done.
  - intros (times & names & Ht & Hn & ->).
    assert (forEach messages (csvMessageRows rt channelName) [csvHeader] w
            = (Returned ([csvHeader]
                           ++ csvLines rt channelName (csvEntries messages) times names), w'))
      as -> by (apply forEach_csvMessageRows_lines; exists times, names; done).
    reflexivity.
Qed.

Lemma csv_field_rendering_witness :
  formatAsCsv modelRuntime "general"
    [{| message := Examples.botMessage; replies := [] |}] emptyWorld =
  (Returned (Js.join nl
     [ csvHeader;
       "2023-11-14T22:13:20.000Z,general," +:+ dq +:+ "x" +:+ nl +:+ "y" +:+ dq
         +:+ ",a,,0" ]), emptyWorld).
Proof.
  destruct (csv_field_rendering modelRuntime "general"
              [{| message := Examples.botMessage; replies := [] |}] emptyWorld emptyWorld
              (Js.join nl
                 [ csvHeader;
                   "2023-11-14T22:13:20.000Z,general," +:+ dq +:+ "x" +:+ nl +:+ "y" +:+ dq
                     +:+ ",a,,0" ])) as (_ & _ & _ & [_ Hrun] & _).
  apply Hrun. exists [1700000000000], ["x" +:+ nl +:+ "y"].
  split; [repeat constructor|]. split; reflexivity.
Defined.

(** C7, as the specification words it, fails: the line feed of an author
    name is kept (and the field wrapped in quotes), where collapsing every
    field would give a space; and the text is trimmed. *)
Lemma csv_fields_not_all_collapsed :
  (csvMessageFields modelRuntime "general" Examples.botMessage emptyWorld).1
    = Returned [ "2023-11-14T22:13:20.000Z"; "general";
                 dq +:+ "x" +:+ nl +:+ "y" +:+ dq; "a"; ""; "0" ] ∧
  Spec.renderField ("x" +:+ nl +:+ "y") = "x y" ∧
  Spec.renderField " a" = " a" ∧
  (csvMessageFields modelRuntime "general" Examples.botMessage emptyWorld).1
    ≠ Returned (Spec.renderField <$>
        [ "2023-11-14T22:13:20.000Z"; "general"; "x" +:+ nl +:+ "y"; " a"; ""; "0" ]) ∧
  (formatAsCsv modelRuntime "general"
     [{| message := Examples.botMessage; replies := [] |}] emptyWorld).1
    = Returned (Js.join nl
        [ csvHeader;
          "2023-11-14T22:13:20.000Z,general," +:+ dq +:+ "x" +:+ nl +:+ "y" +:+ dq
            +:+ ",a,,0" ]) ∧
  (formatAsCsv modelRuntime "general"
     [{| message := Examples.botMessage; replies := [] |}] emptyWorld).1
    ≠ Returned (Js.join nl
        [ csvHeader;
          Js.join "," (Spec.renderField <$>
            [ "2023-11-14T22:13:20.000Z"; "general"; "x" +:+ nl +:+ "y"; " a"; ""; "0" ]) ]).
Proof. repeat split; vm_compute; congruence. Qed.

(** X1. Rendering, in any of the three formats, writes no file, leaves the
    channel maps and every script but that of [users.info] as they are,
    makes no remote call other than [users.info], and never changes a
    non-empty name already held for a user: an author renders under the
    same name throughout. *)
Theorem formatting_frame (rt : JsRuntime) (channelName : string)
    (messages : list MessageWithReplies) (w : World) :
  formattingFrame w (formatAsCsv rt channelName messages w).2 ∧
  formattingFrame w (formatAsMarkdown rt channelName messages w).2 ∧
  formattingFrame w (formatAsYaml rt channelName messages w).2.
Proof.
  split; [apply formatAsCsv_formattingFrame|].
  split; [apply formatAsMarkdown_formattingFrame | apply formatAsYaml_formattingFrame].
Qed.

(** X2. The sectioned and the hierarchical renderer never throw; the only
    error the delimited renderer throws is the RangeError of
    [toISOString], Invalid time value. *)
Theorem formatting_failures (rt : JsRuntime) (channelName : string)
    (messages : list MessageWithReplies) (w : World) (e : JsError) :
  (formatAsMarkdown rt channelName messages w).1 ≠ Thrown e ∧
  (formatAsYaml rt channelName messages w).1 ≠ Thrown e ∧
  ((formatAsCsv rt channelName messages w).1 = Thrown e → e = Error "Invalid time value").
Proof.
  split; [intros H; exact (formatAsMarkdown_throwsOnly rt channelName messages w e H)|].
  split; [intros H; exact (formatAsYaml_throwsOnly rt channelName messages w e H)|].
  apply formatAsCsv_throwsOnly.
Qed.

(** X3. A message whose [ts] is set and is not the time of a valid date
    makes the delimited renderer throw once its author is resolved, while
    the sectioned renderer goes on and prints NaN for the date and the
    time. *)
Theorem formatAsCsv_invalid_timestamp (rt : JsRuntime) (channelName : string)
    (mr : MessageWithReplies) (rest : list MessageWithReplies) (w : World) :
  Js.truthy (ts (message mr)) = true →
  timeValueOfSeconds rt (Js.nullish (ts (message mr)) "") = None →
  (resolveUserName (message mr) w).1 ≠ Pending →
  (formatAsCsv rt channelName (mr :: rest) w).1 = Thrown (Error "Invalid time value") ∧
  formatDate rt (dateOfTs rt w (ts (message mr))) = "NaN-NaN-NaN" ∧
  formatTime rt (dateOfTs rt w (ts (message mr))) = "NaN:NaN" ∧
  ∀ e, (formatAsMarkdown rt channelName (mr :: rest) w).1 ≠ Thrown e.
Proof.
  intros Hts Hbad Hname.
  assert (dateOfTs rt w (ts (message mr)) = None) as Hd
    by (unfold dateOfTs; rewrite Hts; exact Hbad).
  split; [|rewrite Hd; repeat split;
            intros e H; exact (formatAsMarkdown_throwsOnly rt channelName _ w e H)].
  unfold formatAsCsv. rewrite bind_run, forEach_cons, bind_run.
  unfold csvMessageRows at 1. rewrite bind_run.
  unfold csvMessageFields. rewrite bind_run, parseTimestamp_run, bind_run.
  destruct (resolveUserName (message mr) w) as [[n|e|] w1] eqn:Hn.
  - rewrite Hd. reflexivity.
  - exfalso. exact (resolveUserName_throwsOnly (λ _, False) _ w e (f_equal fst Hn)).
  - contradiction.
Qed.

Lemma formatAsCsv_invalid_timestamp_witness :
  (formatAsCsv modelRuntime "general" [FormatExample.broken] emptyWorld).1
    = Thrown (Error "Invalid time value") ∧
  (formatAsMarkdown modelRuntime "general" [FormatExample.broken] emptyWorld).1
    = Returned (Js.join nl
        ["# #general"; ""; "## NaN-NaN-NaN"; ""; "### NaN:NaN @bot:B7"; "hi"; ""]).
Proof.
  destruct (formatAsCsv_invalid_timestamp modelRuntime "general" FormatExample.broken []
              emptyWorld) as (H & _).
  - reflexivity.
  - reflexivity.
  - discriminate.
  - split; [exact H | vm_compute; reflexivity].
Defined.

(** * Fetching: failures, order and delays *)

(** One turn of the history loop on a reply that fails. *)
Lemma fetchHistoryPage_fails (channelId : string) (oldest latest cursor : option string)
    (acc : list SlackMessage) (h : HistoryHandler) (rest : list HistoryHandler)
    (err : JsError) (w : World) :
  conversations_history (remote w) = h :: rest →
  pageFailure "fetch history"
    (h {| channel := channelId; cursor := cursor; limit := 200;
          oldest := oldest; latest := latest |}) = Some err →
  (fetchHistoryPage channelId oldest latest (cursor, acc) w).1 = Thrown err.
Proof.
  intros Hscript Hfail.
  unfold fetchHistoryPage, conversationsHistory, await. munfold. simpl.
  rewrite Hscript. simpl. unfold pageFailure in Hfail.
  destruct (h _) as [p|e]; simpl.
  - destruct (ok p); simpl; [discriminate|]. injection Hfail as <-. reflexivity.
  - congruence.
Qed.

Lemma fetchHistory_loop_fails (channelId : string) (oldest latest : option string)
    (pages : list ConversationsHistoryResponse) :
  ∀ (cursor : option string) (acc : list SlackMessage) (fuel : nat)
    (h : HistoryHandler) (rest : list HistoryHandler) (err : JsError) (w : World),
    conversations_history (remote w) = (canned <$> pages) ++ h :: rest →
    Forall (λ p, ok p = true ∧ Js.truthy (next_cursor p) = true) pages →
    (∀ req, pageFailure "fetch history" (h req) = Some err) →
    (length pages < fuel)%nat →
    (doWhile fuel (fetchHistoryPage channelId oldest latest) (cursor, acc) w).1 = Thrown err.
Proof.
  induction pages as [|p ps IH]; intros cursor acc fuel h rest err w Hscript Hpages Hfail Hfuel;
    (destruct fuel as [|fuel]; [simpl in Hfuel; lia|]); rewrite doWhile_S, bind_run;
    simpl in Hscript.
  - pose proof (fetchHistoryPage_fails channelId oldest latest cursor acc h rest err w
                  Hscript (Hfail _)) as Hrun.
    destruct (fetchHistoryPage _ _ _ _ w) as [o w1]. simpl in Hrun. subst o. reflexivity.
  - apply Forall_cons_1 in Hpages as [[Hok Hc] Hpages].
    rewrite (fetchHistoryPage_ok _ _ _ _ _ _ _ _ _ Hscript eq_refl Hok), Hc.
    apply (IH _ _ fuel h rest); [reflexivity | assumption.. | simpl in Hfuel; lia].
Qed.

(** X4. [fetchHistory] gives no partial result: when, after ok pages with
    cursors, a call of the history endpoint rejects or answers a page that
    is not ok, it throws that rejection, or Failed to fetch history with
    the reason of the page (unknown_error when the page names none). *)
Theorem fetchHistory_fails_fast (rt : JsRuntime) (channelId : string)
    (startDate endDate : option Z) (pages : list ConversationsHistoryResponse)
    (h : HistoryHandler) (rest : list HistoryHandler) (err : JsError) (w : World) :
  conversations_history (remote w) = (canned <$> pages) ++ h :: rest →
  Forall (λ p, ok p = true ∧ Js.truthy (next_cursor p) = true) pages →
  (∀ req, pageFailure "fetch history" (h req) = Some err) →
  (fetchHistory rt channelId startDate endDate w).1 = Thrown err.
Proof.
  intros Hscript Hpages Hfail.
  unfold fetchHistory. rewrite bind_run.
  rewrite (fetchHistoryPages_any_bound _ _ _ (S (length (conversations_history (remote w)))))
    by lia.
  pose proof (fetchHistory_loop_fails channelId (secondsToString <$> startDate)
                (secondsToString <$> endDate) pages None []
                (S (length (conversations_history (remote w)))) h rest err w
                Hscript Hpages Hfail) as Hloop.
  destruct (doWhile _ _ _ w) as [o w1]. simpl in Hloop.
  rewrite Hloop by (rewrite Hscript, length_app, length_fmap; simpl; lia).
  reflexivity.
Qed.

Lemma fetchHistory_fails_fast_witness :
  (fetchHistory modelRuntime "C1" None None FetchExample.brokenHistory).1
    = Thrown (Error "Failed to fetch history: ratelimited").
Proof.
  apply (fetchHistory_fails_fast modelRuntime "C1" None None
           [Examples.okResponse [WindowExample.at_ "300.0"] (Some "p2")]
           (canned (Examples.failedResponse "ratelimited")) []).
  - reflexivity.
  - repeat constructor.
  - intros req. reflexivity.
Defined.

(** One turn of the replies loop, by the reply it takes. *)
Lemma fetchThreadRepliesPage_run (channelId threadTs : string) (cursor : option string)
    (acc : list SlackMessage) (w : World) :
  fetchThreadRepliesPage channelId threadTs (cursor, acc) w =
  let call := CallConversationsReplies channelId threadTs cursor in
  match conversations_replies (remote w) with
  | [] => (Pending, set_events (λ l, l ++ [call]) w)
  | Rejects e :: rest => (Thrown e, afterReplies [call] rest w)
  | Resolves p :: rest =>
      (if ok p then
         Returned (if Js.truthy (next_cursor p)
                   then Continue (Js.orUndefined (next_cursor p), acc ++ pageItems p)
                   else Break (acc ++ pageItems p))
       else Thrown (Error ("Failed to fetch thread replies: "
                             +:+ Js.nullish (error p) "unknown_error")),
       afterReplies [call] rest w)
  end.
Proof.
  unfold fetchThreadRepliesPage, conversationsReplies, await. munfold. simpl.
  destruct (conversations_replies (remote w)) as [|[p|e] rest]; simpl; try reflexivity.
  destruct (ok p); simpl; [|reflexivity].
  rewrite truthy_orUndefined. destruct (Js.truthy (next_cursor p)); reflexivity.
Qed.

Lemma afterReplies_twice (e1 e2 : list Event)
    (r1 r2 : list (Reply ConversationsRepliesResponse)) (w : World) :
  afterReplies e2 r2 (afterReplies e1 r1 w) = afterReplies (e1 ++ e2) r2 w.
Proof.
  unfold afterReplies, set_remote, set_events, with_conversations_replies. simpl.
  rewrite <- app_assoc. reflexivity.
Qed.

Lemma fetchThreadReplies_loop_pages (channelId threadTs : string)
    (pages : list ConversationsRepliesResponse) :
  ∀ (cursor : option string) (acc : list SlackMessage) (fuel : nat)
    (last : ConversationsRepliesResponse)
    (rest : list (Reply ConversationsRepliesResponse)) (w : World),
    completeFetch (conversations_replies (remote w)) pages last rest →
    (length pages < fuel)%nat →
    doWhile fuel (fetchThreadRepliesPage channelId threadTs) (cursor, acc) w =
      (Returned (acc ++ concat (pageItems <$> pages ++ [last])),
       afterReplies (repliesRequests channelId threadTs (cursor :: (next_cursor <$> pages)))
         rest w).
Proof.
  induction pages as [|p ps IH];
    intros cursor acc fuel last rest w (Hscript & Hpages & Hok & Hlast) Hfuel;
    (destruct fuel as [|fuel]; [simpl in Hfuel; lia|]);
    rewrite doWhile_S, bind_run, fetchThreadRepliesPage_run; cbv zeta;
    simpl in Hscript; rewrite Hscript.
  - rewrite Hok, Hlast, ret_run. simpl. rewrite app_nil_r. reflexivity.
  - apply Forall_cons_1 in Hpages as [[Hp Hc] Hpages].
    rewrite Hp, Hc, orUndefined_truthy by exact Hc.
    rewrite (IH _ _ fuel last rest); [| by repeat split | simpl in Hfuel; lia].
    rewrite afterReplies_twice. simpl. rewrite <- app_assoc. reflexivity.
Qed.

Lemma fetchThreadReplies_loop_fails (channelId threadTs : string)
    (pages : list ConversationsRepliesResponse) :
  ∀ (cursor : option string) (acc : list SlackMessage) (fuel : nat)
    (r : Reply ConversationsRepliesResponse)
    (rest : list (Reply ConversationsRepliesResponse)) (err : JsError) (w : World),
    conversations_replies (remote w) = (Resolves <$> pages) ++ r :: rest →
    Forall (λ p, ok p = true ∧ Js.truthy (next_cursor p) = true) pages →
    pageFailure "fetch thread replies" r = Some err →
    (length pages < fuel)%nat →
    (doWhile fuel (fetchThreadRepliesPage channelId threadTs) (cursor, acc) w).1 = Thrown err.
Proof.
  induction pages as [|p ps IH];
    intros cursor acc fuel r rest err w Hscript Hpages Hfail Hfuel;
    (destruct fuel as [|fuel]; [simpl in Hfuel; lia|]);
    rewrite doWhile_S, bind_run, fetchThreadRepliesPage_run; cbv zeta;
    simpl in Hscript; rewrite Hscript.
  - unfold pageFailure in Hfail. destruct r as [p|e].
    + destruct (ok p); [discriminate|]. injection Hfail as <-. reflexivity.
    + injection Hfail as <-. reflexivity.
  - apply Forall_cons_1 in Hpages as [[Hp Hc] Hpages].
    rewrite Hp, Hc.
    apply (IH _ _ fuel r rest); [reflexivity | assumption.. | simpl in Hfuel; lia].
Qed.

(** X5. When the replies endpoint answers with ok pages of which all but
    the last carry a cursor, [fetchThreadReplies] returns the items of the
    pages in the order delivered, not sorted, less every item whose [ts] is
    the thread anchor, after one request per page, each for that anchor and
    with the cursor of the page before. *)
Theorem fetchThreadReplies_pages_in_order (channelId threadTs : string)
    (pages : list ConversationsRepliesResponse) (last : ConversationsRepliesResponse)
    (rest : list (Reply ConversationsRepliesResponse)) (w : World) :
  completeFetch (conversations_replies (remote w)) pages last rest →
  fetchThreadReplies channelId threadTs w =
    (Returned (filter (λ m, ts m ≠ Some threadTs) (concat (pageItems <$> pages ++ [last]))),
     afterReplies (repliesRequests channelId threadTs (None :: (next_cursor <$> pages)))
       rest w).
Proof.
  intros Hc. unfold fetchThreadReplies, pagesLeft. rewrite bind_run, gets_run.
  cbv beta iota. rewrite bind_run.
  rewrite (fetchThreadReplies_loop_pages _ _ pages None [] _ last rest w Hc).
  - reflexivity.
  - destruct Hc as (-> & _). rewrite !length_app, length_fmap, length_app. simpl.
    unfold ConversationsRepliesResponse. lia.
Qed.

Lemma fetchThreadReplies_pages_in_order_witness :
  fetchThreadReplies "C1" "1700000000.000100" ThreadExample.world =
    (Returned [ThreadExample.first; ThreadExample.second],
     afterReplies
       (repliesRequests "C1" "1700000000.000100" [None; Some "next"]) []
       ThreadExample.world).
Proof.
  apply (fetchThreadReplies_pages_in_order "C1" "1700000000.000100"
           [Examples.okResponse [ThreadExample.root; ThreadExample.first] (Some "next")]
           (Examples.okResponse [ThreadExample.second] (Some "")) []).
  split; [reflexivity|]. split; [repeat constructor|]. split; reflexivity.
Defined.

Lemma fetchThreadReplies_fails (channelId threadTs : string)
    (pages : list ConversationsRepliesResponse) (r : Reply ConversationsRepliesResponse)
    (rest : list (Reply ConversationsRepliesResponse)) (err : JsError) (w : World) :
  conversations_replies (remote w) = (Resolves <$> pages) ++ r :: rest →
  Forall (λ p, ok p = true ∧ Js.truthy (next_cursor p) = true) pages →
  pageFailure "fetch thread replies" r = Some err →
  (fetchThreadReplies channelId threadTs w).1 = Thrown err.
Proof.
  intros Hscript Hpages Hfail.
  unfold fetchThreadReplies, pagesLeft. rewrite bind_run, gets_run. cbv beta iota.
  rewrite bind_run.
  pose proof (fetchThreadReplies_loop_fails channelId threadTs pages None []
                (S (length (conversations_replies (remote w)))) r rest err w
                Hscript Hpages Hfail) as Hloop.
  destruct (doWhile _ _ _ w) as [o w1]. simpl in Hloop.
  rewrite Hloop by (rewrite Hscript, length_app, length_fmap; simpl; lia).
  reflexivity.
Qed.

Lemma forEach_expandThread_plain (channelId : string) (toFetch : nat)
    (pre : list SlackMessage) :
  Forall (λ m, anchorsThread m = false) pre →
  ∀ (i : nat) (acc : list MessageWithReplies) (w : World),
    forEach pre (expandThread channelId toFetch) (i, acc) w =
      (Returned (i, acc ++ ((λ m, {| message := m; replies := [] |}) <$> pre)), w).
Proof.
  induction 1 as [|m ms Hm _ IH]; intros i acc w.
  - rewrite forEach_nil. simpl. rewrite app_nil_r. reflexivity.
  - rewrite forEach_cons, bind_run. unfold expandThread at 1. rewrite Hm, ret_run.
    rewrite IH, fmap_cons, <- app_assoc. reflexivity.
Qed.

Lemma forEach_app {A St} (l1 l2 : list A) (body : A → St → M St) (s : St) (w : World) :
  forEach (l1 ++ l2) body s w = (forEach l1 body s ≫= λ s', forEach l2 body s') w.
Proof.
  revert s w. induction l1 as [|x l1 IH]; intros s w.
  - reflexivity.
  - change ((x :: l1) ++ l2) with (x :: (l1 ++ l2)).
    rewrite !forEach_cons, !bind_run.
    destruct (body x s w) as [[s1|e|] w1]; [|reflexivity..].
    rewrite IH, bind_run. reflexivity.
Qed.

(** X6. [expandThreads] gives no partial result: when the fetch of the
    replies of the first message that anchors a thread meets, after ok
    pages with cursors, a rejection or a page that is not ok, the whole
    expansion throws that rejection, or Failed to fetch thread replies with
    the reason of the page. *)
Theorem expandThreads_fails_fast (channelId : string)
    (pre : list SlackMessage) (m : SlackMessage) (post : list SlackMessage)
    (pages : list ConversationsRepliesResponse) (r : Reply ConversationsRepliesResponse)
    (rest : list (Reply ConversationsRepliesResponse)) (err : JsError) (w : World) :
  Forall (λ x, anchorsThread x = false) pre →
  anchorsThread m = true →
  conversations_replies (remote w) = (Resolves <$> pages) ++ r :: rest →
  Forall (λ p, ok p = true ∧ Js.truthy (next_cursor p) = true) pages →
  pageFailure "fetch thread replies" r = Some err →
  (expandThreads channelId (pre ++ m :: post) w).1 = Thrown err.
Proof.
  intros Hpre Hm Hscript Hpages Hfail.
  unfold expandThreads. rewrite bind_run, forEach_app, bind_run.
  rewrite forEach_expandThread_plain by exact Hpre.
  rewrite forEach_cons, bind_run. unfold expandThread at 1. rewrite Hm, bind_run.
  pose proof (fetchThreadReplies_fails channelId (Js.nullish (thread_ts m) "")
                pages r rest err w Hscript Hpages Hfail) as Hf.
  destruct (fetchThreadReplies _ _ w) as [o w1]. simpl in Hf. subst o. reflexivity.
Qed.

Lemma expandThreads_fails_fast_witness :
  (expandThreads "C1" [plainMessage; ThreadExample.root]
     (set_remote (with_conversations_replies
        [ Resolves (Examples.okResponse [ThreadExample.root] (Some "next"));
          Resolves (Examples.failedResponse "thread_not_found") ]) emptyWorld)).1
  = Thrown (Error "Failed to fetch thread replies: thread_not_found").
Proof.
  apply (expandThreads_fails_fast "C1" [plainMessage] ThreadExample.root []
           [Examples.okResponse [ThreadExample.root] (Some "next")]
           (Resolves (Examples.failedResponse "thread_not_found")) []).
  - repeat constructor.
  - reflexivity.
  - reflexivity.
  - repeat constructor.
  - reflexivity.
Defined.






(** ** The order of the collected history *)

Lemma ascending_nil {A} (lt : A → A → bool) : ascending lt [].
Proof. intros i j a b _ H. discriminate. Qed.

Lemma ascending_cons {A} (lt : A → A → bool) (x : A) (l : list A) :
  ascending lt (x :: l) ↔ Forall (λ b, lt b x = false) l ∧ ascending lt l.
Proof.
  split.
  - intros H. split.
    + apply Forall_lookup. intros j b Hb. apply (H O (S j) x b); [lia | done | done].
    + intros i j a b Hij Ha Hb. apply (H (S i) (S j) a b); [lia | done | done].
  - intros [Hx Hl] i j a b Hij Ha Hb.
    destruct j as [|j]; [lia|]. simpl in Hb.
    destruct i as [|i]; simpl in Ha.
    + injection Ha as <-. rewrite Forall_lookup in Hx. exact (Hx j b Hb).
    + apply (Hl i j a b); [lia | done | done].
Qed.

Lemma consistentOn_asym {A} (lt : A → A → bool) (U : list A) (a b : A) :
  consistentOn lt U → a ∈ U → b ∈ U → lt a b = true → lt b a = false.
Proof.
  intros Hc Ha Hb. unfold consistentOn in Hc. rewrite Forall_forall in Hc.
  specialize (Hc a Ha). rewrite Forall_forall in Hc. apply (Hc b Hb).
Qed.

Lemma consistentOn_trans {A} (lt : A → A → bool) (U : list A) (a b c : A) :
  consistentOn lt U → a ∈ U → b ∈ U → c ∈ U →
  lt a b = false → lt b c = false → lt a c = false.
Proof.
  intros Hc Ha Hb Hcc. unfold consistentOn in Hc. rewrite Forall_forall in Hc.
  specialize (Hc a Ha). rewrite Forall_forall in Hc.
  destruct (Hc b Hb) as [_ H]. rewrite Forall_forall in H. apply (H c Hcc).
Qed.

Lemma insertSorted_ascending {A} (lt : A → A → bool) (U : list A) (x : A) (l : list A) :
  consistentOn lt U → x ∈ U → Forall (λ y, y ∈ U) l →
  ascending lt l → ascending lt (Js.insertSorted lt x l).
Proof.
  intros Hc Hx. induction l as [|y l IH]; intros HU Hl; simpl.
  - apply ascending_cons. split; [constructor | apply ascending_nil].
  - apply Forall_cons_1 in HU as [Hy HU].
    apply ascending_cons in Hl as [Hyl Hl].
    destruct (lt y x) eqn:Hyx.
    + apply ascending_cons. split; [|apply IH; assumption].
      rewrite insertSorted_Permutation. constructor; [|exact Hyl].
      apply (consistentOn_asym lt U y x); assumption.
    + destruct (lt x y) eqn:Hxy.
      * apply ascending_cons. split; [|apply ascending_cons; split; assumption].
        constructor; [exact Hyx|].
        rewrite Forall_forall in Hyl, HU |- *. intros z Hz.
        apply (consistentOn_trans lt U z y x); auto.
      * apply ascending_cons. split; [|apply IH; assumption].
        rewrite insertSorted_Permutation. constructor; [exact Hxy | exact Hyl].
Qed.

Lemma sortBy_ascending {A} (lt : A → A → bool) (l : list A) :
  consistentOn lt l → ascending lt (Js.sortBy lt l).
Proof.
  intros Hc. unfold Js.sortBy.
  assert (∀ rest acc, Forall (λ y, y ∈ l) rest → Forall (λ y, y ∈ l) acc →
            ascending lt acc →
            ascending lt (foldl (λ acc x, Js.insertSorted lt x acc) acc rest)) as H.
  { induction rest as [|x rest IH]; intros acc Hrest Hacc Hasc; simpl; [exact Hasc|].
    apply Forall_cons_1 in Hrest as [Hx Hrest].
    apply IH; [exact Hrest | | ].
    - rewrite insertSorted_Permutation. by constructor.
    - apply (insertSorted_ascending lt l); assumption. }
  apply H; [by apply Forall_forall | constructor | apply ascending_nil].
Qed.

(** ** What the fetch of the history returns *)

Lemma insertSorted_last {A} (lt : A → A → bool) (x : A) (l : list A) :
  Forall (λ y, lt x y = false) l → Js.insertSorted lt x l = l ++ [x].
Proof.
  induction l as [|y l IH]; intros Hl; [reflexivity|].
  apply Forall_cons_1 in Hl as [Hy Hl]. simpl. rewrite Hy, IH by exact Hl.
  destruct (lt y x); reflexivity.
Qed.

Lemma ascending_app_cons {A} (lt : A → A → bool) (acc : list A) (x : A) (rest : list A) :
  ascending lt (acc ++ x :: rest) → Forall (λ y, lt x y = false) acc.
Proof.
  intros Hasc. apply Forall_lookup. intros i y Hy.
  apply (Hasc i (length acc) y x).
  - apply lookup_lt_Some in Hy. exact Hy.
  - rewrite lookup_app_l by (apply lookup_lt_Some in Hy; exact Hy). exact Hy.
  - rewrite lookup_app_r by lia. rewrite Nat.sub_diag. reflexivity.
Qed.

(** A list in which no element is strictly before an earlier one is left
    as it is by the sort. *)
Lemma sortBy_ascending_id {A} (lt : A → A → bool) (l : list A) :
  ascending lt l → Js.sortBy lt l = l.
Proof.
  unfold Js.sortBy.
  assert (∀ rest acc, ascending lt (acc ++ rest) →
            foldl (λ acc x, Js.insertSorted lt x acc) acc rest = acc ++ rest) as H.
  { induction rest as [|x rest IH]; intros acc Hasc; simpl; [by rewrite app_nil_r|].
    rewrite insertSorted_last by (eapply ascending_app_cons; exact Hasc).
    rewrite IH; rewrite <- app_assoc; [reflexivity | exact Hasc]. }
  intros Hasc. apply (H l []). exact Hasc.
Qed.

(** C1, as the code has it. When the history endpoint answers with ok pages
    of which all but the last carry a cursor, [fetchHistory] ends on the
    last page: it has made one request per page, the first without a
    cursor and each later one with the cursor of the page before, and it
    leaves the rest of the script untouched. What it returns is not the
    items in page order but those items sorted by their numeric [ts]: a
    rearrangement of them, ascending when the comparison behaves as an
    order on them. It is the items in page order, each page in the order
    delivered, when no item is strictly before an earlier one. *)
Theorem fetchHistory_pages_sorted (rt : JsRuntime) (channelId : string)
    (startDate endDate : option Z)
    (pages : list ConversationsHistoryResponse) (last : ConversationsHistoryResponse)
    (rest : list HistoryHandler) (w : World) :
  conversations_history (remote w) = (canned <$> pages ++ [last]) ++ rest →
  Forall (λ p, ok p = true) (pages ++ [last]) →
  Forall (λ p, Js.truthy (next_cursor p) = true) pages →
  Js.truthy (next_cursor last) = false →
  let items := concat (pageItems <$> pages ++ [last]) in
  fetchHistory rt channelId startDate endDate w =
    (Returned (Js.sortBy (tsBefore rt) items),
     afterHistory
       (historyRequests channelId (secondsToString <$> startDate)
          (secondsToString <$> endDate) (None :: (next_cursor <$> pages)))
       rest w) ∧
  Js.sortBy (tsBefore rt) items ≡ₚ items ∧
  (consistentOn (tsBefore rt) items → ascending (tsBefore rt) (Js.sortBy (tsBefore rt) items)) ∧
  (ascending (tsBefore rt) items → Js.sortBy (tsBefore rt) items = items).
Proof.
  intros Hscript Hok Hmore Hlast items.
  split; [|split; [apply sortBy_Permutation|split; [apply sortBy_ascending|apply sortBy_ascending_id]]].
  unfold fetchHistory. rewrite bind_run.
  rewrite (fetchHistoryPages_complete channelId _ _ pages last rest w Hscript Hok Hmore Hlast).
  reflexivity.
Qed.

Lemma fetchHistory_pages_sorted_witness :
  fetchHistory modelRuntime "C1" None None WindowExample.pagedWorld =
    (Returned [WindowExample.at_ "100.0"; WindowExample.at_ "200.0"; WindowExample.at_ "300.0"],
     afterHistory (historyRequests "C1" None None [None; Some "p2"]) []
       WindowExample.pagedWorld).
Proof.
  destruct (fetchHistory_pages_sorted modelRuntime "C1" None None
           [Examples.okResponse [WindowExample.at_ "300.0"; WindowExample.at_ "200.0"] (Some "p2")]
           (Examples.okResponse [WindowExample.at_ "100.0"] None) []
           WindowExample.pagedWorld) as (Hrun & _).
  - reflexivity.
  - repeat constructor.
  - repeat constructor.
  - reflexivity.
  - rewrite Hrun. vm_compute. reflexivity.
Defined.

(** C1, as the specification words it, fails: two ok pages, the second
    without a cursor, that deliver 300.0 and 200.0, then 100.0, as the
    remote does, newest first. [fetchHistory] returns 100.0, 200.0, 300.0,
    which is not the items in page order. *)
Lemma fetchHistory_not_in_page_order :
  let pages := [Examples.okResponse [WindowExample.at_ "300.0"; WindowExample.at_ "200.0"]
                  (Some "p2")] in
  let last := Examples.okResponse [WindowExample.at_ "100.0"] None in
  conversations_history (remote WindowExample.pagedWorld) = canned <$> pages ++ [last] ∧
  Forall (λ p, ok p = true) (pages ++ [last]) ∧
  Forall (λ p, Js.truthy (next_cursor p) = true) pages ∧
  Js.truthy (next_cursor last) = false ∧
  concat (pageItems <$> pages ++ [last])
    = [WindowExample.at_ "300.0"; WindowExample.at_ "200.0"; WindowExample.at_ "100.0"] ∧
  (fetchHistory modelRuntime "C1" None None WindowExample.pagedWorld).1
    = Returned [WindowExample.at_ "100.0"; WindowExample.at_ "200.0"; WindowExample.at_ "300.0"] ∧
  (fetchHistory modelRuntime "C1" None None WindowExample.pagedWorld).1
    ≠ Returned (concat (pageItems <$> pages ++ [last])).
Proof.
  cbv zeta. split; [reflexivity|]. split; [repeat constructor|].
  split; [repeat constructor|]. split; [reflexivity|]. split; [reflexivity|].
  split; vm_compute; congruence.
Qed.

(** ** The window of the fetch *)

Lemma answers_length (channelId : string) (oldest latest : option string)
    (handlers : list HistoryHandler) :
  ∀ (cursor : option string) (pages : list ConversationsHistoryResponse),
    answers channelId oldest latest cursor handlers pages → length handlers = length pages.
Proof.
  induction handlers as [|h hs IH]; intros cursor [|p ps]; simpl; try done.
  intros [_ H]. f_equal. exact (IH _ _ H).
Qed.

(** The loop of [fetchHistory] over handlers that answer with a complete
    fetch, whatever they make of the request. *)
Lemma fetchHistory_loop_answers (channelId : string) (oldest latest : option string)
    (pages : list ConversationsHistoryResponse) :
  ∀ (cursor : option string) (acc : list SlackMessage) (fuel : nat)
    (handlers rest : list HistoryHandler)
    (last : ConversationsHistoryResponse) (w : World),
    conversations_history (remote w) = handlers ++ rest →
    answers channelId oldest latest cursor handlers (pages ++ [last]) →
    Forall (λ p, ok p = true ∧ Js.truthy (next_cursor p) = true) pages →
    ok last = true → Js.truthy (next_cursor last) = false →
    (length pages < fuel)%nat →
    doWhile fuel (fetchHistoryPage channelId oldest latest) (cursor, acc) w =
      (Returned (acc ++ concat (pageItems <$> pages ++ [last])),
       afterHistory
         (historyRequests channelId oldest latest (cursor :: (next_cursor <$> pages)))
         rest w).
Proof.
  induction pages as [|p ps IH];
    intros cursor acc fuel handlers rest last w Hscript Hans Hpages Hok Hlast Hfuel;
    (destruct fuel as [|fuel]; [simpl in Hfuel; lia|]); rewrite doWhile_S, bind_run;
    destruct handlers as [|h hs]; try (simpl in Hans; contradiction);
    simpl in Hans; destruct Hans as [Hh Hans]; simpl in Hscript.
  - destruct hs; [|simpl in Hans; contradiction].
    rewrite (fetchHistoryPage_ok _ _ _ _ _ _ _ _ _ Hscript Hh Hok).
    rewrite Hlast, ret_run. simpl. rewrite app_nil_r. reflexivity.
  - apply Forall_cons_1 in Hpages as [[Hp Hc] Hpages].
    rewrite (fetchHistoryPage_ok _ _ _ _ _ _ _ _ _ Hscript Hh Hp).
    rewrite Hc, orUndefined_truthy by exact Hc.
    rewrite (IH _ _ fuel hs rest last); [| reflexivity | assumption.. | simpl in Hfuel; lia].
    rewrite afterHistory_twice. simpl. rewrite <- app_assoc. reflexivity.
Qed.


(** ** The numeral of a bound reads back to the bound *)

Lemma readDigits_linear (s : string) :
  ∀ (acc : Z) (count : nat) (f : Z) (k : nat) (rest : string),
    ModelRuntime.readDigits s 0 O = (f, k, rest) →
    ModelRuntime.readDigits s acc count = (acc * 10 ^ Z.of_nat k + f, (count + k)%nat, rest).
Proof.
  induction s as [|c r IH]; intros acc count f k rest; simpl.
  - intros [= <- <- <-]. rewrite Nat.add_0_r. change (Z.of_nat 0) with 0.
    rewrite Z.pow_0_r, Z.mul_1_r, Z.add_0_r. reflexivity.
  - destruct (ModelRuntime.isDigit c).
    + destruct (ModelRuntime.readDigits r 0 O) as [[f' k'] rest'] eqn:Hr.
      rewrite (IH (0 * 10 + ModelRuntime.digitValue c) 1%nat f' k' rest' eq_refl).
      intros [= <- <- <-].
      rewrite (IH (acc * 10 + ModelRuntime.digitValue c) (S count) f' k' rest' eq_refl).
      replace (S count + k')%nat with (count + S k')%nat by lia.
      replace ((acc * 10 + ModelRuntime.digitValue c) * 10 ^ Z.of_nat k' + f')
        with (acc * 10 ^ Z.of_nat (S k')
              + ((0 * 10 + ModelRuntime.digitValue c) * 10 ^ Z.of_nat k' + f'));
        [reflexivity|].
      rewrite Nat2Z.inj_succ, Z.pow_succ_r by lia. ring.
    + intros [= <- <- <-]. rewrite Nat.add_0_r. change (Z.of_nat 0) with 0.
      rewrite Z.pow_0_r, Z.mul_1_r, Z.add_0_r. reflexivity.
Qed.

Lemma pretty_N_char_digit (d : N) :
  (d < 10)%N →
  ModelRuntime.isDigit (pretty_N_char d) = true ∧
  ModelRuntime.digitValue (pretty_N_char d) = Z.of_N d.
Proof.
  intros Hd.
  assert (d = 0 ∨ d = 1 ∨ d = 2 ∨ d = 3 ∨ d = 4 ∨ d = 5 ∨ d = 6 ∨ d = 7 ∨ d = 8 ∨ d = 9)%N
    as H by lia.
  repeat (destruct H as [->|H]; [split; reflexivity|]). subst. split; reflexivity.
Qed.

Lemma pretty_N_go_app (x : N) :
  ∀ s rest : string, pretty_N_go x s +:+ rest = pretty_N_go x (s +:+ rest).
Proof.
  induction (N.lt_wf_0 x) as [x _ IH]. intros s rest.
  destruct (decide (x = 0)%N) as [->|Hx]; [by rewrite !pretty_N_go_0|].
  rewrite (pretty_N_go_step x s), (pretty_N_go_step x (s +:+ rest)) by lia.
  rewrite IH by (apply N.div_lt; lia). reflexivity.
Qed.

(** The digits of [x] ahead of [s] are read as [x]. *)
Lemma readDigits_pretty_N_go (x : N) :
  ∀ (s : string) (acc : Z) (count : nat),
    ∃ k : nat,
      ModelRuntime.readDigits (pretty_N_go x s) acc count =
        ModelRuntime.readDigits s (acc * 10 ^ Z.of_nat k + Z.of_N x) (count + k)%nat ∧
      (x ≠ 0%N → k ≠ O).
Proof.
  induction (N.lt_wf_0 x) as [x _ IH]. intros s acc count.
  destruct (decide (x = 0)%N) as [->|Hx].
  { exists O. rewrite pretty_N_go_0. split; [|done]. f_equal; lia. }
  rewrite pretty_N_go_step by lia.
  destruct (IH (x / 10)%N (N.div_lt x 10 ltac:(lia) ltac:(lia))
              (String (pretty_N_char (x mod 10)) s) acc count) as (k & Hk & _).
  exists (S k). split; [|done]. rewrite Hk. simpl.
  destruct (pretty_N_char_digit (x mod 10)%N) as [-> ->];
    [apply N.mod_lt; lia|].
  f_equal; [|lia].
  rewrite Nat2Z.inj_succ, Z.pow_succ_r by lia.
  rewrite (N.div_mod x 10) at 3 by lia. rewrite N2Z.inj_add, N2Z.inj_mul. ring.
Qed.

Lemma pretty_N_go_head (x : N) :
  ∀ s : string, x ≠ 0%N →
    ∃ c r, pretty_N_go x s = String c r ∧ ModelRuntime.isDigit c = true.
Proof.
  induction (N.lt_wf_0 x) as [x _ IH]. intros s Hx.
  rewrite pretty_N_go_step by lia.
  destruct (decide (x / 10 = 0)%N) as [->|Hq].
  - rewrite pretty_N_go_0. eexists _, _. split; [reflexivity|].
    apply pretty_N_char_digit, N.mod_lt. lia.
  - apply IH; [apply N.div_lt; lia | exact Hq].
Qed.

Lemma pretty_Z_nonneg (q : Z) :
  0 ≤ q → pretty q = if decide (q = 0) then "0" else pretty_N_go (Z.to_N q) "".
Proof.
  intros Hq. destruct q as [|p|p]; [reflexivity | | lia].
  destruct (decide (Z.pos p = 0)) as [|_]; [lia|]. reflexivity.
Qed.

(** The numeral of a natural number ahead of [rest]: it starts with a
    digit and is read as the number. *)
Lemma readDigits_pretty (q : Z) (rest : string) :
  0 ≤ q →
  (∃ c r, pretty q +:+ rest = String c r ∧ ModelRuntime.isDigit c = true) ∧
  ∃ n : nat, n ≠ O ∧
    ModelRuntime.readDigits (pretty q +:+ rest) 0 O = ModelRuntime.readDigits rest q n.
Proof.
  intros Hq. rewrite pretty_Z_nonneg by exact Hq.
  destruct (decide (q = 0)) as [->|Hne].
  - split; [eexists _, _; split; reflexivity|]. exists 1%nat. split; [done | reflexivity].
  - assert (Z.to_N q ≠ 0%N) as Hx by lia.
    rewrite pretty_N_go_app. change ("" +:+ rest) with rest.
    split; [apply pretty_N_go_head, Hx|].
    destruct (readDigits_pretty_N_go (Z.to_N q) rest 0 O) as (k & Hk & Hk0).
    exists k. split; [apply Hk0, Hx|]. rewrite Hk. f_equal; lia.
Qed.

Lemma fractionDigits_read (r : Z) :
  0 < r < 1000 →
  ∃ (ds : string) (f : Z) (k : nat),
    fractionDigits r = String "." ds ∧
    ModelRuntime.readDigits ds 0 O = (f, k, "") ∧ f * 1000 = r * 10 ^ Z.of_nat k.
Proof.
  intros Hr.
  assert (forallb (λ r,
            match fractionDigits r with
            | String c ds =>
                Ascii.eqb c "." &&
                match ModelRuntime.readDigits ds 0 O with
                | (f, k, EmptyString) => f * 1000 =? r * 10 ^ Z.of_nat k
                | _ => false
                end
            | EmptyString => false
            end) (seqZ 1 999) = true) as Hall by (vm_compute; reflexivity).
  rewrite forallb_forall in Hall.
  specialize (Hall r). rewrite <- list_elem_of_In, elem_of_seqZ in Hall.
  specialize (Hall ltac:(lia)).
  destruct (fractionDigits r) as [|c ds]; [discriminate|].
  apply andb_true_iff in Hall as [Hc Hds]. apply Ascii.eqb_eq in Hc as ->.
  destruct (ModelRuntime.readDigits ds 0 O) as [[f k] [|]] eqn:Hrd; [|discriminate].
  apply Z.eqb_eq in Hds. exists ds, f, k.
  split; [reflexivity|]. split; [exact Hrd | exact Hds].
Qed.

(** Read as decimal seconds, the numeral of a date is its time value to
    the millisecond. *)
Lemma secondsToString_reads_back (t : Z) :
  ModelRuntime.timeValue (secondsToString t) = Some t.
Proof.
  unfold secondsToString. cbv zeta.
  set (q := Z.abs t / 1000). set (r := Z.abs t mod 1000).
  assert (0 ≤ q) as Hq by (apply Z.div_pos; lia).
  assert (0 ≤ r < 1000) as Hr by (apply Z.mod_pos_bound; lia).
  assert (Z.abs t = q * 1000 + r) as Habs
    by (unfold q, r; rewrite (Z.div_mod (Z.abs t) 1000) at 1 by lia; ring).
  destruct (readDigits_pretty q (fractionDigits r) Hq)
    as [(c & body & Hhead & Hdigit) (n & Hn & Hread)].
  assert (Ascii.eqb c "-" = false) as Hc.
  { apply Ascii.eqb_neq. intros ->. discriminate. }
  assert (∀ sign : Z,
            match ModelRuntime.readDigits (pretty q +:+ fractionDigits r) 0 O with
            | (whole, n, rest) =>
                match rest with
                | String c r =>
                    if Ascii.eqb c "."%char then
                      let '(all, k, _) := ModelRuntime.readDigits r whole O in
                      if ((n + k)%nat =? 0)%nat then None else Some (sign * all, k)
                    else if (n =? 0)%nat then None else Some (sign * whole, O)
                | EmptyString => if (n =? 0)%nat then None else Some (sign * whole, O)
                end
            end ≫= (λ '(m, k), Some (Z.quot (m * 1000) (10 ^ Z.of_nat k)))
            = Some (sign * (q * 1000 + r))) as Hbody.
  { intros sign. rewrite Hread.
    destruct (decide (r = 0)) as [Hr0|Hr0].
    - rewrite Hr0. change (fractionDigits 0) with "". simpl ModelRuntime.readDigits.
      cbv beta iota. destruct n; [done|]. simpl. f_equal.
      rewrite Z.quot_1_r. ring.
    - destruct (fractionDigits_read r ltac:(lia)) as (ds & f & k & -> & Hds & Hf).
      simpl ModelRuntime.readDigits. cbv beta iota.
      change (Ascii.eqb "." ".") with true. cbv iota.
      rewrite (readDigits_linear ds q O f k "" Hds).
      replace (n + (0 + k) =? 0)%nat with false
        by (symmetry; apply Nat.eqb_neq; lia).
      simpl. f_equal.
      replace (sign * (q * 10 ^ Z.of_nat k + f) * 1000)
        with (sign * (q * 1000 * 10 ^ Z.of_nat k + f * 1000)) by ring.
      rewrite Hf.
      replace (sign * (q * 1000 * 10 ^ Z.of_nat k + r * 10 ^ Z.of_nat k))
        with (sign * (q * 1000 + r) * 10 ^ Z.of_nat k) by ring.
      apply Z.quot_mul. apply Z.pow_nonzero; lia. }
  unfold ModelRuntime.timeValue, ModelRuntime.readDecimal.
  destruct (t <? 0) eqn:Hneg.
  - change ("-" +:+ pretty q +:+ fractionDigits r)
      with (String "-" (pretty q +:+ fractionDigits r)).
    cbv beta iota. rewrite Ascii.eqb_refl. cbv beta iota.
    specialize (Hbody (-1)). apply Z.ltb_lt in Hneg.
    transitivity (Some (-1 * (q * 1000 + r))); [|f_equal; lia].
    rewrite <- Hbody.

    destruct (ModelRuntime.readDigits (pretty q +:+ fractionDigits r) 0 O) as [[whole n'] rest].
    destruct rest as [|c' r']; [destruct (n' =? 0)%nat; reflexivity|].
    destruct (Ascii.eqb c' "."); [|destruct (n' =? 0)%nat; reflexivity].
    destruct (ModelRuntime.readDigits r' whole O) as [[all k] ?].
    destruct (n' + k =? 0)%nat; reflexivity.
  - change ("" +:+ pretty q +:+ fractionDigits r) with (pretty q +:+ fractionDigits r).
    rewrite Hhead, Hc. rewrite <- Hhead.
    specialize (Hbody 1). apply Z.ltb_ge in Hneg.
    transitivity (Some (1 * (q * 1000 + r))); [|f_equal; lia].
    rewrite <- Hbody.
    destruct (ModelRuntime.readDigits (pretty q +:+ fractionDigits r) 0 O) as [[whole n'] rest].
    destruct rest as [|c' r']; [destruct (n' =? 0)%nat; reflexivity|].
    destruct (Ascii.eqb c' "."); [|destruct (n' =? 0)%nat; reflexivity].
    destruct (ModelRuntime.readDigits r' whole O) as [[all k] ?].
    destruct (n' + k =? 0)%nat; reflexivity.
Qed.


(** C6, as the code has it. [fetchHistory] has no filter of its own. With
    every page request it sends the two bounds, each as the decimal
    numeral of the seconds of the date, a numeral that reads back to the
    time value of the date to the millisecond; and it returns every
    message delivered in answer, sorted, none left out. So the history
    collected holds what the remote makes of the bounds. The replies of a
    thread are asked for without bounds and returned whatever their
    [ts]. *)
Theorem fetchHistory_window_sent (rt : JsRuntime) (channelId : string)
    (startDate endDate : option Z) (handlers rest : list HistoryHandler)
    (pages : list ConversationsHistoryResponse) (last : ConversationsHistoryResponse)
    (w : World) :
  conversations_history (remote w) = handlers ++ rest →
  answers channelId (secondsToString <$> startDate) (secondsToString <$> endDate) None
    handlers (pages ++ [last]) →
  Forall (λ p, ok p = true ∧ Js.truthy (next_cursor p) = true) pages →
  ok last = true → Js.truthy (next_cursor last) = false →
  let delivered := concat (pageItems <$> pages ++ [last]) in
  fetchHistory rt channelId startDate endDate w =
    (Returned (Js.sortBy (tsBefore rt) delivered),
     afterHistory
       (historyRequests channelId (secondsToString <$> startDate)
          (secondsToString <$> endDate) (None :: (next_cursor <$> pages)))
       rest w) ∧
  Js.sortBy (tsBefore rt) delivered ≡ₚ delivered ∧
  (∀ t : Z, ModelRuntime.timeValue (secondsToString t) = Some t) ∧
  (∀ (threadTs : string) (replyPages : list ConversationsRepliesResponse)
     (lastReplies : ConversationsRepliesResponse)
     (others : list (Reply ConversationsRepliesResponse)) (w1 : World),
     completeFetch (conversations_replies (remote w1)) replyPages lastReplies others →
     fetchThreadReplies channelId threadTs w1 =
       (Returned (filter (λ m, ts m ≠ Some threadTs)
                    (concat (pageItems <$> replyPages ++ [lastReplies]))),
        afterReplies
          (repliesRequests channelId threadTs (None :: (next_cursor <$> replyPages)))
          others w1)).
Proof.
  intros Hscript Hans Hpages Hok Hlast delivered.
  split; [|split; [apply sortBy_Permutation|split; [exact secondsToString_reads_back|]]].
  - unfold fetchHistory, fetchHistoryPages, pagesLeft.
    rewrite !bind_run. unfold gets at 1.
    rewrite (fetchHistory_loop_answers channelId _ _ pages None [] _ handlers rest last w
               Hscript Hans Hpages Hok Hlast).
    + reflexivity.
    + apply answers_length in Hans. rewrite Hscript, length_app, Hans, length_app.
      simpl. lia.
  - intros threadTs replyPages lastReplies others w1 Hc.
    unfold fetchThreadReplies, pagesLeft. rewrite bind_run, gets_run.
    cbv beta iota. rewrite bind_run.
    rewrite (fetchThreadReplies_loop_pages _ _ replyPages None [] _ lastReplies others w1 Hc).
    + reflexivity.
    + destruct Hc as (-> & _). rewrite !length_app, length_fmap, length_app. simpl.
      unfold ConversationsRepliesResponse. lia.
Qed.

Lemma fetchHistory_window_sent_witness :
  fetchHistory modelRuntime "C1" (Some 150000) (Some 250000) WindowExample.world =
    (Returned [WindowExample.at_ "200.0"],
     afterHistory (historyRequests "C1" (Some "150") (Some "250") [None]) []
       WindowExample.world).
Proof.
  destruct (fetchHistory_window_sent modelRuntime "C1" (Some 150000) (Some 250000)
              [WindowExample.serve WindowExample.store] [] []
              (Examples.okResponse [WindowExample.at_ "200.0"] None)
              WindowExample.world) as (Hrun & _).
  - reflexivity.
  - split; [vm_compute; reflexivity | exact I].
  - constructor.
  - reflexivity.
  - reflexivity.
  - rewrite Hrun. vm_compute. reflexivity.
Defined.

(** C6, as the specification words it, fails. Asked for the window from
    150 to 250, [fetchHistory] returns 100.0, 200.0 and 300.0 when the
    remote delivers them, its requests carrying the bounds. And against a
    remote that honours the window of each history request, the reply at
    300.0 to the message at 200.0 is collected by [expandThreads] and
    rendered. *)
Lemma window_not_enforced :
  fetchHistory modelRuntime "C1" (Some 150000) (Some 250000) WindowExample.pagedWorld =
    (Returned [WindowExample.at_ "100.0"; WindowExample.at_ "200.0"; WindowExample.at_ "300.0"],
     afterHistory (historyRequests "C1" (Some "150") (Some "250") [None; Some "p2"]) []
       WindowExample.pagedWorld) ∧
  WindowExample.within (Some "150") (Some "250") (WindowExample.at_ "100.0") = false ∧
  WindowExample.within (Some "150") (Some "250") (WindowExample.at_ "300.0") = false ∧
  (let collected :=
     fetchHistory modelRuntime "C1" (Some 150000) (Some 250000) RepliesExample.world in
   let expanded := expandThreads "C1" [RepliesExample.root] collected.2 in
   collected.1 = Returned [RepliesExample.root] ∧
   expanded.1 = Returned [{| message := RepliesExample.root;
                             replies := [RepliesExample.late] |}] ∧
   WindowExample.within (Some "150") (Some "250") RepliesExample.late = false ∧
   (formatAsCsv modelRuntime "general"
      [{| message := RepliesExample.root; replies := [RepliesExample.late] |}]
      expanded.2).1
     = Returned (Js.join nl
         [ csvHeader;
           "1970-01-01T00:03:20.000Z,general,alice,root,200.0,1";
           "1970-01-01T00:05:00.000Z,general,bob,late,200.0,0" ])).
Proof. repeat split; vm_compute; reflexivity. Qed.

(** X8. What [fetchHistory] returns is a rearrangement of the messages
    delivered, each as often as delivered; and when the comparison of the
    numeric timestamps behaves as an order on those messages, it is
    ascending: no message is strictly before one placed ahead of it. *)
Theorem fetchHistory_sorted (rt : JsRuntime) (channelId : string)
    (startDate endDate : option Z) (w w' : World) (sorted : list SlackMessage) :
  fetchHistory rt channelId startDate endDate w = (Returned sorted, w') →
  ∃ delivered,
    fetchHistoryPages channelId (secondsToString <$> startDate)
      (secondsToString <$> endDate) w = (Returned delivered, w') ∧
    sorted ≡ₚ delivered ∧
    (consistentOn (tsBefore rt) delivered → ascending (tsBefore rt) sorted).
Proof.
  unfold fetchHistory. rewrite bind_run.
  destruct (fetchHistoryPages _ _ _ w) as [[delivered|e|] w1]; [|discriminate..].
  rewrite ret_run. intros [= <- <-]. exists delivered.
  split; [reflexivity|]. split; [apply sortBy_Permutation | apply sortBy_ascending].
Qed.

Lemma fetchHistory_sorted_witness :
  (fetchHistory modelRuntime "C1" None None WindowExample.pagedWorld).1
    = Returned [WindowExample.at_ "100.0"; WindowExample.at_ "200.0"; WindowExample.at_ "300.0"] ∧
  ascending (tsBefore modelRuntime)
    [WindowExample.at_ "100.0"; WindowExample.at_ "200.0"; WindowExample.at_ "300.0"].
Proof.
  assert (fetchHistory modelRuntime "C1" None None WindowExample.pagedWorld
    = (Returned [WindowExample.at_ "100.0"; WindowExample.at_ "200.0"; WindowExample.at_ "300.0"],
       (fetchHistory modelRuntime "C1" None None WindowExample.pagedWorld).2)) as Hrun
    by (vm_compute; reflexivity).
  split; [rewrite Hrun; reflexivity|].
  destruct (fetchHistory_sorted _ _ _ _ _ _ _ Hrun) as (delivered & Hpages & _ & Hasc).
  assert (delivered
    = [WindowExample.at_ "300.0"; WindowExample.at_ "200.0"; WindowExample.at_ "100.0"]) as ->.
  { assert ((fetchHistoryPages "C1" None None WindowExample.pagedWorld).1
      = Returned [WindowExample.at_ "300.0"; WindowExample.at_ "200.0"; WindowExample.at_ "100.0"])
      as H by (vm_compute; reflexivity).
    simpl in Hpages. rewrite Hpages in H. simpl in H. congruence. }
  apply Hasc.
  unfold consistentOn.
  repeat first [apply Forall_nil | apply Forall_cons | split];
    vm_compute; intros; congruence.
Defined.

(** * The user list *)

Lemma forEach_members (members : list SlackUser) (w : World) :
  forEach members (λ member _,
    if Js.truthy (user_id member)
    then cacheUser (Js.nullish (user_id member) "") (extractDisplayName member)
    else mret ()) () w =
  (Returned (), set_userCache (withMembers members) w).
Proof.
  revert w. induction members as [|m ms IH]; intros w.
  - rewrite forEach_nil. destruct w; reflexivity.
  - rewrite forEach_cons, bind_run.
    destruct (Js.truthy (user_id m)) eqn:Hid.
    + rewrite cacheUser_run, IH. unfold withMembers. simpl. rewrite Hid. reflexivity.
    + rewrite ret_run, IH. unfold withMembers. simpl. rewrite Hid. reflexivity.
Qed.

(** One turn of the loop of [prefetchUsers], by the reply it takes. *)
Lemma prefetchUsersPage_run (cursor : option string) (w : World) :
  prefetchUsersPage cursor w =
  let call := CallUsersList cursor in
  match users_list (remote w) with
  | [] => (Pending, set_events (λ l, l ++ [call]) w)
  | Rejects e :: rest => (Thrown e, afterUsers [call] [] rest w)
  | Resolves p :: rest =>
      if ok p then
        (Returned (if Js.truthy (next_cursor p)
                   then Continue (Js.orUndefined (next_cursor p))
                   else Break true),
         afterUsers [call] (pageItems p) rest w)
      else (Returned (Break false), afterUsers [call] [] rest w)
  end.
Proof.
  unfold prefetchUsersPage, usersList, await. munfold. simpl.
  destruct (users_list (remote w)) as [|[p|e] rest]; simpl.
  - reflexivity.
  - destruct (ok p); simpl.
    + match goal with
      | |- context [forEach ?l ?b ?s ?x] =>
          change (forEach l b s x) with
            (forEach l (λ member _,
               if Js.truthy (user_id member)
               then cacheUser (Js.nullish (user_id member) "") (extractDisplayName member)
               else mret ()) () x)
      end.
      rewrite forEach_members. simpl. rewrite truthy_orUndefined.
      destruct (Js.truthy (next_cursor p)); reflexivity.
    + unfold afterUsers, withMembers. simpl.
      destruct w as [r f c ev uc n2i i2n cd]; reflexivity.
  - unfold afterUsers, withMembers. simpl.
    destruct w as [r f c ev uc n2i i2n cd]; reflexivity.
Qed.

Lemma withMembers_app (l1 l2 : list SlackUser) (cache : gmap string string) :
  withMembers (l1 ++ l2) cache = withMembers l2 (withMembers l1 cache).
Proof. unfold withMembers. apply foldl_app. Qed.

Lemma afterUsers_twice (e1 e2 : list Event) (m1 m2 : list SlackUser)
    (r1 r2 : list (Reply UsersListResponse)) (w : World) :
  afterUsers e2 m2 r2 (afterUsers e1 m1 r1 w) = afterUsers (e1 ++ e2) (m1 ++ m2) r2 w.
Proof.
  unfold afterUsers, set_userCache, set_remote, set_events, with_users_list. simpl.
  rewrite <- app_assoc, withMembers_app. reflexivity.
Qed.

(** The loop of [prefetchUsers] over ok pages with cursors, up to the reply
    that ends it. *)
Lemma prefetchUsers_loop (pages : list UsersListResponse) :
  ∀ (cursor : option string) (fuel : nat) (r : Reply UsersListResponse)
    (rest : list (Reply UsersListResponse)) (w : World),
    users_list (remote w) = (Resolves <$> pages) ++ r :: rest →
    Forall (λ p, ok p = true ∧ Js.truthy (next_cursor p) = true) pages →
    (∀ p, r = Resolves p → ok p = true → Js.truthy (next_cursor p) = false) →
    (length pages < fuel)%nat →
    doWhile fuel prefetchUsersPage cursor w =
      (match r with
       | Rejects e => Thrown e
       | Resolves p => Returned (ok p)
       end,
       afterUsers (usersRequests (cursor :: (next_cursor <$> pages)))
         (concat (pageItems <$> pages) ++
          match r with
          | Resolves p => if ok p then pageItems p else []
          | Rejects _ => []
          end) rest w).
Proof.
  induction pages as [|p ps IH]; intros cursor fuel r rest w Hscript Hpages Hend Hfuel;
    (destruct fuel as [|fuel]; [simpl in Hfuel; lia|]);
    rewrite doWhile_S, bind_run, prefetchUsersPage_run; cbv zeta;
    simpl in Hscript; rewrite Hscript.
  - destruct r as [p|e]; [|reflexivity].
    destruct (ok p) eqn:Hok; [|reflexivity].
    rewrite (Hend p eq_refl Hok). reflexivity.
  - apply Forall_cons_1 in Hpages as [[Hp Hc] Hpages].
    rewrite Hp, Hc, orUndefined_truthy by exact Hc.
    rewrite (IH _ fuel r rest); [| reflexivity | assumption.. | simpl in Hfuel; lia].
    rewrite afterUsers_twice. simpl. rewrite <- app_assoc. reflexivity.
Qed.

Lemma prefetchUsers_fetch_run (rt : JsRuntime) (forceRefresh : bool) (w : World) :
  forceRefresh = true ∨ cachedUsers rt w = None →
  prefetchUsers rt forceRefresh w =
  let loop := doWhile (S (length (users_list (remote w)))) prefetchUsersPage None w in
  match loop.1 with
  | Returned true => saveUserCacheToFile rt (userCache loop.2) loop.2
  | Returned false => (Returned (), loop.2)
  | Thrown e => (Thrown e, loop.2)
  | Pending => (Pending, loop.2)
  end.
Proof.
  intros Hfetch. cbv zeta. unfold prefetchUsers. rewrite bind_run.
  assert ((if negb forceRefresh then loadUserCacheFromFile rt else mret None) w
          = (Returned None, w)) as ->.
  { destruct Hfetch as [->| Hnone]; [reflexivity|].
    destruct forceRefresh; [reflexivity|].
    simpl. rewrite loadUserCacheFromFile_run, Hnone. reflexivity. }
  unfold pagesLeft. rewrite bind_run, gets_run. cbv beta iota. rewrite bind_run.
  destruct (doWhile _ prefetchUsersPage None w) as [[[]|e|] w1]; try reflexivity.
Qed.

(** X9. A page of the user list that is not ok does not make
    [prefetchUsers] fail: it returns, writes no snapshot, and keeps in the
    cache the members of the pages before. A call that rejects is not
    caught: [prefetchUsers] throws it, with the same cache and the files
    untouched. *)
Theorem prefetchUsers_failure (rt : JsRuntime) (forceRefresh : bool)
    (pages : list UsersListResponse) (r : Reply UsersListResponse)
    (rest : list (Reply UsersListResponse)) (w : World) :
  forceRefresh = true ∨ cachedUsers rt w = None →
  users_list (remote w) = (Resolves <$> pages) ++ r :: rest →
  Forall (λ p, ok p = true ∧ Js.truthy (next_cursor p) = true) pages →
  (∀ p, r = Resolves p → ok p = false) →
  prefetchUsers rt forceRefresh w =
    (match r with Rejects e => Thrown e | Resolves _ => Returned () end,
     afterUsers (usersRequests (None :: (next_cursor <$> pages)))
       (concat (pageItems <$> pages)) rest w) ∧
  files (prefetchUsers rt forceRefresh w).2 = files w.
Proof.
  intros Hfetch Hscript Hpages Hbad.
  assert (prefetchUsers rt forceRefresh w =
    (match r with Rejects e => Thrown e | Resolves _ => Returned () end,
     afterUsers (usersRequests (None :: (next_cursor <$> pages)))
       (concat (pageItems <$> pages)) rest w)) as Hrun.
  { rewrite prefetchUsers_fetch_run by exact Hfetch. cbv zeta.
    rewrite (prefetchUsers_loop pages None _ r rest w Hscript Hpages).
    - destruct r as [p|e]; cbn [fst snd]; [|by rewrite app_nil_r].
      rewrite (Hbad p eq_refl). by rewrite app_nil_r.
    - intros p -> Hok. rewrite (Hbad p eq_refl) in Hok. discriminate.
    - rewrite Hscript, length_app, length_fmap. simpl.
      unfold UsersListResponse. lia. }
  split; [exact Hrun | rewrite Hrun; reflexivity].
Qed.

Lemma prefetchUsers_failure_witness :
  prefetchUsers modelRuntime true UsersExample.brokenWorld =
    (Returned (),
     afterUsers (usersRequests [None; Some "p2"]) [Examples.alice; UsersExample.nameless] []
       UsersExample.brokenWorld) ∧
  userCache (prefetchUsers modelRuntime true UsersExample.brokenWorld).2
    = {[ "U1" := "Alice" ]}.
Proof.
  destruct (prefetchUsers_failure modelRuntime true
              [Examples.okResponse [Examples.alice; UsersExample.nameless] (Some "p2")]
              (Resolves (Examples.failedResponse "ratelimited")) []
              UsersExample.brokenWorld) as [Hrun _].
  - left. reflexivity.
  - reflexivity.
  - repeat constructor.
  - intros p [= <-]. reflexivity.
  - split; [exact Hrun | rewrite Hrun; vm_compute; reflexivity].
Defined.

Lemma withMembers_keeps (members : list SlackUser) (cache : gmap string string) (i : string) :
  Forall (λ m, user_id m ≠ Some i) members →
  withMembers members cache !! i = cache !! i.
Proof.
  revert cache. induction members as [|m ms IH]; intros cache Hall; [reflexivity|].
  apply Forall_cons_1 in Hall as [Hm Hall].
  change (withMembers (m :: ms) cache) with
    (withMembers ms (if Js.truthy (user_id m)
                     then <[Js.nullish (user_id m) "" := extractDisplayName m]> cache
                     else cache)).
  rewrite IH by exact Hall.
  destruct (Js.truthy (user_id m)) eqn:Hid; [|reflexivity].
  apply lookup_insert_ne. intros Heq. apply Hm.
  rewrite (truthy_Some _ Hid). congruence.
Qed.

Lemma withMembers_last (pre : list SlackUser) (m : SlackUser) (post : list SlackUser)
    (cache : gmap string string) (i : string) :
  user_id m = Some i → Js.nonEmpty i = true →
  Forall (λ m', user_id m' ≠ Some i) post →
  withMembers (pre ++ m :: post) cache !! i = Some (extractDisplayName m).
Proof.
  intros Hid Hne Hpost.
  rewrite withMembers_app.
  change (withMembers (m :: post) (withMembers pre cache)) with
    (withMembers post (if Js.truthy (user_id m)
                       then <[Js.nullish (user_id m) "" := extractDisplayName m]>
                              (withMembers pre cache)
                       else withMembers pre cache)).
  rewrite withMembers_keeps by exact Hpost.
  rewrite Hid. simpl. rewrite Hne. apply lookup_insert_eq.
Qed.

(** X10. After a complete fetch of the user list (ok pages up to one with
    no cursor) [prefetchUsers] has set, for every member with an id, the
    name [extractDisplayName] gives it, the last member winning for an id
    listed twice; members without an id are passed over and the names held
    for other ids stay. The snapshot it then writes holds the whole
    in-memory cache, those other names included. *)
Theorem prefetchUsers_complete (rt : JsRuntime) (forceRefresh : bool)
    (pages : list UsersListResponse) (last : UsersListResponse)
    (rest : list (Reply UsersListResponse)) (w : World) :
  forceRefresh = true ∨ cachedUsers rt w = None →
  completeFetch (users_list (remote w)) pages last rest →
  let members := concat (pageItems <$> pages ++ [last]) in
  let w' := (prefetchUsers rt forceRefresh w).2 in
  (prefetchUsers rt forceRefresh w).1 = Returned () ∧
  userCache w' = withMembers members (userCache w) ∧
  (∀ pre m post i, members = pre ++ m :: post → user_id m = Some i →
     Js.nonEmpty i = true → Forall (λ m', user_id m' ≠ Some i) post →
     userCache w' !! i = Some (extractDisplayName m)) ∧
  (∀ i, Forall (λ m, user_id m ≠ Some i) members →
     userCache w' !! i = userCache w !! i) ∧
  files w' = <[path_join rt (cacheDir w) "users.json" :=
                 stringify_users rt {| users_updatedAt := toISOString rt (clock w);
                                       users := userCache w' |}]> (files w).
Proof.
  intros Hfetch (Hscript & Hpages & Hok & Hlast) members w'.
  assert (prefetchUsers rt forceRefresh w =
    saveUserCacheToFile rt (withMembers members (userCache w))
      (afterUsers (usersRequests (None :: (next_cursor <$> pages))) members rest w)) as Hrun.
  { rewrite prefetchUsers_fetch_run by exact Hfetch. cbv zeta.
    rewrite (prefetchUsers_loop pages None _ (Resolves last) rest w).
    - cbn [fst snd]. rewrite Hok. subst members.
      rewrite fmap_app, concat_app. simpl. rewrite app_nil_r. reflexivity.
    - rewrite Hscript, fmap_app, <- app_assoc. reflexivity.
    - exact Hpages.
    - intros p [= <-] _. exact Hlast.
    - rewrite Hscript, !length_app, length_fmap, length_app. simpl.
      unfold UsersListResponse. lia. }
  assert (userCache w' = withMembers members (userCache w)) as Hcache
    by (subst w'; rewrite Hrun; reflexivity).
  split; [rewrite Hrun; reflexivity|].
  split; [exact Hcache|].
  split; [intros pre m post i -> Hid Hne Hpost; rewrite Hcache;
          apply withMembers_last; assumption|].
  split; [intros i Hall; rewrite Hcache; apply withMembers_keeps, Hall|].
  rewrite Hcache. subst w'. rewrite Hrun. reflexivity.
Qed.

Lemma prefetchUsers_complete_witness :
  userCache (prefetchUsers modelRuntime true UsersExample.completeWorld).2
    = {[ "U1" := "Alice"; "U2" := "bob"; "U9" := "U9" ]} ∧
  users <$> cachedUsers modelRuntime
              (prefetchUsers modelRuntime true UsersExample.completeWorld).2
    = Some {[ "U1" := "Alice"; "U2" := "bob"; "U9" := "U9" ]}.
Proof.
  destruct (prefetchUsers_complete modelRuntime true
              [Examples.okResponse [Examples.alice; UsersExample.nameless] (Some "p2")]
              (Examples.okResponse [UsersExample.bob] None) []
              UsersExample.completeWorld) as (_ & Hcache & _).
  - left. reflexivity.
  - split; [reflexivity|]. split; [repeat constructor|]. split; reflexivity.
  - split; [rewrite Hcache|]; vm_compute; reflexivity.
Defined.

(** X11. With a snapshot on disk and no forced refresh, [prefetchUsers]
    makes no remote call and writes nothing: it sets every entry of the
    snapshot in the cache, over what was held for the same id, and keeps
    the entries of the other ids. *)
Theorem prefetchUsers_from_snapshot (rt : JsRuntime) (cached : UserCacheFile) (w : World) :
  cachedUsers rt w = Some cached →
  prefetchUsers rt false w =
    (Returned (), set_userCache (λ m, users cached ∪ m) w).
Proof.
  intros Hc. unfold prefetchUsers. rewrite bind_run. cbn [negb].
  rewrite loadUserCacheFromFile_run, Hc. cbv beta iota.
  rewrite forEach_cacheUser. f_equal.
  unfold set_userCache. rewrite foldl_insert_map_to_list. reflexivity.
Qed.

Lemma prefetchUsers_from_snapshot_witness :
  userCache (prefetchUsers modelRuntime false
    (set_userCache (λ _, {[ "U1" := "U1"; "U9" := "U9" ]})
       (saveUserCacheToFile modelRuntime SnapshotExample.people emptyWorld).2)).2
  = {[ "U1" := "alice"; "U2" := "bob, the " +:+ dq +:+ "builder" +:+ dq; "U9" := "U9" ]}.
Proof.
  rewrite (prefetchUsers_from_snapshot modelRuntime
             {| users_updatedAt := "2023-11-14T22:13:20.000Z";
                users := SnapshotExample.people |}).
  - vm_compute. reflexivity.
  - vm_compute. reflexivity.
Defined.
